(** * RLDP-HTTP transport bridge (adnl/rldp/http/client.go)

    A shallow embedding of [parseADNLAddress], [connectRLDP],
    [getRLDPQueryHandler] and [Transport.RoundTrip], together with the library
    routines they call (encoding/base32, sigurn/crc16, encoding/hex,
    strings.ToUpper, strconv.ParseInt), and the properties of the bridge
    proved or refuted on that embedding.

    Conventions.
    - A Go [string] is a [string] of Rocq (a sequence of bytes); a [[]byte] is
      a [list Z] whose elements are in [0, 256).
    - [int32] values are integers in [-2^31, 2^31) and every int32 operation
      is followed by [wrap32]; [int] and [int64] are 64 bits wide.
    - A Go function that can return an error, panic or loop for ever returns a
      [result]: [Ok], [Err], [Panic] or [Diverge] (the fuel of a loop ran out).
    - The collaborators (resolver, DHT, ADNL link, RLDP session, random
      source, clock) are the fields of an [Env]; every call to the network is
      appended to a trace of [event]s. *)

From Stdlib Require Import ZArith Lia List Ascii String Bool.
From stdpp Require Import base gmap strings list pretty.

Local Open Scope Z_scope.

(** ** Go runtime: bytes, integers, slices *)

Definition len {A : Type} (l : list A) : Z := Z.of_nat (length l).

Definition byte_of_ascii (c : ascii) : Z := Z.of_N (N_of_ascii c).
Definition ascii_of_byte (b : Z) : ascii := ascii_of_N (Z.to_N (b mod 256)).

(** [[]byte(s)] and [string(b)]. *)
Definition bytes (s : string) : list Z := map byte_of_ascii (list_ascii_of_string s).
Definition string_of_bytes (b : list Z) : string := string_of_list_ascii (map ascii_of_byte b).

(** Truncation of an integer to uint8, uint16, int32 and int64. *)
Definition u8 (x : Z) : Z := x mod 256.
Definition u16 (x : Z) : Z := x mod 65536.
Definition wrap32 (x : Z) : Z := (x + 2 ^ 31) mod 2 ^ 32 - 2 ^ 31.
Definition wrap64 (x : Z) : Z := (x + 2 ^ 63) mod 2 ^ 64 - 2 ^ 63.

Inductive panic : Type :=
| IndexOutOfRange
| SliceBoundsOutOfRange
| NilPointerDereference
| MakesliceCapOutOfRange.

(** [l[i]]: the run time checks [0 <= i < len(l)]. *)
Definition index {A : Type} (l : list A) (i : Z) : option A :=
  if (0 <=? i) && (i <? len l) then nth_error l (Z.to_nat i) else None.

(** [l[lo:hi]]: the run time checks [0 <= lo <= hi <= cap(l)]. A slice is
    modelled by its visible part, so the capacity is the length; the one
    slice of the code with spare capacity is the decoded buffer of
    [parseADNLAddress], where [buf[33:]] (upper bound [len(buf)]) comes first
    and [buf[:33]], [buf[:32]] are only reached with 35 bytes or more. *)
Definition slice {A : Type} (l : list A) (lo hi : Z) : option (list A) :=
  if (0 <=? lo) && (lo <=? hi) && (hi <=? len l)
  then Some (firstn (Z.to_nat (hi - lo)) (skipn (Z.to_nat lo) l))
  else None.

(** ** Errors *)

Inductive error : Type :=
(* handed back by a collaborator *)
| ErrExternal (what : string)
(* encoding/base32 and strconv *)
| CorruptInputError (offset : Z)
| ErrSyntax
| ErrRange
(* parseADNLAddress *)
| ErrWrongIdLength
| ErrFailedToDecodeAddress (e : error)
| ErrInvalidFirstByte
| ErrInvalidAddress
(* connectRLDP *)
| ErrInitADNL (addr : string) (e : error)
| ErrConnectADNL (addr : string) (e : error)
(* getRLDPQueryHandler *)
| ErrUnknownRequestId
| ErrTooBigOffset (offset : Z)
| ErrFailedToSendAnswer (e : error)
| ErrUnexpectedQueryType (ty : string)
(* RoundTrip *)
| ErrParseAdnlAddress (host : string) (e : error)
| ErrResolveHost (host : string) (e : error)
| ErrFindAddress (host : string) (key : string) (e : error)
| ErrConnectServers (tried : list string) (host : string) (e : error)
| ErrReadBody (e : error)
| ErrQuery (e : error)
| ErrParseContentLength (e : error)
| ErrQueryPart (seqno : Z) (e : error).

Inductive result (A : Type) : Type :=
| Ok (a : A)
| Err (e : error)
| Panic (p : panic)
| Diverge.
Arguments Ok {A} a.
Arguments Err {A} e.
Arguments Panic {A} p.
Arguments Diverge {A}.

Global Instance result_ret : MRet result := fun A a => Ok a.
Global Instance result_bind : MBind result := fun A B k m =>
  match m with
  | Ok a => k a
  | Err e => Err e
  | Panic p => Panic p
  | Diverge => Diverge
  end.

(** A run-time check: [None] is the panic [p]. *)
Definition check {A : Type} (p : panic) (o : option A) : result A :=
  match o with
  | Some a => Ok a
  | None => Panic p
  end.

(** ** encoding/base32 (StdEncoding, padded) *)

Module base32.

Definition encodeStd : string := "ABCDEFGHIJKLMNOPQRSTUVWXYZ234567".
Definition padChar : Z := 61.

Fixpoint position (c : Z) (alphabet : list Z) (i : Z) : Z :=
  match alphabet with
  | [] => 255
  | a :: rest => if a =? c then i else position c rest (i + 1)
  end.

(** [enc.decodeMap[c]]: the index of [c] in the alphabet, 0xFF when absent. *)
Definition decodeMap (c : Z) : Z := position c (bytes encodeStd) 0.

Definition stripNewlines (src : list Z) : list Z :=
  filter (fun c => negb ((c =? 13) || (c =? 10))) src.

(** The padding run [src[0 .. 8-1-j)] : the offset [k] of the first
    character that is not the padding character. *)
Fixpoint badPadding (src : list Z) (k : Z) (n : nat) : option Z :=
  match n with
  | O => None
  | S n' =>
      match src with
      | [] => None
      | c :: rest => if c =? padChar then badPadding rest (k + 1) n' else Some k
      end
  end.

(** The inner loop [for j := 0; j < 8;] of [decode] with [n] rounds left:
    either a corrupt-input offset, or the quantum [dbuf] read so far, its
    length [dlen], the [end] flag and the unread input. *)
Fixpoint quantum (n : nat) (j : Z) (dbuf : list Z) (src : list Z) (olen : Z)
  : Z + (list Z * Z * bool * list Z) :=
  match n with
  | O => inr (dbuf, 8, false, src)
  | S n' =>
      match src with
      | [] => inl (olen - 0 - j)
      | c :: src' =>
          if (c =? padChar) && (2 <=? j) && (len src' <? 8) then
            if len src' + j <? 8 - 1 then inl olen
            else
              match badPadding src' 0 (Z.to_nat (8 - 1 - j)) with
              | Some k => inl (olen - len src' + k - 1)
              | None =>
                  if (j =? 1) || (j =? 3) || (j =? 6)
                  then inl (olen - len src' - 1)
                  else inr (dbuf, j, true, src')
              end
          else
            let d := decodeMap c in
            if d =? 255 then inl (olen - len src' - 1)
            else quantum n' (j + 1) (dbuf ++ [d]) src' olen
      end
  end.

(** The [switch dlen] that packs 8 five-bit blocks into up to 5 bytes. *)
Definition pack (dbuf : list Z) (dlen : Z) : list Z :=
  let d i := nth i dbuf 0 in
  let b0 := u8 (Z.lor (u8 (Z.shiftl (d 0%nat) 3)) (Z.shiftr (d 1%nat) 2)) in
  let b1 := u8 (Z.lor (Z.lor (u8 (Z.shiftl (d 1%nat) 6)) (u8 (Z.shiftl (d 2%nat) 1)))
                      (Z.shiftr (d 3%nat) 4)) in
  let b2 := u8 (Z.lor (u8 (Z.shiftl (d 3%nat) 4)) (Z.shiftr (d 4%nat) 1)) in
  let b3 := u8 (Z.lor (Z.lor (u8 (Z.shiftl (d 4%nat) 7)) (u8 (Z.shiftl (d 5%nat) 2)))
                      (Z.shiftr (d 6%nat) 3)) in
  let b4 := u8 (Z.lor (u8 (Z.shiftl (d 6%nat) 5)) (d 7%nat)) in
  if dlen =? 8 then [b0; b1; b2; b3; b4]
  else if dlen =? 7 then [b0; b1; b2; b3]
  else if dlen =? 5 then [b0; b1; b2]
  else if dlen =? 4 then [b0; b1]
  else if dlen =? 2 then [b0]
  else [].

(** The outer loop [for len(src) > 0 && !end]; every round consumes at least
    one character, so [length src] rounds are enough. *)
Fixpoint decodeLoop (fuel : nat) (src : list Z) (olen : Z) (dst : list Z) : Z + list Z :=
  match fuel with
  | O => inr dst
  | S fuel' =>
      match src with
      | [] => inr dst
      | _ =>
          match quantum 8 0 [] src olen with
          | inl off => inl off
          | inr (dbuf, dlen, end_, src') =>
              let dst' := dst ++ pack dbuf dlen in
              if end_ then inr dst' else decodeLoop fuel' src' olen dst'
          end
      end
  end.

Definition decode (src : list Z) : Z + list Z :=
  decodeLoop (length src) src (len src) [].

(** [StdEncoding.DecodeString(s)]: the decoded bytes [buf[:n]], or the
    corrupt-input offset. *)
Definition DecodeString (s : string) : Z + list Z :=
  decode (stripNewlines (bytes s)).

End base32.

(** ** github.com/sigurn/crc16 *)

Module crc16.

Record Params : Type := {
  Poly : Z; Init : Z; RefIn : bool; RefOut : bool; XorOut : Z; Check : Z; Name : string
}.

Definition CRC16_XMODEM : Params :=
  {| Poly := 0x1021; Init := 0x0000; RefIn := false; RefOut := false;
     XorOut := 0x0000; Check := 0x31C3; Name := "CRC-16/XMODEM" |}.

Record Table : Type := { params : Params; data : list Z }.

Fixpoint shiftBits (i : nat) (crc poly : Z) : Z :=
  match i with
  | O => crc
  | S i' =>
      let bit := negb (Z.land crc 0x8000 =? 0) in
      let crc := u16 (Z.shiftl crc 1) in
      shiftBits i' (if bit then Z.lxor crc poly else crc) poly
  end.

Definition MakeTable (p : Params) : Table :=
  {| params := p;
     data := map (fun n => shiftBits 8 (u16 (Z.shiftl n 8)) (Poly p)) (seqZ 0 256) |}.

Fixpoint reverseBits (w : nat) (x acc : Z) : Z :=
  match w with
  | O => acc
  | S w' => reverseBits w' (Z.shiftr x 1) (Z.lor (Z.shiftl acc 1) (Z.land x 1))
  end.
Definition ReverseByte (b : Z) : Z := reverseBits 8 b 0.
Definition ReverseUint16 (v : Z) : Z := reverseBits 16 v 0.

Definition Update (crc : Z) (bs : list Z) (table : Table) : Z :=
  fold_left
    (fun crc d =>
       let d := if RefIn (params table) then ReverseByte d else d in
       Z.lxor (u16 (Z.shiftl crc 8))
              (nth (Z.to_nat (Z.lxor (u8 (Z.shiftr crc 8)) d)) (data table) 0))
    bs crc.

Definition Complete (crc : Z) (table : Table) : Z :=
  if RefOut (params table)
  then Z.lxor (ReverseUint16 crc) (XorOut (params table))
  else Z.lxor crc (XorOut (params table)).

Definition Checksum (bs : list Z) (table : Table) : Z :=
  Complete (Update (Init (params table)) bs table) table.

End crc16.

(** ** encoding/hex and encoding/binary *)

Definition hextable : string := "0123456789abcdef".

Definition hexDigit (v : Z) : ascii :=
  match String.get (Z.to_nat v) hextable with
  | Some c => c
  | None => "0"%char
  end.

(** [hex.EncodeToString]. *)
Fixpoint EncodeToString (src : list Z) : string :=
  match src with
  | [] => EmptyString
  | v :: rest =>
      String (hexDigit (Z.shiftr v 4)) (String (hexDigit (Z.land v 0x0f)) (EncodeToString rest))
  end.

(** [binary.BigEndian.Uint16(b)]: [_ = b[1]] is the bounds check. *)
Definition BigEndian_Uint16 (b : list Z) : option Z :=
  match b with
  | b0 :: b1 :: _ => Some (Z.lor b1 (Z.shiftl b0 8))
  | _ => None
  end.

(** ** unicode/utf8, unicode and strings *)

Definition RuneError : Z := 0xFFFD.
Definition RuneSelf : Z := 0x80.
Definition MaxRune : Z := 0x10FFFF.

Definition between (lo hi x : Z) : bool := (lo <=? x) && (x <=? hi).

(** [utf8.DecodeRuneInString]: the first rune of [bs] and its width; an
    invalid or truncated encoding is [RuneError] of width 1. *)
Definition DecodeRune (bs : list Z) : Z * nat :=
  match bs with
  | [] => (RuneError, 0%nat)
  | b0 :: rest =>
      if b0 <? RuneSelf then (b0, 1%nat)
      else if between 0xC2 0xDF b0 then
        match rest with
        | b1 :: _ =>
            if between 0x80 0xBF b1
            then (Z.lor (Z.shiftl (Z.land b0 0x1F) 6) (Z.land b1 0x3F), 2%nat)
            else (RuneError, 1%nat)
        | _ => (RuneError, 1%nat)
        end
      else if between 0xE0 0xEF b0 then
        let lo := if b0 =? 0xE0 then 0xA0 else 0x80 in
        let hi := if b0 =? 0xED then 0x9F else 0xBF in
        match rest with
        | b1 :: b2 :: _ =>
            if between lo hi b1 && between 0x80 0xBF b2
            then (Z.lor (Z.lor (Z.shiftl (Z.land b0 0x0F) 12) (Z.shiftl (Z.land b1 0x3F) 6))
                        (Z.land b2 0x3F), 3%nat)
            else (RuneError, 1%nat)
        | _ => (RuneError, 1%nat)
        end
      else if between 0xF0 0xF4 b0 then
        let lo := if b0 =? 0xF0 then 0x90 else 0x80 in
        let hi := if b0 =? 0xF4 then 0x8F else 0xBF in
        match rest with
        | b1 :: b2 :: b3 :: _ =>
            if between lo hi b1 && between 0x80 0xBF b2 && between 0x80 0xBF b3
            then (Z.lor (Z.lor (Z.lor (Z.shiftl (Z.land b0 0x07) 18)
                                      (Z.shiftl (Z.land b1 0x3F) 12))
                               (Z.shiftl (Z.land b2 0x3F) 6))
                        (Z.land b3 0x3F), 4%nat)
            else (RuneError, 1%nat)
        | _ => (RuneError, 1%nat)
        end
      else (RuneError, 1%nat)
  end.

(** [for _, c := range s]: the runes of a string, in order. *)
Fixpoint runes (fuel : nat) (bs : list Z) : list Z :=
  match fuel with
  | O => []
  | S fuel' =>
      match bs with
      | [] => []
      | _ => let '(r, w) := DecodeRune bs in r :: runes fuel' (skipn w bs)
      end
  end.

(** [utf8.AppendRune]. *)
Definition EncodeRune (r : Z) : list Z :=
  if between 0 0x7F r then [r]
  else if between 0 0x7FF r then
    [Z.lor 0xC0 (Z.shiftr r 6); Z.lor 0x80 (Z.land r 0x3F)]
  else
    let r := if (r <? 0) || (MaxRune <? r) || between 0xD800 0xDFFF r then RuneError else r in
    if r <=? 0xFFFF then
      [Z.lor 0xE0 (Z.shiftr r 12); Z.lor 0x80 (Z.land (Z.shiftr r 6) 0x3F);
       Z.lor 0x80 (Z.land r 0x3F)]
    else
      [Z.lor 0xF0 (Z.shiftr r 18); Z.lor 0x80 (Z.land (Z.shiftr r 12) 0x3F);
       Z.lor 0x80 (Z.land (Z.shiftr r 6) 0x3F); Z.lor 0x80 (Z.land r 0x3F)].

(** [strings.Map(mapping, s)]: every rune of [s] is replaced by its image
    (a negative image drops the rune); an invalid byte reads as [RuneError]. *)
Definition Map (mapping : Z -> Z) (s : string) : string :=
  string_of_bytes
    (flat_map (fun c => let r := mapping c in if 0 <=? r then EncodeRune r else [])
              (runes (String.length s) (bytes s))).

(** [strings.HasSuffix]. *)
Definition HasSuffix (s suffix : string) : bool :=
  (String.length suffix <=? String.length s)%nat &&
  String.eqb (substring (String.length s - String.length suffix) (String.length suffix) s) suffix.

(** ** strconv.ParseInt(s, 10, 64) *)

Module strconv.

Definition digit (c : Z) : option Z :=
  if between 48 57 c then Some (c - 48) else None.

(** The digit loop of [ParseUint(s, 10, 64)], left to right: a syntax error
    at a character that is no digit, a range error as soon as the value
    passes 2^64-1. *)
Fixpoint parseDigits (cs : list Z) (n : Z) : error + Z :=
  match cs with
  | [] => inr n
  | c :: rest =>
      match digit c with
      | None => inl ErrSyntax
      | Some d =>
          if 2 ^ 64 <=? n * 10 + d then inl ErrRange
          else parseDigits rest (n * 10 + d)
      end
  end.

Definition ParseUint (cs : list Z) : error + Z :=
  match cs with
  | [] => inl ErrSyntax
  | _ => parseDigits cs 0
  end.

Definition ParseInt (s : string) : error + Z :=
  match bytes s with
  | [] => inl ErrSyntax
  | c :: rest =>
      let neg := c =? 45 in
      let body := if (c =? 43) || (c =? 45) then rest else c :: rest in
      match ParseUint body with
      | inl e => inl e
      | inr un =>
          let cutoff := 2 ^ 63 in
          if negb neg && (cutoff <=? un) then inl ErrRange
          else if neg && (cutoff <? un) then inl ErrRange
          else inr (if neg then - un else un)
      end
  end.

End strconv.

(** ** The literal address codec *)

Section Codec.

(** [unicode.To(unicode.UpperCase, r)] for a rune above ASCII: the upper-case
    column of the table [unicode.CaseRanges], which is data of the Go
    distribution. *)
Variable CaseRanges : Z -> Z.

(** [unicode.ToUpper]. *)
Definition unicode_ToUpper (r : Z) : Z :=
  if r <=? 0x7F then (if between 97 122 r then r - (97 - 65) else r)
  else CaseRanges r.

(** [strings.ToUpper]: byte-wise on an ASCII string, rune-wise otherwise. *)
Definition ToUpper (s : string) : string :=
  let bs := bytes s in
  let isASCII := forallb (fun c => c <? RuneSelf) bs in
  let hasLower := existsb (between 97 122) bs in
  if isASCII then
    if negb hasLower then s
    else string_of_bytes (map (fun c => if between 97 122 c then c - (97 - 65) else c) bs)
  else Map unicode_ToUpper s.

Definition parseADNLAddress (addr : string) : result (list Z) :=
  if negb (String.length addr =? 55)%nat then Err ErrWrongIdLength
  else
    match base32.DecodeString (String "F" (ToUpper addr)) with
    | inl off => Err (ErrFailedToDecodeAddress (CorruptInputError off))
    | inr buf =>
        b0 ← check IndexOutOfRange (index buf 0);
        if negb (b0 =? 0x2d) then Err ErrInvalidFirstByte
        else
          tail ← check SliceBoundsOutOfRange (slice buf 33 (len buf));
          hash ← check IndexOutOfRange (BigEndian_Uint16 tail);
          body ← check SliceBoundsOutOfRange (slice buf 0 33);
          let calc := crc16.Checksum body (crc16.MakeTable crc16.CRC16_XMODEM) in
          if negb (hash =? calc) then Err ErrInvalidAddress
          else check SliceBoundsOutOfRange (slice buf 0 32)
    end.

End Codec.

(** ** Data model *)

Definition _ChunkSize : Z := 2 ^ 17.
Definition _RLDPMaxAnswerSize : Z := 2 * _ChunkSize + 1024.

(** The TL messages of the RLDP-HTTP protocol. *)
Module Header.
Record t : Type := mk { Name : string; Value : string }.
End Header.

Module Request.
Record t : Type := mk {
  ID : list Z; Method : string; URL : string; Version : string; Headers : list Header.t
}.
End Request.

Module Response.
Record t : Type := mk {
  StatusCode : Z; Reason : string; Headers : list Header.t; NoPayload : bool
}.
End Response.

Module PayloadPart.
Record t : Type := mk { Data : list Z; Trailer : list Header.t; IsLast : bool }.
End PayloadPart.

Module GetNextPayloadPart.
(** [Seqno] and [MaxChunkSize] are int32. *)
Record t : Type := mk { ID : list Z; Seqno : Z; MaxChunkSize : Z }.
End GetNextPayloadPart.

(** net/http, as far as [RoundTrip] reads and writes it. *)
Module http.

(** [Header] is the header map of the request, entry by entry in the order
    in which this call ranges over it. [URL] is [request.URL.String()].
    [Body] is [None] for a nil body and otherwise what [io.ReadAll] gets from
    it. *)
Record Request : Type := mkRequest {
  Host : string;
  Method : string;
  URL : string;
  ContentLength : Z;
  Header : list (string * list string);
  Body : option (error + list Z)
}.

Record Response : Type := mkResponse {
  Status : string;
  StatusCode : Z;
  Proto : string;
  ProtoMajor : Z;
  ProtoMinor : Z;
  RespHeader : gmap string (list string);
  RespContentLength : Z;
  Trailer : gmap string (list string);
  RespRequest : Request;
  RespBody : list Z
}.

(** [request.Header[key]]. *)
Fixpoint lookupHeader (h : list (string * list string)) (key : string) : option (list string) :=
  match h with
  | [] => None
  | (k, v) :: rest => if String.eqb k key then Some v else lookupHeader rest key
  end.

End http.

Module payloadStream.
Record t : Type := mk { Data : list Z; StartTime : Z }.
End payloadStream.

(** [address.UDP]; [IP] is [v.IP.String()]. *)
Module UDP.
Record t : Type := mk { IP : string; Port : Z }.
End UDP.

(** An RLDP session: the ADNL link it runs on (peer key and endpoint) and
    the identifier [rldp.NewRLDP] was given. *)
Record RLDP : Type := mkRLDP { rldpKey : list Z; rldpAddr : string; rldpID : string }.

Module Query.
Inductive data : Type :=
| GetNextPayloadPart (req : GetNextPayloadPart.t)
| Other (type : string).
Record t : Type := mk { ID : list Z; MaxAnswerSize : Z; Data : data }.
End Query.

(** The two tables of a [Transport]; [dht] and [resolver] are in the [Env]. *)
Record Transport : Type := mkTransport {
  rldpClients : gmap string RLDP;
  activeRequests : gmap string payloadStream.t
}.

Definition NewTransport : Transport :=
  {| rldpClients := ∅; activeRequests := ∅ |}.

(** ** Collaborators

    What the resolver, the directory, the link layer, the random source and
    the clock do is given by the fields of an [Env]. A collaborator that
    returns no error returns a value that is not nil (a resolved domain, an
    address list, a session). *)

Record Env : Type := {
  (** [resolver.Resolve(ctx, host)] at its i-th call: an error, or the site
      record of the resolved domain. *)
  Resolve : nat -> string -> error + list Z;
  (** [dht.FindAddresses(ctx, key)]: an error, or the addresses and the
      public key. *)
  FindAddresses : list Z -> error + (list UDP.t * list Z);
  (** [adnl.NewADNL(key)] and [a.Connect(ctx, addr)]. *)
  NewADNL : list Z -> option error;
  Connect : list Z -> string -> option error;
  (** [crypto/rand.Read]: an error, or the bytes the source delivers. *)
  randRead : error + list Z;
  (** [time.Now()]. *)
  Now : Z;
  (** [rl.DoQuery] with a [Request] and with a [GetNextPayloadPart]. *)
  DoQuery : RLDP -> Request.t -> error + Response.t;
  DoQueryPart : RLDP -> GetNextPayloadPart.t -> error + PayloadPart.t;
  (** [r.SendAnswer(ctx, maxAnswerSize, queryID, part)]. *)
  SendAnswer : RLDP -> Z -> list Z -> PayloadPart.t -> option error;
  (** [make([]byte, 0, n)] panics when [n] is past the allocation limit. *)
  maxAlloc : Z
}.

(** The calls that leave the process. [EvQuery] carries the table of staged
    bodies the query handler serves while the query is in flight. *)
Inductive event : Type :=
| EvResolve (host : string)
| EvSleep (ms : Z)
| EvFindAddresses (key : list Z)
| EvNewADNL (key : list Z)
| EvConnect (key : list Z) (addr : string)
| EvQuery (rl : RLDP) (req : Request.t) (staged : gmap string payloadStream.t)
| EvQueryPart (rl : RLDP) (req : GetNextPayloadPart.t)
| EvSendAnswer (rl : RLDP) (maxAnswerSize : Z) (queryID : list Z) (part : PayloadPart.t).

(** ** The monad of the transport: state, trace and result *)

Definition M (A : Type) : Type := Transport -> Transport * list event * result A.

Global Instance M_ret : MRet M := fun A a t => (t, [], Ok a).
Global Instance M_bind : MBind M := fun A B k m t =>
  match m t with
  | (t1, tr1, Ok a) => let '(t2, tr2, r) := k a t1 in (t2, tr1 ++ tr2, r)
  | (t1, tr1, Err e) => (t1, tr1, Err e)
  | (t1, tr1, Panic p) => (t1, tr1, Panic p)
  | (t1, tr1, Diverge) => (t1, tr1, Diverge)
  end.

Definition lift {A : Type} (r : result A) : M A := fun t => (t, [], r).
Definition fail {A : Type} (e : error) : M A := lift (Err e).
Definition emit (ev : event) : M unit := fun t => (t, [ev], Ok tt).
Definition get : M Transport := fun t => (t, [], Ok t).
Definition put (t' : Transport) : M unit := fun _ => (t', [], Ok tt).

(** ** The transport *)

Section Bridge.

Variable CaseRanges : Z -> Z.
Variable env : Env.

Definition setClients (f : gmap string RLDP -> gmap string RLDP) : M unit :=
  t ← get;
  put {| rldpClients := f (rldpClients t); activeRequests := activeRequests t |}.

Definition setRequests
    (f : gmap string payloadStream.t -> gmap string payloadStream.t) : M unit :=
  t ← get;
  put {| rldpClients := rldpClients t; activeRequests := f (activeRequests t) |}.

(** [connectRLDP]: the error it returns is a value, the caller goes on. *)
Definition connectRLDP (key : list Z) (addr id : string) : M (error + RLDP) :=
  emit (EvNewADNL key);;
  match NewADNL env key with
  | Some e => mret (inl (ErrInitADNL addr e))
  | None =>
      emit (EvConnect key addr);;
      match Connect env key addr with
      | Some e => mret (inl (ErrConnectADNL addr e))
      | None =>
          let r := mkRLDP key addr id in
          setClients (insert id r);;
          mret (inr r)
      end
  end.

(** The callback given to [r.SetOnDisconnect]. *)
Definition onDisconnect (id : string) : M unit := setClients (delete id).

(** The callback given to [r.SetOnQuery]. *)
Definition getRLDPQueryHandler (r : RLDP) (query : Query.t) : M unit :=
  match Query.Data query with
  | Query.GetNextPayloadPart req =>
      t ← get;
      match activeRequests t !! EncodeToString (GetNextPayloadPart.ID req) with
      | None => fail ErrUnknownRequestId
      | Some stream =>
          let data := payloadStream.Data stream in
          let maxChunkSize := GetNextPayloadPart.MaxChunkSize req in
          let offset := wrap32 (GetNextPayloadPart.Seqno req * maxChunkSize) in
          if len data <=? offset then fail (ErrTooBigOffset offset)
          else
            let till :=
              if wrap64 (offset + maxChunkSize) <? len data
              then wrap64 (offset + maxChunkSize)
              else len data in
            chunk ← lift (check SliceBoundsOutOfRange (slice data offset till));
            let part := PayloadPart.mk chunk [] (till =? len data) in
            emit (EvSendAnswer r (Query.MaxAnswerSize query) (Query.ID query) part);;
            match SendAnswer env r (Query.MaxAnswerSize query) (Query.ID query) part with
            | Some e => fail (ErrFailedToSendAnswer e)
            | None => mret tt
            end
      end
  | Query.Other type => fail (ErrUnexpectedQueryType type)
  end.

(** [for i := 0; i < 3; i++] around [resolver.Resolve], then
    [domain.GetSiteRecord()]; [n] rounds are left, [err] is the last error. *)
Fixpoint resolveLoop (n i : nat) (host : string) (err : option error) : M (list Z) :=
  match n with
  | O =>
      match err with
      | Some e => fail (ErrResolveHost host e)
      | None => lift (Panic NilPointerDereference)
      end
  | S n' =>
      emit (EvResolve host);;
      match Resolve env i host with
      | inl e => emit (EvSleep 50);; resolveLoop n' (S i) host (Some e)
      | inr site => mret site
      end
  end.

(** [for _, v := range addresses.Addresses]: the session, the error and the
    addresses tried, as the loop leaves them. *)
Fixpoint connectLoop (addresses : list UDP.t) (pubKey : list Z) (host : string)
    (rl : option RLDP) (err : option error) (tried : list string)
  : M (option RLDP * option error * list string) :=
  match addresses with
  | [] => mret (rl, err, tried)
  | v :: rest =>
      let addr := UDP.IP v +:+ ":" +:+ pretty (UDP.Port v) in
      r ← connectRLDP pubKey addr host;
      match r with
      | inr r => mret (Some r, None, tried)
      | inl e => connectLoop rest pubKey host None (Some e) (tried ++ [addr])
      end
  end.

(** Lines 129-179 of [RoundTrip]: the session for the host of the request,
    [None] when [rl] is still nil. *)
Definition acquire (request : http.Request) : M (option RLDP) :=
  let host := http.Host request in
  t ← get;
  match rldpClients t !! host with
  | Some rl => mret (Some rl)
  | None =>
      adnlID ←
        (if HasSuffix host ".adnl" then
           match parseADNLAddress CaseRanges (substring 0 (String.length host - 5) host) with
           | Err e => fail (ErrParseAdnlAddress host e)
           | r => lift r
           end
         else resolveLoop 3 0 host None);
      emit (EvFindAddresses adnlID);;
      match FindAddresses env adnlID with
      | inl e => fail (ErrFindAddress host (EncodeToString adnlID) e)
      | inr (addresses, pubKey) =>
          '(rl, err, tried) ← connectLoop addresses pubKey host None None [];
          match err with
          | Some e => fail (ErrConnectServers tried host e)
          | None => mret rl
          end
      end
  end.

(** [rand.Read(b)]: the bytes of the source written over [b].
    [crypto/rand.Read] fills the whole of [b] or returns an error, so the
    sources of a successful call have at least [length b] bytes; a shorter
    list stands for a source that goes on with the bytes [b] has, which are
    zero for the fresh buffer of [RoundTrip]. *)
Definition Read (src b : list Z) : list Z :=
  firstn (length b) (src ++ skipn (length src) b).

(** The header list of the request message, lines 197-219. *)
Definition requestHeaders (request : http.Request) : list Header.t :=
  [Header.mk "Host" (http.Host request)]
  ++ (if 0 <? http.ContentLength request
      then [Header.mk "Content-Length" (pretty (http.ContentLength request))]
      else [])
  ++ flat_map (fun '(k, v) => map (Header.mk k) v) (http.Header request).

Definition setHeaders (hs : list Header.t) (m : gmap string (list string))
  : gmap string (list string) :=
  fold_left (fun m h => <[Header.Name h := [Header.Value h]]> m) hs m.

(** [for !res.NoPayload], lines 274-292. *)
Fixpoint pullLoop (fuel : nat) (rl : RLDP) (qid : list Z) (noPayload : bool) (seqno : Z)
    (buf : list Z) (trailer : gmap string (list string))
  : M (list Z * gmap string (list string)) :=
  if noPayload then mret (buf, trailer)
  else
    match fuel with
    | O => lift Diverge
    | S fuel' =>
        let q := GetNextPayloadPart.mk qid seqno _ChunkSize in
        emit (EvQueryPart rl q);;
        match DoQueryPart env rl q with
        | inl e => fail (ErrQueryPart seqno e)
        | inr part =>
            pullLoop fuel' rl qid (PayloadPart.IsLast part) (wrap32 (seqno + 1))
                     (buf ++ PayloadPart.Data part)
                     (setHeaders (PayloadPart.Trailer part) trailer)
        end
    end.

(** [RoundTrip]. A nil [rl] reaches [rl.DoQuery], whose first step reads a
    field of the session: a nil pointer dereference. *)
Definition RoundTrip (fuel : nat) (request : http.Request) : M http.Response :=
  rl ← acquire request;
  match randRead env with
  | inl e => fail e
  | inr src =>
      let qid := Read src (repeat 0 32) in
      let req :=
        Request.mk qid (http.Method request) (http.URL request) "HTTP/1.1"
                   (requestHeaders request) in
      match http.Body request with
      | None => mret tt
      | Some (inl e) => fail (ErrReadBody e)
      | Some (inr data) =>
          setRequests (insert (EncodeToString qid) (payloadStream.mk data (Now env)))
      end;;
      rl ← lift (check NilPointerDereference rl);
      t ← get;
      emit (EvQuery rl req (activeRequests t));;
      match DoQuery env rl req with
      | inl e => fail (ErrQuery e)
      | inr res =>
          setRequests (delete (EncodeToString qid));;
          contentLength ←
            match http.lookupHeader (http.Header request) "Content-Length" with
            | Some (ln0 :: _) =>
                match strconv.ParseInt ln0 with
                | inl e => fail (ErrParseContentLength e)
                | inr n => mret n
                end
            | _ => mret (-1)
            end;
          '(buf, trailer) ←
            (if 0 <? contentLength then
               (if maxAlloc env <? contentLength
                then lift (Panic MakesliceCapOutOfRange) else mret tt);;
               pullLoop fuel rl qid (Response.NoPayload res) 0 [] ∅
             else mret ([], ∅));
          mret {| http.Status := Response.Reason res;
                  http.StatusCode := Response.StatusCode res;
                  http.Proto := "HTTP/1.1";
                  http.ProtoMajor := 1;
                  http.ProtoMinor := 1;
                  http.RespHeader := setHeaders (Response.Headers res) ∅;
                  http.RespContentLength := contentLength;
                  http.Trailer := trailer;
                  http.RespRequest := request;
                  http.RespBody := buf |}
      end
  end.

End Bridge.

(** ** Predicates and inputs used in the statements *)

(** The strings on which [strings.ToUpper] works byte by byte. *)
Definition isASCII (s : string) : bool := forallb (fun c => c <? RuneSelf) (bytes s).

(** The upper case of an ASCII byte. *)
Definition upperByte (c : Z) : Z := if between 97 122 c then c - (97 - 65) else c.

(** The events of session set-up: name resolution, directory lookup and
    connection attempts. *)
Definition isSetup (ev : event) : Prop :=
  match ev with
  | EvResolve _ | EvSleep _ | EvFindAddresses _ | EvNewADNL _ | EvConnect _ _ => True
  | _ => False
  end.

(** The events of an exchange over the session [rl]. *)
Definition isExchangeOn (rl : RLDP) (ev : event) : Prop :=
  match ev with
  | EvQuery rl' _ _ | EvQueryPart rl' _ => rl' = rl
  | _ => False
  end.

(** The pull requests sent over the session [rl]. *)
Definition isPullOn (rl : RLDP) (ev : event) : Prop :=
  match ev with
  | EvQueryPart rl' _ => rl' = rl
  | _ => False
  end.

(** The table of staged bodies once [RoundTrip] has staged the body of the
    request under the identifier [qid]. *)
Definition stagedWith (env : Env) (qid : list Z) (body : option (error + list Z))
    (table : gmap string payloadStream.t) : gmap string payloadStream.t :=
  match body with
  | Some (inr data) => <[EncodeToString qid := payloadStream.mk data (Now env)]> table
  | _ => table
  end.

(** A collaborator set in which every network call fails, except where a
    field is overridden below. *)
Definition envDown : Env :=
  {| Resolve := fun _ _ => inl (ErrExternal "resolve");
     FindAddresses := fun _ => inl (ErrExternal "dht");
     NewADNL := fun _ => None;
     Connect := fun _ _ => Some (ErrExternal "connect");
     randRead := inr (seqZ 100 32);
     Now := 1000;
     DoQuery := fun _ _ => inl (ErrExternal "query");
     DoQueryPart := fun _ _ => inl (ErrExternal "query");
     SendAnswer := fun _ _ _ _ => None;
     maxAlloc := 2 ^ 48 |}.

Definition peer : RLDP := mkRLDP [1; 2; 3] "10.0.0.1:3333" "site.ton".

(** A pull request for the stream [id]. *)
Definition pullRequest (id : list Z) (seqno maxChunkSize : Z) : Query.t :=
  Query.mk [9] _RLDPMaxAnswerSize
           (Query.GetNextPayloadPart (GetNextPayloadPart.mk id seqno maxChunkSize)).

(** The part a run of the query handler answered with, if it answered. *)
Definition answered (out : Transport * list event * result unit) : option PayloadPart.t :=
  match out with
  | (_, [EvSendAnswer _ _ _ part], _) => Some part
  | _ => None
  end.

(** The answers to the pull requests with the sequence numbers [seqnos]. *)
Definition pulled (env : Env) (r : RLDP) (t : Transport) (id : list Z) (maxChunkSize : Z)
    (seqnos : list Z) : list (option PayloadPart.t) :=
  map (fun seqno => answered (getRLDPQueryHandler env r (pullRequest id seqno maxChunkSize) t))
      seqnos.

(** A transport whose only staged body is [data], under the identifier [id]. *)
Definition staging (id data : list Z) : Transport :=
  {| rldpClients := ∅;
     activeRequests := {[ EncodeToString id := payloadStream.mk data 0 ]} |}.

(** A body of 2^31 + 1 bytes. *)
Definition bigPayload : list Z := repeat 0 (Z.to_nat (2 ^ 31 + 1)).

(** ** Concrete inputs *)

(** The literal address of the key 01 02 .. 20: base-32 of the tag byte
    0x2d, the key and the CRC-16/XMODEM 0x3d47 of these 33 bytes, without
    its first character. *)
Definition addr0 : string := "UAQEAYEAUDAOCAJBIFQYDIOB4IBCEQTCQKRMFYYDENBWHA5DYPSAPKH".
Definition key0 : list Z := seqZ 1 32.

(** A 55-byte literal that ends in six padding characters: it decodes to 31
    bytes. *)
Definition addrPadded : string := "UAAAAAAAAAAAAAAAAAAAAAAAAAAAAAAAAAAAAAAAAAAAAAAAA======".

(** The rows [{0x0131, 0x0131, d{-232, 0, -232}}] and
    [{0x017F, 0x017F, d{-300, 0, -300}}] of [unicode.CaseRanges]: dotless i
    and long s are the runes above ASCII whose upper case is an ASCII
    letter. No other row is consulted on the inputs below. *)
Definition caseRangesRows (r : Z) : Z :=
  if r =? 0x131 then r - 232 else if r =? 0x17F then r - 300 else r.

(** U+0131, LATIN SMALL LETTER DOTLESS I, in UTF-8. *)
Definition dotlessI : string := string_of_bytes [0xC4; 0xB1].

Fixpoint times (n : nat) (s : string) : string :=
  match n with
  | O => EmptyString
  | S n' => s +:+ times n' s
  end.

(** 55 bytes: U, eight dotless i, 38 A. *)
Definition addrDotless55Bytes : string := "U" +:+ times 8 dotlessI +:+ times 38 "A".

(** 55 runes in 56 bytes: [addr0] with its first I written as a dotless i. *)
Definition addrDotless55Runes : string :=
  "UAQEAYEAUDAOCAJB" +:+ dotlessI +:+ "FQYDIOB4IBCEQTCQKRMFYYDENBWHA5DYPSAPKH".

(** [addr0] in lower case. *)
Definition addrLower : string := "uaqeayeaudaocajbifqydiob4ibceqtcqkrmfyydenbwha5dypsapkh".

(** The directory answers, but with no endpoint. *)
Definition envEmptyDirectory : Env :=
  {| Resolve := Resolve envDown;
     FindAddresses := fun _ => inr ([], [1; 2; 3]);
     NewADNL := NewADNL envDown;
     Connect := Connect envDown;
     randRead := randRead envDown;
     Now := Now envDown;
     DoQuery := DoQuery envDown;
     DoQueryPart := DoQueryPart envDown;
     SendAnswer := SendAnswer envDown;
     maxAlloc := maxAlloc envDown |}.

(** The peer answers 200 with a [Content-Length] header of its own and a
    body of five bytes in one part. *)
Definition envUp : Env :=
  {| Resolve := fun _ _ => inr key0;
     FindAddresses := fun _ => inr ([UDP.mk "10.0.0.1" 3333], [1; 2; 3]);
     NewADNL := fun _ => None;
     Connect := fun _ _ => None;
     randRead := inr (seqZ 100 32);
     Now := 1000;
     DoQuery := fun _ _ =>
       inr (Response.mk 200 "OK" [Header.mk "Content-Length" "999"] false);
     DoQueryPart := fun _ _ => inr (PayloadPart.mk [1; 2; 3; 4; 5] [] true);
     SendAnswer := fun _ _ _ _ => None;
     maxAlloc := 2 ^ 48 |}.

(** A transport with a session for [site.ton] in its cache. *)
Definition connected : Transport :=
  {| rldpClients := {[ "site.ton"%string := peer ]}; activeRequests := ∅ |}.

Definition getLiteral : http.Request :=
  http.mkRequest (addr0 +:+ ".adnl") "GET" "http://site/" 0 [] None.

Definition getPadded : http.Request :=
  http.mkRequest (addrPadded +:+ ".adnl") "GET" "http://site/" 0 [] None.

(** A POST with a body of three bytes, no declared content length and no
    header. *)
Definition postBody : http.Request :=
  http.mkRequest "site.ton" "POST" "http://site.ton/up" (-1) [] (Some (inr [7; 8; 9])).

(** A POST with an empty body, as a server hands it on: the declared
    content length is 0 and the header map has [Content-Length: 0]. *)
Definition postEmpty : http.Request :=
  http.mkRequest "site.ton" "POST" "http://site.ton/up" 0
                 [("Content-Length"%string, ["0"%string])] (Some (inr [])).

(** A POST with a body and a [Content-Length] entry in the header map. *)
Definition postBodyWithHeader : http.Request :=
  http.mkRequest "site.ton" "POST" "http://site.ton/up" 5
                 [("Content-Length"%string, ["5"%string])] (Some (inr [7; 8; 9; 10; 11])).


(** ** tvm/cell/evaa_proof.go: keys as bit lists *)

(** The inner loop [for i := 7; i >= 0; i--] of [bytesToBits], with [n]
    rounds left: [(b >> i) & 1] is appended for i = n-1 down to 0. *)
Fixpoint appendBits (n : nat) (b : Z) (bits : list Z) : list Z :=
  match n with
  | O => bits
  | S i => appendBits i b (bits ++ [Z.land (Z.shiftr b (Z.of_nat i)) 1])
  end.

Definition bytesToBits (bs : list Z) : list Z :=
  fold_left (fun bits b => appendBits 8 b bits) bs [].

(** [strconv.Itoa]. *)
Definition Itoa (k : Z) : string := pretty k.

(** The string [fetchKeys] builds from a slice of a key. *)
Definition spell (ks : list Z) : string :=
  fold_left (fun str k => str +:+ Itoa k) ks EmptyString.

(** The loop of [fetchKeys]; [key[0 : len(pp)+1]] panics on a key that is
    too short (the keys are made by [bytesToBits], whose slices are full to
    their capacity). *)
Fixpoint fetchKeysLoop (pp bit : string) (keys fetchedKeys : list (list Z))
  : result (list (list Z)) :=
  match keys with
  | [] => Ok fetchedKeys
  | key :: rest =>
      prefix ← check SliceBoundsOutOfRange
                 (slice key 0 (Z.of_nat (String.length pp) + 1));
      fetchKeysLoop pp bit rest
        (if String.eqb (spell prefix) (pp +:+ bit) then fetchedKeys ++ [key] else fetchedKeys)
  end.

Definition fetchKeys (pp : string) (keys : list (list Z)) (bit : string)
  : result (list (list Z)) :=
  fetchKeysLoop pp bit keys [].

(** What a read from a cell slice comes to: a value, the panic of a
    [Must...] loader, or a loop whose fuel ran out. *)
Inductive loaded (A : Type) : Type :=
| Loaded (a : A)
| LoadPanic
| LoadDiverge.
Arguments Loaded {A} a.
Arguments LoadPanic {A}.
Arguments LoadDiverge {A}.

Section Unary.

(** The type [Slice] and its method [MustLoadBoolBit] are declared outside
    the file: the next bit and the slice after it, or [None] when the loader
    panics. *)
Variable Slice : Type.
Variable MustLoadBoolBit : Slice -> option (bool * Slice).

(** The loop of [readUnaryLength]; [res] is a uint64. *)
Fixpoint readUnaryLoop (fuel : nat) (slice : Slice) (res : Z) : loaded (Z * Slice) :=
  match fuel with
  | O => LoadDiverge
  | S fuel' =>
      match MustLoadBoolBit slice with
      | None => LoadPanic
      | Some (bit, slice') =>
          if negb bit then Loaded (res, slice')
          else readUnaryLoop fuel' slice' ((res + 1) mod 2 ^ 64)
      end
  end.

Definition readUnaryLength (fuel : nat) (slice : Slice) : loaded (Z * Slice) :=
  readUnaryLoop fuel slice 0.

End Unary.

(** A slice as the list of its unread bits. *)
Definition nextBit (bits : list bool) : option (bool * list bool) :=
  match bits with
  | [] => None
  | b :: rest => Some (b, rest)
  end.

(** The bits 0 and 1. *)
Definition isBit (k : Z) : bool := (k =? 0) || (k =? 1).

(** [key] is long enough for [fetchKeys] at the prefix [pp] and made of bits. *)
Definition isBitKey (pp : string) (key : list Z) : bool :=
  (Z.of_nat (String.length pp) <? len key) && forallb isBit key.

(** [key] starts with the bits spelled by [pp], followed by the bit [b]. *)
Definition extends (pp : string) (b : Z) (key : list Z) : bool :=
  String.eqb (spell (firstn (String.length pp) key)) pp
  && (nth (String.length pp) key (-1) =? b).

(** The eight bits appended for one byte, most significant first. *)
Definition byteBits (b : Z) : list Z := appendBits 8 b [].

(** A bit list read as a binary number, most significant bit first, and a
    byte list read as a number in base 256. *)
Definition binaryValue (bits : list Z) : Z := fold_left (fun v k => 2 * v + k) bits 0.
Definition bigEndianValue (bs : list Z) : Z := fold_left (fun v b => 256 * v + b) bs 0.

(** Byte values. *)
Definition isByte (b : Z) : bool := (0 <=? b) && (b <? 256).

(** ** adnl/rldp/http/client.go: predicates of the further statements *)

(** The characters of a literal address: base-32 letters of either case and
    the digits 2 to 7. *)
Definition isAddrChar (c : Z) : bool :=
  between 65 90 c || between 97 122 c || between 50 55 c.

(** [fmt.Sprintf("%s:%d", v.IP.String(), v.Port)]. *)
Definition addrString (v : UDP.t) : string := UDP.IP v +:+ ":" +:+ pretty (UDP.Port v).

(** The endpoints [connectRLDP] cannot reach for the key [pubKey]. *)
Definition unreachable (env : Env) (pubKey : list Z) (v : UDP.t) : Prop :=
  NewADNL env pubKey <> None \/ Connect env pubKey (addrString v) <> None.

(** The value of the last header named [name], if there is one. *)
Fixpoint lastValue (name : string) (hs : list Header.t) : option string :=
  match hs with
  | [] => None
  | h :: rest =>
      match lastValue name rest with
      | Some v => Some v
      | None => if String.eqb (Header.Name h) name then Some (Header.Value h) else None
      end
  end.

(** The pull request number [i] of [RoundTrip]. *)
Definition nextPart (qid : list Z) (i : nat) : GetNextPayloadPart.t :=
  GetNextPayloadPart.mk qid (Z.of_nat i) _ChunkSize.

(** A character the base-32 decoder takes as a digit. *)
Definition isDigit32 (c : Z) : bool :=
  negb (base32.decodeMap c =? 255) && negb (c =? base32.padChar)
  && negb ((c =? 13) || (c =? 10)).

(** The value of a hex digit (255 for any other character). *)
Definition fromHexChar (c : ascii) : Z :=
  base32.position (byte_of_ascii c) (bytes hextable) 0.

(** The endpoints of the connection attempts in a trace, in order. *)
Fixpoint connects (tr : list event) : list string :=
  match tr with
  | [] => []
  | EvConnect _ addr :: rest => addr :: connects rest
  | _ :: rest => connects rest
  end.

(** The events of name resolution. *)
Definition isResolve (ev : event) : Prop :=
  match ev with
  | EvResolve _ | EvSleep _ => True
  | _ => False
  end.

(** The events of a connection attempt. *)
Definition isAttempt (ev : event) : Prop :=
  match ev with
  | EvNewADNL _ | EvConnect _ _ => True
  | _ => False
  end.

(** ** Further inputs *)

Definition endpointA : UDP.t := UDP.mk "10.0.0.1" 3333.
Definition endpointB : UDP.t := UDP.mk "10.0.0.2" 3334.

(** The directory names two endpoints; none can be connected to. *)
Definition envUnreachable : Env :=
  {| Resolve := Resolve envDown;
     FindAddresses := fun _ => inr ([endpointA; endpointB], [1; 2; 3]);
     NewADNL := NewADNL envDown;
     Connect := fun _ addr => Some (ErrExternal addr);
     randRead := randRead envDown;
     Now := Now envDown;
     DoQuery := DoQuery envDown;
     DoQueryPart := DoQueryPart envDown;
     SendAnswer := SendAnswer envDown;
     maxAlloc := maxAlloc envDown |}.


(** A GET to a name that is resolved, and one to a short literal. *)
Definition getNamed : http.Request :=
  http.mkRequest "site.ton" "GET" "http://site.ton/" 0 [] None.
Definition getShortLiteral : http.Request :=
  http.mkRequest "abc.adnl" "GET" "http://abc.adnl/" 0 [] None.

(** ** The exchange, in the words of the response *)

(** The value lines 259-264 of [RoundTrip] give [httpResp.ContentLength]. *)
Definition declaredLength (request : http.Request) : error + Z :=
  match http.lookupHeader (http.Header request) "Content-Length" with
  | Some (ln0 :: _) =>
      match strconv.ParseInt ln0 with
      | inl e => inl (ErrParseContentLength e)
      | inr n => inr n
      end
  | _ => inr (-1)
  end.

(** The request message [RoundTrip] sends when [rand.Read] gives [src]. *)
Definition requestOf (request : http.Request) (src : list Z) : Request.t :=
  Request.mk (Read src (repeat 0 32)) (http.Method request) (http.URL request) "HTTP/1.1"
             (requestHeaders request).

(** The response [RoundTrip] builds from the answer [res], the content
    length [n], the body [buf] and the trailer. *)
Definition responseOf (request : http.Request) (res : Response.t) (n : Z) (buf : list Z)
    (trailer : gmap string (list string)) : http.Response :=
  {| http.Status := Response.Reason res;
     http.StatusCode := Response.StatusCode res;
     http.Proto := "HTTP/1.1";
     http.ProtoMajor := 1;
     http.ProtoMinor := 1;
     http.RespHeader := setHeaders (Response.Headers res) ∅;
     http.RespContentLength := n;
     http.Trailer := trailer;
     http.RespRequest := request;
     http.RespBody := buf |}.

(** The first [k] pull requests for the stream [qid] over the session [rl]. *)
Definition pulls (rl : RLDP) (qid : list Z) (k : nat) : list event :=
  map (fun i => EvQueryPart rl (nextPart qid i)) (seq 0 k).

(** The peer answers the [i]-th pull request for [qid] with the [i]-th part
    of [parts]. *)
Definition serves (env : Env) (rl : RLDP) (qid : list Z) (parts : list PayloadPart.t) : Prop :=
  forall i part, parts !! i = Some part -> DoQueryPart env rl (nextPart qid i) = inr part.

Definition isPull (ev : event) : bool :=
  match ev with
  | EvQueryPart _ _ => true
  | _ => false
  end.

(** [envUp] with a peer that answers the pull request with the sequence
    number [seqno] by [answer seqno]. *)
Definition envServing (answer : Z -> error + PayloadPart.t) : Env :=
  {| Resolve := Resolve envUp;
     FindAddresses := FindAddresses envUp;
     NewADNL := NewADNL envUp;
     Connect := Connect envUp;
     randRead := randRead envUp;
     Now := Now envUp;
     DoQuery := DoQuery envUp;
     DoQueryPart := fun _ q => answer (GetNextPayloadPart.Seqno q);
     SendAnswer := SendAnswer envUp;
     maxAlloc := maxAlloc envUp |}.

Definition partOne : PayloadPart.t := PayloadPart.mk [1; 2] [Header.mk "A" "1"] false.
Definition partTwo : PayloadPart.t := PayloadPart.mk [3] [Header.mk "A" "2"] true.

(** Two parts, then nothing. *)
Definition twoParts (seqno : Z) : error + PayloadPart.t :=
  if seqno =? 0 then inr partOne
  else if seqno =? 1 then inr partTwo
  else inl (ErrExternal "part").

(** One part, then an error. *)
Definition onePart (seqno : Z) : error + PayloadPart.t :=
  if seqno =? 0 then inr partOne else inl (ErrExternal "part").

(** Parts without end. *)
Definition endless (seqno : Z) : error + PayloadPart.t := inr partOne.

(** A GET whose header map declares a content length. *)
Definition getWithLength (ln : string) : http.Request :=
  http.mkRequest "site.ton" "GET" "http://site.ton/" 0
                 [("Content-Length"%string, [ln])] None.
(** * Properties *)

(** ** Bytes and strings *)

Lemma byte_of_ascii_range (c : ascii) : 0 <= byte_of_ascii c < 256.
Proof.
  unfold byte_of_ascii. pose proof (N_ascii_bounded c). lia.
Qed.

Lemma ascii_of_byte_of_ascii (c : ascii) : ascii_of_byte (byte_of_ascii c) = c.
Proof.
  unfold ascii_of_byte. pose proof (byte_of_ascii_range c) as Hr.
  rewrite Z.mod_small by lia. unfold byte_of_ascii.
  rewrite N2Z.id. apply ascii_N_embedding.
Qed.

Lemma byte_of_ascii_of_byte (b : Z) : 0 <= b < 256 -> byte_of_ascii (ascii_of_byte b) = b.
Proof.
  intros Hb. unfold byte_of_ascii, ascii_of_byte.
  rewrite Z.mod_small by lia. rewrite N_ascii_embedding by lia. lia.
Qed.

Lemma string_of_bytes_bytes (s : string) : string_of_bytes (bytes s) = s.
Proof.
  unfold string_of_bytes, bytes. rewrite map_map.
  rewrite (map_ext _ (fun c => c)) by apply ascii_of_byte_of_ascii.
  rewrite map_id. apply string_of_list_ascii_of_string.
Qed.

Lemma bytes_string_of_bytes (l : list Z) :
  Forall (fun b => 0 <= b < 256) l -> bytes (string_of_bytes l) = l.
Proof.
  intros Hl. unfold string_of_bytes, bytes.
  rewrite list_ascii_of_string_of_list_ascii, map_map.
  induction Hl as [|b l Hb _ IH]; simpl; [reflexivity|].
  now rewrite byte_of_ascii_of_byte, IH.
Qed.

Lemma bytes_range (s : string) : Forall (fun b => 0 <= b < 256) (bytes s).
Proof.
  unfold bytes. apply List.Forall_forall. intros b Hb.
  apply in_map_iff in Hb as (c & <- & _). apply byte_of_ascii_range.
Qed.

Lemma length_bytes (s : string) : length (bytes s) = String.length s.
Proof.
  unfold bytes. rewrite length_map.
  induction s as [|c s IH]; simpl; congruence.
Qed.

(** ** strings.ToUpper on ASCII strings *)

Lemma upperByte_idem (c : Z) : upperByte (upperByte c) = upperByte c.
Proof.
  unfold upperByte, between.
  destruct ((97 <=? c) && (c <=? 122)) eqn:E; [|now rewrite E].
  apply andb_true_iff in E as [E1 E2].
  apply Z.leb_le in E1, E2.
  destruct (97 <=? c - (97 - 65)) eqn:E3; [apply Z.leb_le in E3; lia|reflexivity].
Qed.

Lemma upperByte_small (c : Z) : 0 <= c < 128 -> 0 <= upperByte c < 128.
Proof.
  unfold upperByte, between. intros Hc.
  destruct ((97 <=? c) && (c <=? 122)) eqn:E; [|lia].
  apply andb_true_iff in E as [E1 E2]. apply Z.leb_le in E1, E2. lia.
Qed.

Lemma map_upperByte_no_lower (l : list Z) :
  existsb (between 97 122) l = false -> map upperByte l = l.
Proof.
  induction l as [|c l IH]; simpl; [reflexivity|].
  intros H. apply orb_false_iff in H as [Hc Hl].
  unfold upperByte at 1. rewrite Hc. now rewrite IH.
Qed.

Lemma ToUpper_ascii (U : Z -> Z) (s : string) :
  isASCII s = true -> ToUpper U s = string_of_bytes (map upperByte (bytes s)).
Proof.
  unfold isASCII, ToUpper. intros ->.
  destruct (existsb (between 97 122) (bytes s)) eqn:E; simpl; [reflexivity|].
  rewrite map_upperByte_no_lower by exact E.
  symmetry. apply string_of_bytes_bytes.
Qed.

Lemma isASCII_bytes (s : string) :
  isASCII s = true -> Forall (fun b => 0 <= b < 128) (bytes s).
Proof.
  unfold isASCII. intros H. apply List.Forall_forall. intros b Hb.
  pose proof (proj1 (List.forallb_forall _ _) H b Hb) as Hlt. simpl in Hlt.
  apply Z.ltb_lt in Hlt. unfold RuneSelf in Hlt.
  pose proof (proj1 (List.Forall_forall _ _) (bytes_range s) b Hb). simpl in *. lia.
Qed.

Lemma bytes_ToUpper_ascii (U : Z -> Z) (s : string) :
  isASCII s = true -> bytes (ToUpper U s) = map upperByte (bytes s).
Proof.
  intros H. rewrite ToUpper_ascii by exact H.
  apply bytes_string_of_bytes.
  apply isASCII_bytes in H. induction H as [|b l Hb _ IH]; simpl; constructor; auto.
  pose proof (upperByte_small b Hb). lia.
Qed.

Lemma isASCII_ToUpper (U : Z -> Z) (s : string) :
  isASCII s = true -> isASCII (ToUpper U s) = true.
Proof.
  intros H. unfold isASCII at 1. rewrite bytes_ToUpper_ascii by exact H.
  apply isASCII_bytes in H. apply List.forallb_forall. intros b Hb.
  apply in_map_iff in Hb as (c & <- & Hc).
  pose proof (proj1 (List.Forall_forall _ _) H c Hc) as Hr. simpl in Hr.
  apply Z.ltb_lt. unfold RuneSelf. pose proof (upperByte_small c Hr). lia.
Qed.

Lemma ToUpper_idem (U : Z -> Z) (s : string) :
  isASCII s = true -> ToUpper U (ToUpper U s) = ToUpper U s.
Proof.
  intros H.
  rewrite (ToUpper_ascii U (ToUpper U s)) by (apply isASCII_ToUpper; exact H).
  rewrite bytes_ToUpper_ascii by exact H.
  rewrite map_map, (map_ext _ upperByte) by apply upperByte_idem.
  symmetry. apply ToUpper_ascii. exact H.
Qed.

Lemma length_ToUpper (U : Z -> Z) (s : string) :
  isASCII s = true -> String.length (ToUpper U s) = String.length s.
Proof.
  intros H. rewrite <- !length_bytes, bytes_ToUpper_ascii by exact H.
  apply length_map.
Qed.

(** ** Slices *)

Lemma slice_Some {A : Type} (l : list A) (lo hi : Z) (x : list A) :
  slice l lo hi = Some x ->
  (0 <= lo /\ lo <= hi /\ hi <= len l)
  /\ x = firstn (Z.to_nat (hi - lo)) (skipn (Z.to_nat lo) l).
Proof.
  unfold slice.
  destruct ((0 <=? lo) && (lo <=? hi) && (hi <=? len l)) eqn:E; [|discriminate].
  intros [= <-]. apply andb_true_iff in E as [E E3]. apply andb_true_iff in E as [E1 E2].
  apply Z.leb_le in E1, E2, E3. auto.
Qed.

Lemma slice_in_range {A : Type} (l : list A) (lo hi : Z) :
  0 <= lo -> lo <= hi -> hi <= len l ->
  slice l lo hi = Some (firstn (Z.to_nat (hi - lo)) (skipn (Z.to_nat lo) l)).
Proof.
  intros H1 H2 H3. unfold slice.
  replace (0 <=? lo) with true by (symmetry; apply Z.leb_le; lia).
  replace (lo <=? hi) with true by (symmetry; apply Z.leb_le; lia).
  replace (hi <=? len l) with true by (symmetry; apply Z.leb_le; lia).
  reflexivity.
Qed.

Lemma slice_negative {A : Type} (l : list A) (lo hi : Z) : lo < 0 -> slice l lo hi = None.
Proof.
  intros H. unfold slice.
  replace (0 <=? lo) with false by (symmetry; apply Z.leb_gt; lia). reflexivity.
Qed.

(** ** The literal address codec *)

(** Whatever [parseADNLAddress] returns without error is the first 32 bytes
    of a 35-byte decoded buffer: the tag byte 0x2d and the first 31 bytes of
    the key. *)
Lemma parseADNLAddress_Ok (U : Z -> Z) (addr : string) (key : list Z) :
  parseADNLAddress U addr = Ok key ->
  exists buf, base32.DecodeString (String "F" (ToUpper U addr)) = inr buf
              /\ index buf 0 = Some 0x2d /\ 35 <= len buf /\ key = firstn 32 buf.
Proof.
  unfold parseADNLAddress.
  destruct (negb (String.length addr =? 55)%nat); [discriminate|].
  destruct (base32.DecodeString _) as [off|buf]; [discriminate|].
  destruct (index buf 0) as [b0|] eqn:E0; simpl; [|discriminate].
  destruct (negb (b0 =? 45)) eqn:Eb; [discriminate|].
  apply negb_false_iff, Z.eqb_eq in Eb. subst b0.
  destruct (slice buf 33 (len buf)) as [tail|] eqn:Et; simpl; [|discriminate].
  destruct (BigEndian_Uint16 tail) as [hash|] eqn:EH; simpl; [|discriminate].
  destruct (slice buf 0 33) as [body|] eqn:Ebody; simpl; [|discriminate].
  destruct (negb _); [discriminate|].
  destruct (slice buf 0 32) as [k|] eqn:Ek; simpl; [|discriminate].
  intros [= <-]. exists buf.
  apply slice_Some in Et as [Hr ->]. apply slice_Some in Ek as [_ ->].
  repeat split; auto.
  destruct (firstn _ _) as [|x [|y l]] eqn:EF; try discriminate.
  assert (length (firstn (Z.to_nat (len buf - 33)) (skipn (Z.to_nat 33) buf)) >= 2)%nat
    as Hl by (rewrite EF; simpl; lia).
  rewrite length_firstn, length_skipn in Hl. unfold len in *. lia.
Qed.

(** C1. On the literal address of the key 01 02 .. 20 the decoded buffer is
    the tag byte, the key and the checksum, and [parseADNLAddress] returns the
    tag byte followed by the first 31 bytes of the key: not the 32 bytes that
    follow the tag byte. *)
Theorem parseADNLAddress_returns_tag_byte (U : Z -> Z) :
  base32.DecodeString (String "F" addr0) = inr (0x2d :: key0 ++ [0x3d; 0x47])
  /\ parseADNLAddress U addr0 = Ok (0x2d :: firstn 31 key0)
  /\ parseADNLAddress U addr0 <> Ok key0.
Proof.
  assert (parseADNLAddress U addr0 = Ok (0x2d :: firstn 31 key0)) as H
    by (vm_compute; reflexivity).
  split; [vm_compute; reflexivity|]. split; [exact H|].
  rewrite H. intros E. vm_compute in E. discriminate E.
Qed.

(** C9, as amended. On a string of ASCII bytes, decoding the upper-case form
    gives the same result (value, error or panic) as decoding the string. *)
Theorem parseADNLAddress_ToUpper_ascii (U : Z -> Z) (s : string) :
  isASCII s = true ->
  parseADNLAddress U (ToUpper U s) = parseADNLAddress U s.
Proof.
  intros H. unfold parseADNLAddress.
  rewrite length_ToUpper by exact H.
  rewrite ToUpper_idem by exact H. reflexivity.
Qed.

Lemma parseADNLAddress_ToUpper_ascii_witness :
  isASCII addrLower = true
  /\ parseADNLAddress caseRangesRows (ToUpper caseRangesRows addrLower)
     = parseADNLAddress caseRangesRows addrLower.
Proof.
  split; [reflexivity|].
  apply (parseADNLAddress_ToUpper_ascii caseRangesRows addrLower). reflexivity.
Defined.

(** C9, refuted as stated. A 55-byte string with eight dotless i makes the
    codec panic, while its upper-case form (47 bytes) is rejected for its
    length; a string of 55 characters of which one is a dotless i is rejected
    for its length (56 bytes), while its upper-case form is [addr0] and
    decodes. *)
Lemma parseADNLAddress_ToUpper_differs :
  (String.length addrDotless55Bytes = 55%nat
   /\ parseADNLAddress caseRangesRows addrDotless55Bytes = Panic SliceBoundsOutOfRange
   /\ parseADNLAddress caseRangesRows (ToUpper caseRangesRows addrDotless55Bytes)
      = Err ErrWrongIdLength)
  /\ (length (runes 56 (bytes addrDotless55Runes)) = 55%nat
      /\ ToUpper caseRangesRows addrDotless55Runes = addr0
      /\ parseADNLAddress caseRangesRows addrDotless55Runes = Err ErrWrongIdLength
      /\ parseADNLAddress caseRangesRows (ToUpper caseRangesRows addrDotless55Runes)
         = Ok (0x2d :: firstn 31 key0)).
Proof.
  repeat split; vm_compute; reflexivity.
Qed.

(** ** Integer wrap-around *)

Lemma wrap32_small (x : Z) : - 2 ^ 31 <= x < 2 ^ 31 -> wrap32 x = x.
Proof. intros H. unfold wrap32. rewrite Z.mod_small; lia. Qed.

Lemma wrap64_small (x : Z) : - 2 ^ 63 <= x < 2 ^ 63 -> wrap64 x = x.
Proof. intros H. unfold wrap64. rewrite Z.mod_small; lia. Qed.

Lemma len_nonneg {A : Type} (l : list A) : 0 <= len l.
Proof. unfold len. lia. Qed.

(** ** The serving side of the pull protocol *)

Ltac run :=
  unfold setClients, setRequests;
  unfold mbind, M_bind, result_bind, mret, M_ret, result_ret, get, put, emit, fail, lift;
  cbn.

Section Handler.

Variable env : Env.
Variables (t : Transport) (r : RLDP) (qid id : list Z) (maxAnswer : Z).
Variable stream : payloadStream.t.
Hypothesis registered : activeRequests t !! EncodeToString id = Some stream.

Let data := payloadStream.Data stream.
Let query (seqno c : Z) : Query.t :=
  Query.mk qid maxAnswer (Query.GetNextPayloadPart (GetNextPayloadPart.mk id seqno c)).

(** A product that wraps to a negative int32 is a negative slice bound. *)
Lemma getRLDPQueryHandler_negative_offset (seqno c : Z) :
  wrap32 (seqno * c) < 0 ->
  getRLDPQueryHandler env r (query seqno c) t = (t, [], Panic SliceBoundsOutOfRange).
Proof.
  intros Hneg. unfold getRLDPQueryHandler, query. run. rewrite registered. fold data.
  pose proof (len_nonneg data) as Hl.
  replace (len data <=? wrap32 (seqno * c)) with false
    by (symmetry; apply Z.leb_gt; lia).
  rewrite slice_negative by lia. reflexivity.
Qed.

(** The handler on a request whose product does not wrap. *)
Lemma getRLDPQueryHandler_no_wrap (seqno c : Z) :
  0 <= seqno -> 0 <= c < 2 ^ 31 -> seqno * c < 2 ^ 31 ->
  let offset := seqno * c in
  let till := Z.min (offset + c) (len data) in
  (len data <= offset ->
   getRLDPQueryHandler env r (query seqno c) t = (t, [], Err (ErrTooBigOffset offset)))
  /\ (offset < len data ->
      exists chunk,
        slice data offset till = Some chunk
        /\ let part := PayloadPart.mk chunk [] (till =? len data) in
           getRLDPQueryHandler env r (query seqno c) t
           = (t, [EvSendAnswer r maxAnswer qid part],
              match SendAnswer env r maxAnswer qid part with
              | Some e => Err (ErrFailedToSendAnswer e)
              | None => Ok tt
              end)).
Proof.
  intros Hs Hc Hp offset till.
  assert (0 <= offset) as Ho by (unfold offset; nia).
  assert (wrap32 (seqno * c) = offset) as Hw by (apply wrap32_small; unfold offset in *; lia).
  assert (wrap64 (offset + c) = offset + c) as Hw64 by (apply wrap64_small; unfold offset in *; lia).
  split; intros Hcmp.
  - unfold getRLDPQueryHandler, query. run. rewrite registered. fold data.
    rewrite Hw. replace (len data <=? offset) with true by (symmetry; apply Z.leb_le; lia).
    reflexivity.
  - exists (firstn (Z.to_nat (till - offset)) (skipn (Z.to_nat offset) data)).
    assert (slice data offset till
            = Some (firstn (Z.to_nat (till - offset)) (skipn (Z.to_nat offset) data))) as Hsl
      by (apply slice_in_range; unfold till; lia).
    split; [exact Hsl|].
    unfold getRLDPQueryHandler, query. run. rewrite registered. fold data.
    rewrite Hw, Hw64.
    replace (len data <=? offset) with false by (symmetry; apply Z.leb_gt; lia).
    assert ((if offset + c <? len data then offset + c else len data) = till) as ->.
    { unfold till. destruct (offset + c <? len data) eqn:E;
        [apply Z.ltb_lt in E|apply Z.ltb_ge in E]; lia. }
    rewrite Hsl. cbn.
    destruct (SendAnswer env r maxAnswer qid _); reflexivity.
Qed.

End Handler.

(** X29. For a registered stream and a pull request whose sequence number
    and chunk size are non-negative int32 values with a product below 2^31,
    the handler fails with the offset error exactly when seqno * c >= L;
    otherwise it leaves the transport as it is and answers with
    payload[seqno*c : min(seqno*c + c, L)], is-last being
    min(seqno*c + c, L) = L. *)
Theorem getRLDPQueryHandler_chunk (env : Env) (t : Transport) (r : RLDP)
    (qid id : list Z) (maxAnswer : Z) (stream : payloadStream.t) (seqno c : Z) :
  activeRequests t !! EncodeToString id = Some stream ->
  0 <= seqno -> 0 <= c < 2 ^ 31 -> seqno * c < 2 ^ 31 ->
  let data := payloadStream.Data stream in
  let offset := seqno * c in
  let till := Z.min (offset + c) (len data) in
  let out :=
    getRLDPQueryHandler env r
      (Query.mk qid maxAnswer
         (Query.GetNextPayloadPart (GetNextPayloadPart.mk id seqno c))) t in
  (out = (t, [], Err (ErrTooBigOffset offset)) <-> len data <= offset)
  /\ (offset < len data ->
      exists chunk,
        slice data offset till = Some chunk
        /\ let part := PayloadPart.mk chunk [] (till =? len data) in
           out = (t, [EvSendAnswer r maxAnswer qid part],
                  match SendAnswer env r maxAnswer qid part with
                  | Some e => Err (ErrFailedToSendAnswer e)
                  | None => Ok tt
                  end)).
Proof.
  intros Hreg Hs Hc Hp data offset till out.
  destruct (getRLDPQueryHandler_no_wrap env t r qid id maxAnswer stream Hreg seqno c Hs Hc Hp)
    as [Hfail Hanswer].
  split.
  - split; [|exact Hfail].
    intros Hout. destruct (Z_le_gt_dec (len data) offset) as [Hle|Hgt]; [exact Hle|].
    destruct Hanswer as (chunk & _ & Heq); [unfold data, offset in *; lia|].
    unfold out in Hout. cbv zeta in Heq. rewrite Heq in Hout. discriminate Hout.
  - exact Hanswer.
Qed.

Lemma getRLDPQueryHandler_chunk_witness :
  exists chunk,
    slice [10; 11; 12; 13; 14] 4 5 = Some chunk
    /\ getRLDPQueryHandler envDown peer (pullRequest [1] 2 2) (staging [1] [10; 11; 12; 13; 14])
       = (staging [1] [10; 11; 12; 13; 14],
          [EvSendAnswer peer _RLDPMaxAnswerSize [9] (PayloadPart.mk chunk [] true)],
          Ok tt).
Proof.
  refine (proj2 (getRLDPQueryHandler_chunk envDown (staging [1] [10; 11; 12; 13; 14]) peer
                   [9] [1] _RLDPMaxAnswerSize (payloadStream.mk [10; 11; 12; 13; 14] 0) 2 2
                   _ _ _ _) _).
  - reflexivity.
  - lia.
  - lia.
  - lia.
  - simpl. unfold len. simpl. lia.
Defined.

(** C4. The offset is the product taken in int32, so it can differ from
    seqno * c. For a request whose product seqno * c is not below the length
    L of the payload, where the handler is to fail with the offset error:
    when the int32 product is negative the handler panics on the slice
    bound, and when it lies in [0, L) the handler answers with the payload
    from that offset on instead of failing. *)
Theorem getRLDPQueryHandler_offset_wraps (env : Env) (t : Transport) (r : RLDP)
    (qid id : list Z) (maxAnswer : Z) (stream : payloadStream.t) (seqno c : Z) :
  activeRequests t !! EncodeToString id = Some stream ->
  len (payloadStream.Data stream) <= seqno * c ->
  0 <= c < 2 ^ 31 ->
  let data := payloadStream.Data stream in
  let offset := wrap32 (seqno * c) in
  let till := Z.min (offset + c) (len data) in
  let out :=
    getRLDPQueryHandler env r
      (Query.mk qid maxAnswer
         (Query.GetNextPayloadPart (GetNextPayloadPart.mk id seqno c))) t in
  (offset < 0 -> out = (t, [], Panic SliceBoundsOutOfRange))
  /\ (0 <= offset < len data ->
      exists chunk,
        slice data offset till = Some chunk
        /\ let part := PayloadPart.mk chunk [] (till =? len data) in
           out = (t, [EvSendAnswer r maxAnswer qid part],
                  match SendAnswer env r maxAnswer qid part with
                  | Some e => Err (ErrFailedToSendAnswer e)
                  | None => Ok tt
                  end)).
Proof.
  intros Hreg Hclaim Hc data offset till out. split.
  - intros Hneg.
    apply (getRLDPQueryHandler_negative_offset env t r qid id maxAnswer stream Hreg).
    exact Hneg.
  - intros Hin.
    assert (offset < 2 ^ 31) as Hhi
      by (unfold offset, wrap32; pose proof (Z.mod_pos_bound (seqno * c + 2 ^ 31) (2 ^ 32));
          lia).
    assert (wrap64 (offset + c) = offset + c) as Hw64 by (apply wrap64_small; lia).
    exists (firstn (Z.to_nat (till - offset)) (skipn (Z.to_nat offset) data)).
    assert (slice data offset till
            = Some (firstn (Z.to_nat (till - offset)) (skipn (Z.to_nat offset) data))) as Hsl
      by (apply slice_in_range; unfold till; lia).
    split; [exact Hsl|].
    unfold out, getRLDPQueryHandler. run. rewrite Hreg. fold data. fold offset.
    rewrite Hw64.
    replace (len data <=? offset) with false by (symmetry; apply Z.leb_gt; lia).
    assert ((if offset + c <? len data then offset + c else len data) = till) as ->.
    { unfold till. destruct (offset + c <? len data) eqn:E;
        [apply Z.ltb_lt in E|apply Z.ltb_ge in E]; lia. }
    rewrite Hsl. cbn.
    destruct (SendAnswer env r maxAnswer qid _); reflexivity.
Qed.

Lemma getRLDPQueryHandler_offset_wraps_witness :
  len [7] <= 65536 * 65536
  /\ getRLDPQueryHandler envDown peer (pullRequest [1] 65536 65536) (staging [1] [7])
     = (staging [1] [7],
        [EvSendAnswer peer _RLDPMaxAnswerSize [9] (PayloadPart.mk [7] [] true)],
        Ok tt)
  /\ len [7] <= 16384 * 131072
  /\ getRLDPQueryHandler envDown peer (pullRequest [1] 16384 131072) (staging [1] [7])
     = (staging [1] [7], [], Panic SliceBoundsOutOfRange).
Proof.
  assert (len [7] <= 65536 * 65536) as H1 by (vm_compute; discriminate).
  assert (len [7] <= 16384 * 131072) as H2 by (vm_compute; discriminate).
  split; [exact H1|]. split; [|split; [exact H2|]].
  - destruct (proj2 (getRLDPQueryHandler_offset_wraps envDown (staging [1] [7]) peer
                       [9] [1] _RLDPMaxAnswerSize (payloadStream.mk [7] 0) 65536 65536
                       eq_refl H1 ltac:(lia)))
      as (chunk & Hsl & Hout).
    + vm_compute. split; [discriminate|reflexivity].
    + vm_compute in Hsl. injection Hsl as <-. exact Hout.
  - apply (proj1 (getRLDPQueryHandler_offset_wraps envDown (staging [1] [7]) peer
                    [9] [1] _RLDPMaxAnswerSize (payloadStream.mk [7] 0) 16384 131072
                    eq_refl H2 ltac:(lia))).
    reflexivity.
Defined.

(** ** Pulling a staged body chunk by chunk *)

Lemma concat_chunks {A : Type} (l : list A) (c n : nat) :
  concat (map (fun i => firstn c (skipn (i * c) l)) (seq 0 n)) = firstn (n * c) l.
Proof.
  induction n as [|n IH]; [reflexivity|].
  rewrite seq_S, map_app, concat_app, IH. simpl.
  rewrite app_nil_r, take_take_drop. f_equal. lia.
Qed.

Lemma seqZ_map_seq (n : Z) : seqZ 0 n = map Z.of_nat (seq 0 (Z.to_nat n)).
Proof.
  unfold seqZ. apply (map_ext (fun i => Z.of_nat i + 0) Z.of_nat). intros i. lia.
Qed.

Lemma ceil_bounds (L c : Z) :
  0 < L -> 0 < c ->
  let n := (L + c - 1) / c in
  1 <= n /\ (n - 1) * c < L /\ L <= n * c.
Proof.
  intros HL Hc n.
  pose proof (Z.mul_div_le (L + c - 1) c Hc) as H1.
  pose proof (Z.mul_succ_div_gt (L + c - 1) c Hc) as H2.
  fold n in H1, H2. nia.
Qed.

(** X30. For a non-empty staged payload and a positive int32 chunk size c
    such that the offset of the last request, (ceil(L/c) - 1) * c, is below
    2^31, the pull requests 0 .. ceil(L/c)-1 are all answered, request i
    with payload[i*c : i*c + c] (cut at L) and is-last exactly for
    i = ceil(L/c)-1, and the chunks concatenated are the payload. *)
Theorem pulled_reassembles (env : Env) (t : Transport) (r : RLDP) (id : list Z)
    (stream : payloadStream.t) (c : Z) :
  activeRequests t !! EncodeToString id = Some stream ->
  payloadStream.Data stream <> [] ->
  0 < c < 2 ^ 31 ->
  ((len (payloadStream.Data stream) + c - 1) / c - 1) * c < 2 ^ 31 ->
  let data := payloadStream.Data stream in
  let n := (len data + c - 1) / c in
  let parts :=
    map (fun i => PayloadPart.mk (firstn (Z.to_nat c) (skipn (Z.to_nat (i * c)) data)) []
                                 (i =? n - 1))
        (seqZ 0 n) in
  pulled env r t id c (seqZ 0 n) = map Some parts
  /\ concat (map PayloadPart.Data parts) = data.
Proof.
  intros Hreg Hne Hc HL data n parts.
  subst data. set (data := payloadStream.Data stream) in *.
  assert (0 < len data) as Hpos.
  { unfold len. destruct data; [congruence|simpl; lia]. }
  destruct (ceil_bounds (len data) c Hpos ltac:(lia)) as (Hn1 & Hlo & Hhi).
  fold n in Hn1, Hlo, Hhi, HL.
  clearbody n.
  split.
  - unfold pulled, parts. rewrite map_map. apply map_ext_in.
    intros i Hi. apply list_elem_of_In, elem_of_seqZ in Hi.
    assert (i * c < len data) as Hoff by nia.
    destruct (getRLDPQueryHandler_no_wrap env t r [9] id _RLDPMaxAnswerSize stream Hreg i c)
      as [_ Hanswer]; [lia|lia|nia|].
    destruct Hanswer as (chunk & Hsl & Heq); [exact Hoff|].
    unfold pullRequest. cbv zeta in Heq. rewrite Heq. cbn. f_equal.
    fold data in Hsl.
    apply slice_Some in Hsl as [_ ->].
    fold data. f_equal.
    + destruct (Z.min_spec (i * c + c) (len data)) as [[Hlt ->]|[Hge ->]].
      * f_equal. lia.
      * rewrite !firstn_all2; [reflexivity| |]; rewrite length_skipn; unfold len in *; lia.
    + destruct (Z.eqb_spec i (n - 1)) as [->|Hne'].
      * apply Z.eqb_eq. lia.
      * apply Z.eqb_neq. nia.
  - unfold parts. rewrite map_map. cbn.
    rewrite seqZ_map_seq, map_map.
    transitivity (firstn (Z.to_nat n * Z.to_nat c) data);
      [|apply firstn_all2; unfold len in *; nia].
    rewrite <- concat_chunks. f_equal. apply map_ext. intros k. cbn.
    f_equal. f_equal. nia.
Qed.

Lemma pulled_reassembles_witness :
  pulled envDown peer (staging [1] [10; 11; 12; 13; 14]) [1] 2 (seqZ 0 3)
  = map Some [PayloadPart.mk [10; 11] [] false; PayloadPart.mk [12; 13] [] false;
              PayloadPart.mk [14] [] true]
  /\ concat (map PayloadPart.Data
               [PayloadPart.mk [10; 11] [] false; PayloadPart.mk [12; 13] [] false;
                PayloadPart.mk [14] [] true])
     = [10; 11; 12; 13; 14].
Proof.
  apply (pulled_reassembles envDown (staging [1] [10; 11; 12; 13; 14]) peer [1]
           (payloadStream.mk [10; 11; 12; 13; 14] 0) 2).
  - reflexivity.
  - discriminate.
  - lia.
  - vm_compute. reflexivity.
Defined.

Lemma len_bigPayload : len bigPayload = 2 ^ 31 + 1.
Proof.
  unfold len, bigPayload. rewrite repeat_length. apply Z2Nat.id. lia.
Qed.

(** C5. The requests 0 .. ceil(L/c)-1 do not all get an answer: whenever
    request k of this sequence has a product k * c whose int32 value is
    negative, the handler panics on it with the slice bound, so its place in
    the sequence of pulled parts is empty and the payload is not
    reconstructed. A payload of 2^31 + 1 bytes pulled in chunks of 2^30 is
    such a case, at k = 2. *)
Theorem pulled_offset_wraps (env : Env) (t : Transport) (r : RLDP) (id : list Z)
    (stream : payloadStream.t) (c k : Z) :
  activeRequests t !! EncodeToString id = Some stream ->
  payloadStream.Data stream <> [] ->
  0 < c < 2 ^ 31 ->
  0 <= k < (len (payloadStream.Data stream) + c - 1) / c ->
  wrap32 (k * c) < 0 ->
  let data := payloadStream.Data stream in
  let n := (len data + c - 1) / c in
  k * c < len data
  /\ getRLDPQueryHandler env r (pullRequest id k c) t = (t, [], Panic SliceBoundsOutOfRange)
  /\ pulled env r t id c (seqZ 0 n) !! Z.to_nat k = Some None.
Proof.
  intros Hreg Hne Hc Hk Hneg data n. fold data n in Hk.
  assert (0 < len data) as Hpos.
  { unfold len. subst data. destruct (payloadStream.Data stream); [congruence|simpl; lia]. }
  destruct (ceil_bounds (len data) c Hpos ltac:(lia)) as (Hn1 & Hlo & Hhi).
  fold n in Hn1, Hlo, Hhi.
  assert (getRLDPQueryHandler env r (pullRequest id k c) t
          = (t, [], Panic SliceBoundsOutOfRange)) as Hpanic
    by (apply (getRLDPQueryHandler_negative_offset env t r [9] id _RLDPMaxAnswerSize stream
                 Hreg k c Hneg)).
  split; [nia|]. split; [exact Hpanic|].
  unfold pulled. rewrite list_lookup_fmap.
  rewrite (lookup_seqZ_lt 0 n (Z.to_nat k)) by lia.
  replace (0 + Z.of_nat (Z.to_nat k)) with k by lia.
  change (Some (answered (getRLDPQueryHandler env r (pullRequest id k c) t)) = Some None).
  rewrite Hpanic. reflexivity.
Qed.

Lemma pulled_offset_wraps_witness :
  2 * 2 ^ 30 < len bigPayload
  /\ getRLDPQueryHandler envDown peer (pullRequest [1] 2 (2 ^ 30)) (staging [1] bigPayload)
     = (staging [1] bigPayload, [], Panic SliceBoundsOutOfRange)
  /\ pulled envDown peer (staging [1] bigPayload) [1] (2 ^ 30)
            (seqZ 0 ((len bigPayload + 2 ^ 30 - 1) / 2 ^ 30)) !! Z.to_nat 2
     = Some None.
Proof.
  refine (pulled_offset_wraps envDown (staging [1] bigPayload) peer [1]
            (payloadStream.mk bigPayload 0) (2 ^ 30) 2 _ _ _ _ _).
  - unfold staging. cbn [activeRequests]. apply lookup_singleton_eq.
  - cbn [payloadStream.Data]. intros E. pose proof len_bigPayload as H. rewrite E in H.
    discriminate H.
  - lia.
  - cbn [payloadStream.Data]. rewrite len_bigPayload. vm_compute.
    split; [discriminate|reflexivity].
  - reflexivity.
Defined.

(** ** Session set-up *)

Tactic Notation "run" "in" hyp(H) :=
  unfold setClients, setRequests in H;
  unfold mbind, M_bind, result_bind, mret, M_ret, result_ret, get, put, emit, fail, lift in H;
  cbn in H.

Ltac invert_run H := injection H as <- <- <-.

Section Setup.

Variable U : Z -> Z.
Variable env : Env.

Lemma connectRLDP_inv (key : list Z) (addr id : string) (t t' : Transport)
    (tr : list event) (r : result (error + RLDP)) :
  connectRLDP env key addr id t = (t', tr, r) ->
  activeRequests t' = activeRequests t /\ Forall isSetup tr /\ exists x, r = Ok x.
Proof.
  unfold connectRLDP. run. intros H.
  destruct (NewADNL env key); [invert_run H; repeat constructor; eauto|].
  cbn in H. destruct (Connect env key addr); invert_run H; repeat constructor; eauto.
Qed.

Lemma resolveLoop_inv (n i : nat) (host : string) (err : option error) (t t' : Transport)
    (tr : list event) (r : result (list Z)) :
  resolveLoop env n i host err t = (t', tr, r) -> t' = t /\ Forall isSetup tr.
Proof.
  revert i err t' tr r. induction n as [|n IH]; intros i err t' tr r; cbn.
  - destruct err; run; intros H; invert_run H; auto.
  - run. destruct (Resolve env i host) as [e|site]; cbn.
    + destruct (resolveLoop env n (S i) host (Some e) t) as [[t1 tr1] r1] eqn:E.
      apply IH in E as [-> Htr].
      destruct r1; intros H; invert_run H; split; auto; repeat constructor; auto.
    + intros H. invert_run H. repeat constructor.
Qed.

Lemma connectLoop_inv (addresses : list UDP.t) (pubKey : list Z) (host : string)
    (rl : option RLDP) (err : option error) (tried : list string) (t t' : Transport)
    (tr : list event) (r : result (option RLDP * option error * list string)) :
  connectLoop env addresses pubKey host rl err tried t = (t', tr, r) ->
  activeRequests t' = activeRequests t /\ Forall isSetup tr.
Proof.
  revert rl err tried t t' tr r.
  induction addresses as [|v rest IH]; intros rl err tried t t' tr r; cbn.
  - run. intros H. invert_run H. auto.
  - unfold mbind at 1, M_bind at 1.
    destruct (connectRLDP env pubKey _ host t) as [[t1 tr1] r1] eqn:E.
    apply connectRLDP_inv in E as (Ha & Htr & x & ->).
    destruct x as [e|r0].
    + destruct (connectLoop env rest pubKey host None (Some e) (tried ++ [_]) t1)
        as [[t2 tr2] r2] eqn:E2.
      apply IH in E2 as [Ha2 Htr2].
      intros H. invert_run H. split; [congruence|]. apply Forall_app. auto.
    + run. intros H. invert_run H. split; [congruence|]. rewrite app_nil_r. auto.
Qed.

Lemma acquire_hit (request : http.Request) (t : Transport) (rl : RLDP) :
  rldpClients t !! http.Host request = Some rl ->
  acquire U env request t = (t, [], Ok (Some rl)).
Proof.
  intros H. unfold acquire. run. rewrite H. reflexivity.
Qed.

Lemma acquire_inv (request : http.Request) (t t' : Transport) (tr : list event)
    (r : result (option RLDP)) :
  acquire U env request t = (t', tr, r) ->
  activeRequests t' = activeRequests t /\ Forall isSetup tr.
Proof.
  unfold acquire. unfold mbind at 1, M_bind at 1, get at 1.
  destruct (rldpClients t !! http.Host request) as [rl|].
  - run. intros H. invert_run H. auto.
  - cbn. unfold mbind at 1, M_bind at 1.
    match goal with |- context [(if ?c then ?a else ?b) t] =>
      destruct ((if c then a else b) t) as [[t1 tr1] r1] eqn:E end.
    assert (t1 = t /\ Forall isSetup tr1) as [-> Htr1].
    { destruct (HasSuffix _ _).
      - destruct (parseADNLAddress U _); run in E; invert_run E; auto.
      - apply (resolveLoop_inv 3 0 (http.Host request) None t) in E. exact E. }
    destruct r1 as [adnlID| | |]; try (intros H; invert_run H; auto).
    run. destruct (FindAddresses env adnlID) as [e|[addresses pubKey]]; cbn.
    + intros H. invert_run H. split; [reflexivity|].
      apply Forall_app. split; [auto|repeat constructor].
    + destruct (connectLoop env addresses pubKey _ None None [] t) as [[t2 tr2] r2] eqn:E2.
      apply connectLoop_inv in E2 as [Ha2 Htr2].
      assert (Forall isSetup (tr1 ++ EvFindAddresses adnlID :: tr2)) as Hall
        by (apply Forall_app; split; [auto|constructor; [exact I|auto]]).
      destruct r2 as [[[rl err] tried]| | |]; cbn.
      * destruct err; intros H; invert_run H; rewrite ?app_nil_r; auto.
      * intros H; invert_run H; auto.
      * intros H; invert_run H; auto.
      * intros H; invert_run H; auto.
Qed.

End Setup.

(** ** The exchange *)

Section Exchange.

Variable U : Z -> Z.
Variable env : Env.

Lemma pullLoop_inv (fuel : nat) (rl : RLDP) (qid : list Z) (noPayload : bool) (seqno : Z)
    (buf : list Z) (trailer : gmap string (list string)) (t t' : Transport)
    (tr : list event) (r : result (list Z * gmap string (list string))) :
  pullLoop env fuel rl qid noPayload seqno buf trailer t = (t', tr, r) ->
  t' = t /\ Forall (isPullOn rl) tr.
Proof.
  revert noPayload seqno buf trailer t' tr r.
  induction fuel as [|fuel IH]; intros noPayload seqno buf trailer t' tr r; cbn;
    destruct noPayload; run; try (intros H; invert_run H; auto; fail).
  destruct (DoQueryPart env rl _) as [e|part]; cbn.
  - intros H. invert_run H. repeat constructor.
  - destruct (pullLoop env fuel rl qid _ _ _ _ t) as [[t1 tr1] r1] eqn:E.
    apply IH in E as [-> Htr].
    destruct r1; intros H; invert_run H; split; auto; constructor; cbn; auto.
Qed.

(** What a run of [RoundTrip] consists of: the set-up, then (with a session
    and an identifier) the staging of the body and the query, then the
    response. *)
Lemma RoundTrip_inv (fuel : nat) (request : http.Request) (t t' : Transport)
    (tr : list event) (r : result http.Response) :
  RoundTrip U env fuel request t = (t', tr, r) ->
  exists t1 tr1 acq,
    acquire U env request t = (t1, tr1, acq)
    /\ match acq with
       | Err e => t' = t1 /\ tr = tr1 /\ r = Err e
       | Panic p => t' = t1 /\ tr = tr1 /\ r = Panic p
       | Diverge => t' = t1 /\ tr = tr1 /\ r = Diverge
       | Ok session =>
           match randRead env with
           | inl e => t' = t1 /\ tr = tr1 /\ r = Err e
           | inr src =>
               let qid := Read src (repeat 0 32) in
               let req := Request.mk qid (http.Method request) (http.URL request) "HTTP/1.1"
                                     (requestHeaders request) in
               let staged := stagedWith env qid (http.Body request) (activeRequests t1) in
               match http.Body request with
               | Some (inl e) => t' = t1 /\ tr = tr1 /\ r = Err (ErrReadBody e)
               | _ =>
                   rldpClients t' = rldpClients t1
                   /\ match session with
                      | None =>
                          activeRequests t' = staged /\ tr = tr1
                          /\ r = Panic NilPointerDereference
                      | Some rl =>
                          exists tr2,
                            tr = tr1 ++ EvQuery rl req staged :: tr2
                            /\ Forall (isPullOn rl) tr2
                            /\ match DoQuery env rl req with
                               | inl e =>
                                   activeRequests t' = staged /\ tr2 = []
                                   /\ r = Err (ErrQuery e)
                               | inr res =>
                                   activeRequests t' = delete (EncodeToString qid) staged
                                   /\ forall resp, r = Ok resp ->
                                      match http.lookupHeader (http.Header request)
                                                              "Content-Length" with
                                      | Some (ln0 :: _) =>
                                          strconv.ParseInt ln0
                                          = inr (http.RespContentLength resp)
                                      | _ => http.RespContentLength resp = -1
                                      end
                               end
                      end
               end
           end
       end.
Proof.
  unfold RoundTrip. unfold mbind at 1, M_bind at 1.
  destruct (acquire U env request t) as [[t1 tr1] acq] eqn:Eacq.
  intros H. exists t1, tr1, acq. split; [reflexivity|].
  destruct acq as [session| | |]; try (invert_run H; auto; fail).
  destruct (randRead env) as [e|src]; [run in H; invert_run H; rewrite app_nil_r; auto|].
  cbv zeta.
  remember (Read src (repeat 0 32)) as qid eqn:Eqid.
  remember (Request.mk qid _ _ _ _) as req eqn:Ereq.
  unfold stagedWith.
  destruct (http.Body request) as [[e|data]|];
    [run in H; invert_run H; rewrite app_nil_r; auto| |].
  - (* a body was staged *)
    run in H. destruct session as [rl|]; cbn in H.
    + destruct (DoQuery env rl req) as [e|res]; cbn in H.
      * invert_run H. split; [reflexivity|]. exists []. cbn. auto.
      * destruct (http.lookupHeader _ _) as [[|ln0 lns]|] eqn:Ecl; cbn in H.
        all: try destruct (strconv.ParseInt ln0) as [e|n]; cbn in H.
        all: try (invert_run H; split; [reflexivity|]; exists []; cbn;
                  repeat split; auto; discriminate).
        all: try destruct (0 <? n); try destruct (maxAlloc env <? n); cbn in H.
        all: try (invert_run H; split; [reflexivity|]; exists []; cbn;
                  repeat split; auto; try discriminate;
                  intros resp [= <-]; reflexivity).
        all: match type of H with context [pullLoop ?a ?b ?c ?d ?e ?f ?g ?h ?i] =>
               destruct (pullLoop a b c d e f g h i) as [[t2 tr2] r2] eqn:Ep;
               apply pullLoop_inv in Ep as [-> Htr2]
             end.
        all: destruct r2 as [[buf trailer]| | |]; cbn in H; invert_run H;
          (split; [reflexivity|]); exists tr2; rewrite ?app_nil_r; cbn;
          repeat split; auto; try discriminate; intros resp [= <-]; reflexivity.
    + invert_run H. rewrite app_nil_r. auto.
  - (* no body *)
    run in H. destruct session as [rl|]; cbn in H.
    + destruct (DoQuery env rl req) as [e|res]; cbn in H.
      * invert_run H. split; [reflexivity|]. exists []. cbn. auto.
      * destruct (http.lookupHeader _ _) as [[|ln0 lns]|] eqn:Ecl; cbn in H.
        all: try destruct (strconv.ParseInt ln0) as [e|n]; cbn in H.
        all: try (invert_run H; split; [reflexivity|]; exists []; cbn;
                  repeat split; auto; discriminate).
        all: try destruct (0 <? n); try destruct (maxAlloc env <? n); cbn in H.
        all: try (invert_run H; split; [reflexivity|]; exists []; cbn;
                  repeat split; auto; try discriminate;
                  intros resp [= <-]; reflexivity).
        all: match type of H with context [pullLoop ?a ?b ?c ?d ?e ?f ?g ?h ?i] =>
               destruct (pullLoop a b c d e f g h i) as [[t2 tr2] r2] eqn:Ep;
               apply pullLoop_inv in Ep as [-> Htr2]
             end.
        all: destruct r2 as [[buf trailer]| | |]; cbn in H; invert_run H;
          (split; [reflexivity|]); exists tr2; rewrite ?app_nil_r; cbn;
          repeat split; auto; try discriminate; intros resp [= <-]; reflexivity.
    + invert_run H. rewrite app_nil_r. auto.
Qed.

End Exchange.

(** ** Claims on [RoundTrip] *)

Lemma Read_length (src b : list Z) : length (Read src b) = length b.
Proof.
  unfold Read. rewrite length_firstn, length_app, length_skipn. lia.
Qed.

Lemma query_in_trace (tr1 tr2 : list event) (rl rl0 : RLDP) (req req0 : Request.t)
    (staged staged0 : gmap string payloadStream.t) :
  Forall isSetup tr1 -> Forall (isPullOn rl0) tr2 ->
  In (EvQuery rl req staged) (tr1 ++ EvQuery rl0 req0 staged0 :: tr2) ->
  rl = rl0 /\ req = req0 /\ staged = staged0.
Proof.
  intros H1 H2 Hin. apply in_app_or in Hin as [Hin|[Heq|Hin]].
  - apply (proj1 (List.Forall_forall _ _) H1) in Hin. destruct Hin.
  - injection Heq as -> -> ->. auto.
  - apply (proj1 (List.Forall_forall _ _) H2) in Hin. destruct Hin.
Qed.

Lemma no_query_in_setup (tr1 : list event) (rl : RLDP) (req : Request.t)
    (staged : gmap string payloadStream.t) :
  Forall isSetup tr1 -> ~ In (EvQuery rl req staged) tr1.
Proof.
  intros H1 Hin. apply (proj1 (List.Forall_forall _ _) H1) in Hin. destruct Hin.
Qed.

(** Every request message [RoundTrip] sends: its identifier, its headers and
    the table of staged bodies at that moment. *)
Lemma RoundTrip_query (U : Z -> Z) (env : Env) (fuel : nat) (request : http.Request)
    (t t' : Transport) (tr : list event) (r : result http.Response)
    (rl : RLDP) (req : Request.t) (staged : gmap string payloadStream.t) :
  RoundTrip U env fuel request t = (t', tr, r) ->
  In (EvQuery rl req staged) tr ->
  exists src,
    randRead env = inr src
    /\ req = Request.mk (Read src (repeat 0 32)) (http.Method request) (http.URL request)
                        "HTTP/1.1" (requestHeaders request)
    /\ staged = stagedWith env (Read src (repeat 0 32)) (http.Body request) (activeRequests t)
    /\ forall e, http.Body request <> Some (inl e).
Proof.
  intros Hrun Hin. apply RoundTrip_inv in Hrun as (t1 & tr1 & acq & Hacq & Hrest).
  apply acquire_inv in Hacq as [Ha Hsetup]. rewrite <- Ha.
  assert (~ In (EvQuery rl req staged) tr1) as Hno by (apply no_query_in_setup; exact Hsetup).
  destruct acq as [session| | |];
    try (destruct Hrest as (_ & -> & _); contradiction).
  destruct (randRead env) as [e|src]; [destruct Hrest as (_ & -> & _); contradiction|].
  exists src. cbv zeta in Hrest.
  destruct (http.Body request) as [[e|data]|];
    [destruct Hrest as (_ & -> & _); contradiction| |].
  all: destruct Hrest as [_ Hrest]; destruct session as [rl0|];
    [|destruct Hrest as (_ & -> & _); contradiction].
  all: destruct Hrest as (tr2 & -> & Hpull & _).
  all: apply (query_in_trace _ _ _ _ _ _ _ _ Hsetup Hpull) in Hin as (-> & -> & ->).
  all: repeat split; auto; discriminate.
Qed.

(** C2. With a session in the cache, a readable body and a query that fails,
    [RoundTrip] returns the query error and the staged body is still in the
    table of active requests: the removal after [DoQuery] is not reached. *)
Theorem RoundTrip_query_error_keeps_stream (U : Z -> Z) (env : Env) (fuel : nat)
    (request : http.Request) (t : Transport) (rl : RLDP) (src data : list Z) (e : error) :
  rldpClients t !! http.Host request = Some rl ->
  randRead env = inr src ->
  http.Body request = Some (inr data) ->
  (forall req, DoQuery env rl req = inl e) ->
  exists t' tr,
    RoundTrip U env fuel request t = (t', tr, Err (ErrQuery e))
    /\ activeRequests t' !! EncodeToString (Read src (repeat 0 32))
       = Some (payloadStream.mk data (Now env)).
Proof.
  intros Hhit Hrand Hbody Hquery.
  destruct (RoundTrip U env fuel request t) as [[t' tr] r] eqn:Hrun.
  apply RoundTrip_inv in Hrun as (t1 & tr1 & acq & Hacq & Hrest).
  rewrite (acquire_hit U env request t rl Hhit) in Hacq. injection Hacq as <- <- <-.
  rewrite Hrand, Hbody in Hrest. cbv zeta in Hrest.
  destruct Hrest as (_ & tr2 & -> & _ & Hrest). rewrite Hquery in Hrest.
  destruct Hrest as (Ha & -> & ->).
  exists t', [EvQuery rl
                (Request.mk (Read src (repeat 0 32)) (http.Method request) (http.URL request)
                            "HTTP/1.1" (requestHeaders request))
                (stagedWith env (Read src (repeat 0 32)) (Some (inr data)) (activeRequests t))].
  split; [reflexivity|]. rewrite Ha. apply lookup_insert_eq.
Qed.

Lemma RoundTrip_query_error_keeps_stream_witness :
  exists t' tr,
    RoundTrip caseRangesRows envDown 0 postBody connected
    = (t', tr, Err (ErrQuery (ErrExternal "query")))
    /\ activeRequests t' !! EncodeToString (Read (seqZ 100 32) (repeat 0 32))
       = Some (payloadStream.mk [7; 8; 9] 1000).
Proof.
  apply (RoundTrip_query_error_keeps_stream caseRangesRows envDown 0 postBody connected peer
           (seqZ 100 32) [7; 8; 9] (ErrExternal "query")).
  - reflexivity.
  - reflexivity.
  - reflexivity.
  - intros req. reflexivity.
Defined.

(** C3. [RoundTrip] panics where the claim promises a response or an error:
    when the directory returns no endpoint the session is still nil at
    [rl.DoQuery]; and for a literal address with padding characters the
    decoded buffer is shorter than 33 bytes at [buf[33:]]. *)
Theorem RoundTrip_panics (U : Z -> Z) (fuel : nat) :
  RoundTrip U envEmptyDirectory fuel getLiteral NewTransport
  = (NewTransport, [EvFindAddresses (0x2d :: firstn 31 key0)], Panic NilPointerDereference)
  /\ RoundTrip U envDown fuel getPadded NewTransport
     = (NewTransport, [], Panic SliceBoundsOutOfRange).
Proof.
  split; vm_compute; reflexivity.
Qed.

(** C6, as amended. Every request message [RoundTrip] sends carries as its
    identifier the 32-byte buffer that [rand.Read] filled for this call, and
    a body that was read is staged under the hex form of that identifier
    while the query is in flight. *)
Theorem RoundTrip_request_identifier (U : Z -> Z) (env : Env) (fuel : nat)
    (request : http.Request) (t t' : Transport) (tr : list event)
    (r : result http.Response) (rl : RLDP) (req : Request.t)
    (staged : gmap string payloadStream.t) :
  RoundTrip U env fuel request t = (t', tr, r) ->
  In (EvQuery rl req staged) tr ->
  exists src,
    randRead env = inr src
    /\ Request.ID req = Read src (repeat 0 32)
    /\ length (Request.ID req) = 32%nat
    /\ forall data, http.Body request = Some (inr data) ->
         staged !! EncodeToString (Request.ID req)
         = Some (payloadStream.mk data (Now env)).
Proof.
  intros Hrun Hin.
  destruct (RoundTrip_query U env fuel request t t' tr r rl req staged Hrun Hin)
    as (src & Hrand & -> & -> & _).
  exists src. cbn [Request.ID]. rewrite Read_length. repeat split; auto.
  intros data ->. unfold stagedWith. apply lookup_insert_eq.
Qed.

Lemma RoundTrip_request_identifier_witness :
  exists src,
    randRead envDown = inr src
    /\ seqZ 100 32 = Read src (repeat 0 32)
    /\ length (seqZ 100 32) = 32%nat
    /\ forall data, http.Body postBody = Some (inr data) ->
         stagedWith envDown (seqZ 100 32) (http.Body postBody) ∅
           !! EncodeToString (seqZ 100 32)
         = Some (payloadStream.mk data (Now envDown)).
Proof.
  refine (RoundTrip_request_identifier caseRangesRows envDown 0 postBody connected
            _ _ (Err (ErrQuery (ErrExternal "query"))) peer
            (Request.mk (seqZ 100 32) "POST" "http://site.ton/up" "HTTP/1.1"
                        [Header.mk "Host" "site.ton"])
            (stagedWith envDown (seqZ 100 32) (http.Body postBody) ∅) _ _).
  - vm_compute. reflexivity.
  - left. reflexivity.
Defined.

(** C6, refuted as stated: the identifier of the request message is 32
    bytes long, not 16. *)
Lemma RoundTrip_identifier_not_16_bytes :
  exists t' req staged r,
    RoundTrip caseRangesRows envDown 0 postBody connected = (t', [EvQuery peer req staged], r)
    /\ length (Request.ID req) = 32%nat
    /\ length (Request.ID req) <> 16%nat.
Proof.
  do 4 eexists. split; [vm_compute; reflexivity|]. split; [reflexivity|]. cbn. lia.
Qed.

(** C7. Whenever [RoundTrip] returns a response, its content length is the
    value parsed from the first [Content-Length] value of the inbound
    request's header map when there is one, and -1 otherwise; the response
    message of the peer plays no part. *)
Theorem RoundTrip_content_length (U : Z -> Z) (env : Env) (fuel : nat)
    (request : http.Request) (t t' : Transport) (tr : list event) (resp : http.Response) :
  RoundTrip U env fuel request t = (t', tr, Ok resp) ->
  match http.lookupHeader (http.Header request) "Content-Length" with
  | Some (ln0 :: _) => strconv.ParseInt ln0 = inr (http.RespContentLength resp)
  | _ => http.RespContentLength resp = -1
  end.
Proof.
  intros Hrun. apply RoundTrip_inv in Hrun as (t1 & tr1 & acq & _ & Hrest).
  destruct acq as [session| | |]; try (destruct Hrest as (_ & _ & [=])).
  destruct (randRead env) as [e|src]; [destruct Hrest as (_ & _ & [=])|].
  cbv zeta in Hrest.
  destruct (http.Body request) as [[e|data]|]; [destruct Hrest as (_ & _ & [=])| |].
  all: destruct Hrest as [_ Hrest]; destruct session as [rl|];
    [|destruct Hrest as (_ & _ & [=])].
  all: destruct Hrest as (tr2 & _ & _ & Hrest).
  all: destruct (DoQuery env rl _) as [e|res]; [destruct Hrest as (_ & _ & [=])|].
  all: destruct Hrest as [_ Hresp]; apply Hresp; reflexivity.
Qed.

Lemma RoundTrip_content_length_witness :
  exists t' tr resp,
    RoundTrip caseRangesRows envUp 1 postBodyWithHeader connected = (t', tr, Ok resp)
    /\ http.RespBody resp = [1; 2; 3; 4; 5]
    /\ strconv.ParseInt "5" = inr (http.RespContentLength resp).
Proof.
  do 3 eexists. split; [vm_compute; reflexivity|]. split; [reflexivity|].
  refine (RoundTrip_content_length caseRangesRows envUp 1 postBodyWithHeader connected _ _ _ _).
  vm_compute. reflexivity.
Defined.

(** C8. With a session for the host in the cache, [RoundTrip] uses it:
    unless [rand.Read] or the reading of the body fails, in which case
    nothing is sent, the first call to the network is the query of this
    request over the cached session, and all that follows are pull requests
    over it. There is no name resolution, no directory lookup and no
    connection attempt, and the session cache is left as it was. *)
Theorem RoundTrip_cached_session (U : Z -> Z) (env : Env) (fuel : nat)
    (request : http.Request) (t t' : Transport) (tr : list event)
    (r : result http.Response) (rl : RLDP) :
  rldpClients t !! http.Host request = Some rl ->
  RoundTrip U env fuel request t = (t', tr, r) ->
  rldpClients t' = rldpClients t
  /\ Forall (isExchangeOn rl) tr
  /\ match randRead env with
     | inl e => tr = [] /\ r = Err e
     | inr src =>
         match http.Body request with
         | Some (inl e) => tr = [] /\ r = Err (ErrReadBody e)
         | _ =>
             exists tr2,
               tr = EvQuery rl (requestOf request src)
                      (stagedWith env (Read src (repeat 0 32)) (http.Body request)
                         (activeRequests t))
                    :: tr2
               /\ Forall (isPullOn rl) tr2
               /\ (tr2 <> [] -> exists res, DoQuery env rl (requestOf request src) = inr res)
         end
     end.
Proof.
  intros Hhit Hrun. apply RoundTrip_inv in Hrun as (t1 & tr1 & acq & Hacq & Hrest).
  rewrite (acquire_hit U env request t rl Hhit) in Hacq. injection Hacq as <- <- <-.
  destruct (randRead env) as [e|src];
    [destruct Hrest as (-> & -> & ->); repeat split; constructor|].
  cbv zeta in Hrest. fold (requestOf request src) in Hrest.
  assert (forall tr2, Forall (isPullOn rl) tr2 -> Forall (isExchangeOn rl) tr2) as Himp.
  { intros tr2 Hpull. eapply List.Forall_impl; [|exact Hpull].
    intros [] Hev; cbn in *; auto; contradiction. }
  destruct (http.Body request) as [[e|data]|];
    [destruct Hrest as (-> & -> & ->); repeat split; constructor| |].
  all: destruct Hrest as (Hc & tr2 & -> & Hpull & Hq); split; [exact Hc|].
  all: split; [constructor; [reflexivity|auto]|].
  all: exists tr2; split; [reflexivity|]; split; [exact Hpull|].
  all: intros Hne; destruct (DoQuery env rl (requestOf request src)) as [e|res];
    [destruct Hq as (_ & -> & _); destruct Hne; reflexivity|eauto].
Qed.

Lemma RoundTrip_cached_session_witness :
  rldpClients connected !! http.Host postBodyWithHeader = Some peer
  /\ exists t' tr r,
       RoundTrip caseRangesRows envUp 1 postBodyWithHeader connected = (t', tr, r)
       /\ rldpClients t' = rldpClients connected
       /\ Forall (isExchangeOn peer) tr
       /\ exists tr2,
            tr = EvQuery peer (requestOf postBodyWithHeader (seqZ 100 32))
                   (stagedWith envUp (Read (seqZ 100 32) (repeat 0 32))
                      (http.Body postBodyWithHeader) (activeRequests connected))
                 :: tr2
            /\ Forall (isPullOn peer) tr2
            /\ (tr2 <> [] ->
                exists res, DoQuery envUp peer (requestOf postBodyWithHeader (seqZ 100 32))
                            = inr res).
Proof.
  split; [reflexivity|].
  do 3 eexists. split; [vm_compute; reflexivity|].
  refine (RoundTrip_cached_session caseRangesRows envUp 1 postBodyWithHeader connected
            _ _ _ peer _ _).
  - reflexivity.
  - vm_compute. reflexivity.
Defined.

(** C10, as amended. For a request with a body and no positive declared
    content length, every request message [RoundTrip] sends goes out with
    the body staged under its identifier; its headers are [Host] followed by
    the entries of the inbound header map, one per value, so that it has a
    [Content-Length] header only if the inbound header map has one. *)
Theorem RoundTrip_body_without_length (U : Z -> Z) (env : Env) (fuel : nat)
    (request : http.Request) (t t' : Transport) (tr : list event)
    (r : result http.Response) (rl : RLDP) (req : Request.t)
    (staged : gmap string payloadStream.t) (body : error + list Z) :
  http.ContentLength request <= 0 ->
  http.Body request = Some body ->
  RoundTrip U env fuel request t = (t', tr, r) ->
  In (EvQuery rl req staged) tr ->
  (exists data,
     body = inr data
     /\ staged !! EncodeToString (Request.ID req) = Some (payloadStream.mk data (Now env)))
  /\ Request.Headers req
     = Header.mk "Host" (http.Host request)
       :: flat_map (fun '(k, v) => map (Header.mk k) v) (http.Header request)
  /\ (forall h, In h (Request.Headers req) -> Header.Name h = "Content-Length"%string ->
      exists v, In ("Content-Length"%string, v) (http.Header request)).
Proof.
  intros Hlen Hbody Hrun Hin.
  destruct (RoundTrip_query U env fuel request t t' tr r rl req staged Hrun Hin)
    as (src & Hrand & -> & -> & Hread).
  assert (requestHeaders request
          = Header.mk "Host" (http.Host request)
            :: flat_map (fun '(k, v) => map (Header.mk k) v) (http.Header request)) as Hh.
  { unfold requestHeaders.
    replace (0 <? http.ContentLength request) with false
      by (symmetry; apply Z.ltb_ge; exact Hlen).
    reflexivity. }
  cbn [Request.ID Request.Headers]. rewrite Hh. split; [|split; [reflexivity|]].
  - rewrite Hbody in *. destruct body as [e|data]; [destruct (Hread e); reflexivity|].
    exists data. split; [reflexivity|]. unfold stagedWith. apply lookup_insert_eq.
  - intros h [<-|Hh'] Hname; [discriminate Hname|].
    apply in_flat_map in Hh' as ([k v] & Hkv & Hmap).
    apply in_map_iff in Hmap as (x & <- & _). cbn in Hname. subst k.
    exists v. exact Hkv.
Qed.

Lemma RoundTrip_body_without_length_witness :
  (exists data,
     (inr [7; 8; 9] : error + list Z) = inr data
     /\ stagedWith envDown (seqZ 100 32) (http.Body postBody) ∅
          !! EncodeToString (seqZ 100 32)
        = Some (payloadStream.mk data (Now envDown)))
  /\ [Header.mk "Host" "site.ton"]
     = Header.mk "Host" (http.Host postBody)
       :: flat_map (fun '(k, v) => map (Header.mk k) v) (http.Header postBody)
  /\ (forall h, In h [Header.mk "Host" "site.ton"] ->
      Header.Name h = "Content-Length"%string ->
      exists v, In ("Content-Length"%string, v) (http.Header postBody)).
Proof.
  refine (RoundTrip_body_without_length caseRangesRows envDown 0 postBody connected
            _ _ (Err (ErrQuery (ErrExternal "query"))) peer
            (Request.mk (seqZ 100 32) "POST" "http://site.ton/up" "HTTP/1.1"
                        [Header.mk "Host" "site.ton"])
            (stagedWith envDown (seqZ 100 32) (http.Body postBody) ∅)
            (inr [7; 8; 9]) _ _ _ _).
  - cbn. lia.
  - reflexivity.
  - vm_compute. reflexivity.
  - left. reflexivity.
Defined.

(** C10, refuted as stated: a request with an empty body, a declared
    content length of 0 and [Content-Length: 0] in its header map is sent
    with a [Content-Length] header. *)
Lemma RoundTrip_copies_content_length_header :
  http.ContentLength postEmpty <= 0
  /\ http.Body postEmpty = Some (inr [])
  /\ exists t' req staged r,
       RoundTrip caseRangesRows envDown 0 postEmpty connected
       = (t', [EvQuery peer req staged], r)
       /\ In (Header.mk "Content-Length" "0") (Request.Headers req).
Proof.
  split; [cbn; lia|]. split; [reflexivity|].
  do 4 eexists. split; [vm_compute; reflexivity|]. right. left. reflexivity.
Qed.

(** * Further properties *)

(** ** bytesToBits *)

Lemma appendBits_app (n : nat) (b : Z) (bits : list Z) :
  appendBits n b bits = bits ++ appendBits n b [].
Proof.
  revert bits. induction n as [|n IH]; intros bits; cbn.
  - now rewrite app_nil_r.
  - rewrite IH, (IH [_]), <- app_assoc. reflexivity.
Qed.

Lemma bytesToBits_flat_map (bs : list Z) : bytesToBits bs = flat_map byteBits bs.
Proof.
  unfold bytesToBits.
  assert (forall acc, fold_left (fun bits b => appendBits 8 b bits) bs acc
                      = acc ++ flat_map byteBits bs) as H.
  { induction bs as [|b bs IH]; intros acc; cbn [fold_left flat_map].
    - now rewrite app_nil_r.
    - rewrite IH, appendBits_app, <- app_assoc. reflexivity. }
  apply (H []).
Qed.

Lemma length_byteBits (b : Z) : length (byteBits b) = 8%nat.
Proof. reflexivity. Qed.

Lemma byteBits_checked :
  forallb (fun b => (binaryValue (byteBits b) =? b) && forallb isBit (byteBits b))
          (seqZ 0 256) = true.
Proof. vm_compute. reflexivity. Qed.

Lemma byteBits_value (b : Z) :
  isByte b = true -> binaryValue (byteBits b) = b /\ forallb isBit (byteBits b) = true.
Proof.
  intros Hb. unfold isByte in Hb. apply andb_true_iff in Hb as [H0 H1].
  apply Z.leb_le in H0. apply Z.ltb_lt in H1.
  pose proof (proj1 (List.forallb_forall _ _) byteBits_checked b) as H.
  cbv beta in H.
  assert (In b (seqZ 0 256)) as Hin by (apply list_elem_of_In, elem_of_seqZ; lia).
  apply H in Hin. apply andb_true_iff in Hin as [Hv Hbits].
  apply Z.eqb_eq in Hv. auto.
Qed.

Lemma binaryValue_byteBits (v0 b : Z) :
  isByte b = true ->
  fold_left (fun v k => 2 * v + k) (byteBits b) v0 = 256 * v0 + b.
Proof.
  intros Hb. destruct (byteBits_value b Hb) as [Hv _].
  unfold binaryValue in Hv. revert Hv.
  unfold byteBits. cbn [appendBits app fold_left]. intros Hv. lia.
Qed.

Lemma flat_map_byteBits (bs : list Z) (v0 : Z) :
  forallb isByte bs = true ->
  length (flat_map byteBits bs) = (8 * length bs)%nat
  /\ forallb isBit (flat_map byteBits bs) = true
  /\ fold_left (fun v k => 2 * v + k) (flat_map byteBits bs) v0
     = fold_left (fun v b => 256 * v + b) bs v0.
Proof.
  revert v0. induction bs as [|b bs IH]; intros v0 Hbs; cbn [flat_map fold_left length].
  - auto.
  - cbn [forallb] in Hbs. apply andb_true_iff in Hbs as [Hb Hbs].
    destruct (IH (256 * v0 + b) Hbs) as (Hlen & Hbits & Hval).
    rewrite length_app, length_byteBits, Hlen, forallb_app, fold_left_app, Hbits.
    rewrite binaryValue_byteBits by exact Hb.
    destruct (byteBits_value b Hb) as [_ ->]. repeat split; [lia|exact Hval].
Qed.

(** X1. [bytesToBits] turns n bytes into 8n bits, and the bits read as a
    binary number, most significant first, are the bytes read as a
    big-endian number. *)
Theorem bytesToBits_big_endian (bs : list Z) :
  forallb isByte bs = true ->
  length (bytesToBits bs) = (8 * length bs)%nat
  /\ forallb isBit (bytesToBits bs) = true
  /\ binaryValue (bytesToBits bs) = bigEndianValue bs.
Proof.
  intros Hbs. rewrite bytesToBits_flat_map. apply (flat_map_byteBits bs 0 Hbs).
Qed.

Lemma bytesToBits_big_endian_witness :
  length (bytesToBits [1; 2]) = (8 * length [1; 2])%nat
  /\ forallb isBit (bytesToBits [1; 2]) = true
  /\ binaryValue (bytesToBits [1; 2]) = bigEndianValue [1; 2].
Proof.
  apply (bytesToBits_big_endian [1; 2]). reflexivity.
Defined.

(** X2. [bytesToBits] is injective on byte lists: different values give
    different keys. *)
Theorem bytesToBits_injective (a b : list Z) :
  forallb isByte a = true -> forallb isByte b = true ->
  bytesToBits a = bytesToBits b -> a = b.
Proof.
  rewrite !bytesToBits_flat_map. revert b.
  induction a as [|x a IH]; intros [|y b] Ha Hb Heq; cbn [flat_map] in Heq.
  - reflexivity.
  - apply (f_equal (@length Z)) in Heq. rewrite length_app, length_byteBits in Heq.
    discriminate Heq.
  - apply (f_equal (@length Z)) in Heq. rewrite length_app, length_byteBits in Heq.
    discriminate Heq.
  - cbn [forallb] in Ha, Hb.
    apply andb_true_iff in Ha as [Hx Ha]. apply andb_true_iff in Hb as [Hy Hb].
    apply app_inj_1 in Heq as [Hxy Hrest]; [|now rewrite !length_byteBits].
    f_equal; [|apply IH; assumption].
    destruct (byteBits_value x Hx) as [<- _]. destruct (byteBits_value y Hy) as [<- _].
    now rewrite Hxy.
Qed.

Lemma bytesToBits_injective_witness : [5; 0] = [5; 0].
Proof.
  apply (bytesToBits_injective [5; 0] [5; 0]); reflexivity.
Defined.

(** ** fetchKeys *)

Lemma spell_snoc (l : list Z) (k : Z) : spell (l ++ [k]) = spell l +:+ Itoa k.
Proof. unfold spell. rewrite fold_left_app. reflexivity. Qed.

Lemma append_one_inj (s1 s2 : string) (c d : ascii) :
  s1 +:+ String c EmptyString = s2 +:+ String d EmptyString -> s1 = s2 /\ c = d.
Proof.
  revert s2. induction s1 as [|a s1 IH]; intros [|b s2]; cbn; intros H.
  - injection H as ->. auto.
  - injection H as -> H. destruct s2; discriminate H.
  - injection H as -> H. destruct s1; discriminate H.
  - injection H as -> H. apply IH in H as [-> ->]. auto.
Qed.

Lemma Itoa_bit (k : Z) :
  isBit k = true -> Itoa k = String (if k =? 0 then "0"%char else "1"%char) EmptyString.
Proof.
  unfold isBit. intros H. apply orb_true_iff in H as [H|H]; apply Z.eqb_eq in H; subst k;
    reflexivity.
Qed.

Lemma firstn_S_nth {A : Type} (l : list A) (n : nat) (d : A) :
  (n < length l)%nat -> firstn (S n) l = firstn n l ++ [nth n l d].
Proof.
  revert n. induction l as [|x l IH]; intros [|n] H; cbn in *; try lia; [reflexivity|].
  f_equal. apply IH. lia.
Qed.

(** The test of [fetchKeys] on a key of bits. *)
Lemma fetchKeys_test (pp : string) (b : Z) (key : list Z) :
  isBitKey pp key = true -> isBit b = true ->
  slice key 0 (Z.of_nat (String.length pp) + 1) = Some (firstn (S (String.length pp)) key)
  /\ String.eqb (spell (firstn (S (String.length pp)) key)) (pp +:+ Itoa b)
     = extends pp b key.
Proof.
  unfold isBitKey. intros Hkey Hb. apply andb_true_iff in Hkey as [Hlen Hbits].
  apply Z.ltb_lt in Hlen. unfold len in Hlen. split.
  - rewrite slice_in_range by (unfold len; lia). cbn. f_equal. f_equal. lia.
  - rewrite (firstn_S_nth key _ (-1)) by lia. rewrite spell_snoc.
    set (k := nth (String.length pp) key (-1)).
    assert (isBit k = true) as Hk.
    { apply (proj1 (List.forallb_forall _ _) Hbits). apply nth_In. lia. }
    rewrite (Itoa_bit k Hk), (Itoa_bit b Hb). unfold extends. fold k. clearbody k.
    destruct (String.eqb_spec (spell (firstn (String.length pp) key)) pp) as [->|Hne].
    + cbn [andb]. unfold isBit in Hk, Hb.
      apply orb_true_iff in Hk as [Hk|Hk]; apply Z.eqb_eq in Hk; subst k;
        apply orb_true_iff in Hb as [Hb|Hb]; apply Z.eqb_eq in Hb; subst b; cbn.
      * apply String.eqb_refl.
      * destruct (String.eqb_spec (pp +:+ "0") (pp +:+ "1")) as [E|_]; [|reflexivity].
        apply append_one_inj in E as [_ [=]].
      * destruct (String.eqb_spec (pp +:+ "1") (pp +:+ "0")) as [E|_]; [|reflexivity].
        apply append_one_inj in E as [_ [=]].
      * apply String.eqb_refl.
    + cbn [andb].
      match goal with |- String.eqb ?x ?y = false => destruct (String.eqb_spec x y) as [E|_] end;
        [|reflexivity].
      apply append_one_inj in E as [E _]. contradiction.
Qed.

Lemma fetchKeysLoop_filter (pp : string) (b : Z) (keys acc : list (list Z)) :
  forallb (isBitKey pp) keys = true -> isBit b = true ->
  fetchKeysLoop pp (Itoa b) keys acc = Ok (acc ++ List.filter (extends pp b) keys).
Proof.
  intros Hkeys Hb. revert acc.
  induction keys as [|key keys IH]; intros acc; cbn [fetchKeysLoop List.filter].
  - now rewrite app_nil_r.
  - cbn [forallb] in Hkeys. apply andb_true_iff in Hkeys as [Hkey Hkeys].
    destruct (fetchKeys_test pp b key Hkey Hb) as [Hs He].
    rewrite Hs. unfold mbind, result_bind. cbn [check]. rewrite He.
    rewrite (IH Hkeys).
    destruct (extends pp b key); [now rewrite <- app_assoc|reflexivity].
Qed.

(** X3. On keys of bits that are longer than the prefix, [fetchKeys] with
    the bit "0" or "1" returns, in their order, exactly the keys that start
    with the bits of [pp] followed by that bit. *)
Theorem fetchKeys_selects (pp : string) (b : Z) (keys : list (list Z)) :
  forallb (isBitKey pp) keys = true -> isBit b = true ->
  fetchKeys pp keys (Itoa b) = Ok (List.filter (extends pp b) keys).
Proof.
  intros Hkeys Hb. unfold fetchKeys. apply (fetchKeysLoop_filter pp b keys [] Hkeys Hb).
Qed.

Lemma fetchKeys_selects_witness :
  fetchKeys "01" [[0; 1; 0; 1]; [0; 1; 1; 0]; [1; 1; 1; 1]; [0; 1; 0; 0]] (Itoa 0)
  = Ok (List.filter (extends "01" 0)
                    [[0; 1; 0; 1]; [0; 1; 1; 0]; [1; 1; 1; 1]; [0; 1; 0; 0]]).
Proof.
  apply (fetchKeys_selects "01" 0); reflexivity.
Defined.

(** X4. On such keys the two calls of [doGenerateMerkleProof] split the keys
    under the prefix: a key that starts with the bits of [pp] is in exactly
    one of the two results, any other key in neither. *)
Theorem fetchKeys_splits (pp : string) (keys : list (list Z)) :
  forallb (isBitKey pp) keys = true ->
  exists leftKeys rightKeys,
    fetchKeys pp keys "0" = Ok leftKeys
    /\ fetchKeys pp keys "1" = Ok rightKeys
    /\ forall key, In key keys ->
         if String.eqb (spell (firstn (String.length pp) key)) pp
         then (In key leftKeys /\ ~ In key rightKeys)
              \/ (In key rightKeys /\ ~ In key leftKeys)
         else ~ In key leftKeys /\ ~ In key rightKeys.
Proof.
  intros Hkeys.
  exists (List.filter (extends pp 0) keys), (List.filter (extends pp 1) keys).
  split; [apply (fetchKeysLoop_filter pp 0 keys [] Hkeys); reflexivity|].
  split; [apply (fetchKeysLoop_filter pp 1 keys [] Hkeys); reflexivity|].
  intros key Hin.
  assert (forall b, In key (List.filter (extends pp b) keys) <-> extends pp b key = true)
    as Hf by (intros b; rewrite filter_In; tauto).
  pose proof (proj1 (List.forallb_forall _ _) Hkeys key Hin) as Hkey.
  unfold isBitKey in Hkey. apply andb_true_iff in Hkey as [Hlen Hbits].
  apply Z.ltb_lt in Hlen. unfold len in Hlen.
  assert (isBit (nth (String.length pp) key (-1)) = true) as Hk
    by (apply (proj1 (List.forallb_forall _ _) Hbits), nth_In; lia).
  unfold isBit in Hk. pose proof (Hf 0) as Hf0. pose proof (Hf 1) as Hf1.
  unfold extends in Hf0, Hf1.
  destruct (String.eqb (spell (firstn (String.length pp) key)) pp); cbn [andb] in Hf0, Hf1.
  - apply orb_true_iff in Hk as [Hk|Hk]; apply Z.eqb_eq in Hk; rewrite Hk in Hf0, Hf1;
      cbn in Hf0, Hf1.
    + left. split; [apply Hf0; reflexivity|]. intros H. apply Hf1 in H. discriminate H.
    + right. split; [apply Hf1; reflexivity|]. intros H. apply Hf0 in H. discriminate H.
  - split; intros H; [apply Hf0 in H|apply Hf1 in H]; discriminate H.
Qed.

Lemma fetchKeys_splits_witness :
  exists leftKeys rightKeys,
    fetchKeys "0" [[0; 1; 0]; [0; 0; 1]; [1; 0; 0]] "0" = Ok leftKeys
    /\ fetchKeys "0" [[0; 1; 0]; [0; 0; 1]; [1; 0; 0]] "1" = Ok rightKeys
    /\ forall key, In key [[0; 1; 0]; [0; 0; 1]; [1; 0; 0]] ->
         if String.eqb (spell (firstn (String.length "0") key)) "0"
         then (In key leftKeys /\ ~ In key rightKeys)
              \/ (In key rightKeys /\ ~ In key leftKeys)
         else ~ In key leftKeys /\ ~ In key rightKeys.
Proof.
  apply (fetchKeys_splits "0" [[0; 1; 0]; [0; 0; 1]; [1; 0; 0]]). reflexivity.
Defined.

Lemma fetchKeysLoop_short (pp bit : string) (keys acc : list (list Z)) (key : list Z) :
  In key keys -> len key <= Z.of_nat (String.length pp) ->
  fetchKeysLoop pp bit keys acc = Panic SliceBoundsOutOfRange.
Proof.
  intros Hin Hshort. revert acc.
  induction keys as [|k keys IH]; intros acc; [destruct Hin|].
  cbn [fetchKeysLoop].
  destruct (slice k 0 (Z.of_nat (String.length pp) + 1)) as [prefix|] eqn:Es.
  - unfold mbind, result_bind. cbn [check].
    destruct Hin as [->|Hin]; [|apply IH; exact Hin].
    apply slice_Some in Es as [Hr _]. lia.
  - reflexivity.
Qed.

(** X5. [fetchKeys] panics as soon as one key has no more elements than the
    prefix has characters: the slice [key[0 : len(pp)+1]] is out of range. *)
Theorem fetchKeys_short_key_panics (pp bit : string) (keys : list (list Z))
    (key : list Z) :
  In key keys -> len key <= Z.of_nat (String.length pp) ->
  fetchKeys pp keys bit = Panic SliceBoundsOutOfRange.
Proof.
  intros Hin Hshort. apply (fetchKeysLoop_short pp bit keys [] key Hin Hshort).
Qed.

Lemma fetchKeys_short_key_panics_witness :
  fetchKeys "01" [[0; 1; 0; 1]; [0; 1]] "0" = Panic SliceBoundsOutOfRange.
Proof.
  apply (fetchKeys_short_key_panics "01" "0" [[0; 1; 0; 1]; [0; 1]] [0; 1]).
  - right. left. reflexivity.
  - unfold len. cbn. lia.
Defined.

(** ** readUnaryLength *)

Lemma readUnaryLoop_ones (n fuel : nat) (rest : list bool) (res : Z) :
  (n < fuel)%nat -> 0 <= res -> res + Z.of_nat n < 2 ^ 64 ->
  readUnaryLoop (list bool) nextBit fuel (repeat true n ++ false :: rest) res
  = Loaded (res + Z.of_nat n, rest).
Proof.
  revert fuel res. induction n as [|n IH]; intros [|fuel] res Hf H0 Hlt; try lia; cbn.
  - f_equal. f_equal. lia.
  - rewrite IH by (rewrite ?Z.mod_small; lia).
    rewrite Z.mod_small by lia. f_equal. f_equal. lia.
Qed.

Lemma readUnaryLoop_no_zero (n fuel : nat) (res : Z) :
  (n < fuel)%nat ->
  readUnaryLoop (list bool) nextBit fuel (repeat true n) res = LoadPanic.
Proof.
  revert fuel res. induction n as [|n IH]; intros [|fuel] res Hf; try lia; cbn.
  - reflexivity.
  - apply IH. lia.
Qed.

(** X6. On a slice that starts with n one-bits and a zero-bit,
    [readUnaryLength] returns n and leaves the slice after the zero-bit; on a
    slice of one-bits only it panics in the loader. *)
Theorem readUnaryLength_counts_ones (n fuel : nat) (rest : list bool) :
  (n < fuel)%nat -> Z.of_nat n < 2 ^ 64 ->
  readUnaryLength (list bool) nextBit fuel (repeat true n ++ false :: rest)
  = Loaded (Z.of_nat n, rest)
  /\ readUnaryLength (list bool) nextBit fuel (repeat true n) = LoadPanic.
Proof.
  intros Hf Hn. unfold readUnaryLength. split.
  - rewrite readUnaryLoop_ones by lia. reflexivity.
  - apply readUnaryLoop_no_zero. exact Hf.
Qed.

Lemma readUnaryLength_counts_ones_witness :
  readUnaryLength (list bool) nextBit 5 (repeat true 3 ++ false :: [true; false])
  = Loaded (Z.of_nat 3, [true; false])
  /\ readUnaryLength (list bool) nextBit 5 (repeat true 3) = LoadPanic.
Proof.
  apply (readUnaryLength_counts_ones 3 5 [true; false]); [lia|cbn; lia].
Defined.

(** ** parseADNLAddress *)

(** X7. A key that [parseADNLAddress] returns comes from a 55-byte literal,
    is 32 bytes long and starts with the tag byte 0x2d; the two bytes after
    the first 33 of the decoded buffer are the CRC-16/XMODEM of these 33. *)
Theorem parseADNLAddress_key_shape (U : Z -> Z) (addr : string) (key : list Z) :
  parseADNLAddress U addr = Ok key ->
  String.length addr = 55%nat
  /\ length key = 32%nat
  /\ nth 0 key 0 = 0x2d
  /\ exists buf,
       base32.DecodeString (String "F" (ToUpper U addr)) = inr buf
       /\ key = firstn 32 buf
       /\ BigEndian_Uint16 (skipn 33 buf)
          = Some (crc16.Checksum (firstn 33 buf) (crc16.MakeTable crc16.CRC16_XMODEM)).
Proof.
  unfold parseADNLAddress.
  destruct (String.length addr =? 55)%nat eqn:El; cbn [negb]; [|discriminate].
  apply Nat.eqb_eq in El.
  destruct (base32.DecodeString _) as [off|buf]; [discriminate|].
  destruct (index buf 0) as [b0|] eqn:E0; simpl; [|discriminate].
  destruct (negb (b0 =? 45)) eqn:Eb; [discriminate|].
  apply negb_false_iff, Z.eqb_eq in Eb. subst b0.
  destruct (slice buf 33 (len buf)) as [tail|] eqn:Et; simpl; [|discriminate].
  destruct (BigEndian_Uint16 tail) as [hash|] eqn:EH; simpl; [|discriminate].
  destruct (slice buf 0 33) as [body|] eqn:Ebody; simpl; [|discriminate].
  destruct (hash =? _) eqn:Ehash; cbn [negb]; [|discriminate].
  apply Z.eqb_eq in Ehash.
  destruct (slice buf 0 32) as [k|] eqn:Ek; simpl; [|discriminate].
  intros [= <-].
  apply slice_Some in Et as [Hr ->]. apply slice_Some in Ek as [Hk ->].
  apply slice_Some in Ebody as [Hb ->].
  assert (35 <= len buf) as H35.
  { destruct (firstn _ _) as [|x [|y l]] eqn:EF; try discriminate.
    assert (length (firstn (Z.to_nat (len buf - 33)) (skipn (Z.to_nat 33) buf)) >= 2)%nat
      as Hl by (rewrite EF; simpl; lia).
    rewrite length_firstn, length_skipn in Hl. unfold len in *. lia. }
  change (Z.to_nat (32 - 0)) with 32%nat. change (Z.to_nat (33 - 0)) with 33%nat.
  change (Z.to_nat 0) with 0%nat. change (Z.to_nat 33) with 33%nat in *.
  change (Z.to_nat (33 - 0)) with 33%nat in Ehash. change (Z.to_nat 0) with 0%nat in Ehash.
  change (skipn 0 buf) with buf in *.
  assert (35 <= length buf)%nat as H35' by (unfold len in H35; lia).
  split; [exact El|].
  split; [rewrite length_firstn; lia|].
  split.
  { unfold index in E0.
    destruct buf as [|x buf]; [cbn in H35'; lia|].
    destruct ((0 <=? 0) && (0 <? len (x :: buf))); cbn in E0; [|discriminate].
    injection E0 as ->. reflexivity. }
  exists buf. split; [reflexivity|]. split; [reflexivity|].
  rewrite <- Ehash, <- EH. f_equal.
  rewrite firstn_all2; [reflexivity|]. rewrite length_skipn. unfold len. lia.
Qed.

Lemma parseADNLAddress_key_shape_witness :
  String.length addr0 = 55%nat
  /\ length (0x2d :: firstn 31 key0) = 32%nat
  /\ nth 0 (0x2d :: firstn 31 key0) 0 = 0x2d
  /\ exists buf,
       base32.DecodeString (String "F" (ToUpper caseRangesRows addr0)) = inr buf
       /\ 0x2d :: firstn 31 key0 = firstn 32 buf
       /\ BigEndian_Uint16 (skipn 33 buf)
          = Some (crc16.Checksum (firstn 33 buf) (crc16.MakeTable crc16.CRC16_XMODEM)).
Proof.
  apply (parseADNLAddress_key_shape caseRangesRows addr0). vm_compute. reflexivity.
Defined.

(** *** Literals over the base-32 alphabet *)

Lemma upper_digit32_checked :
  forallb (fun c => implb (isAddrChar c) (isDigit32 (upperByte c))) (seqZ 0 256) = true.
Proof. vm_compute. reflexivity. Qed.

Lemma upper_digit32 (c : Z) : isAddrChar c = true -> isDigit32 (upperByte c) = true.
Proof.
  intros Hc.
  assert (In c (seqZ 0 256)) as Hin.
  { apply list_elem_of_In, elem_of_seqZ. unfold isAddrChar, between in Hc.
    repeat (apply orb_true_iff in Hc as [Hc|Hc]);
      apply andb_true_iff in Hc as [H1 H2]; apply Z.leb_le in H1, H2; lia. }
  pose proof (proj1 (List.forallb_forall _ _) upper_digit32_checked c Hin) as H.
  cbv beta in H. rewrite Hc in H. exact H.
Qed.

Lemma isAddrChar_ascii (c : Z) : isAddrChar c = true -> (c <? RuneSelf) = true.
Proof.
  unfold isAddrChar, between, RuneSelf. intros Hc. apply Z.ltb_lt.
  repeat (apply orb_true_iff in Hc as [Hc|Hc]);
    apply andb_true_iff in Hc as [H1 H2]; apply Z.leb_le in H1, H2; lia.
Qed.

Lemma quantum_digits (n : nat) (j : Z) (dbuf l rest : list Z) (olen : Z) :
  length l = n -> forallb isDigit32 l = true ->
  base32.quantum n j dbuf (l ++ rest) olen
  = inr (dbuf ++ map base32.decodeMap l, 8, false, rest).
Proof.
  revert j dbuf l. induction n as [|n IH]; intros j dbuf [|c l] Hlen Hl; try discriminate.
  - cbn. now rewrite app_nil_r.
  - cbn [forallb] in Hl. apply andb_true_iff in Hl as [Hc Hl].
    unfold isDigit32 in Hc. apply andb_true_iff in Hc as [Hc _].
    apply andb_true_iff in Hc as [Hd Hp].
    apply negb_true_iff in Hd, Hp.
    cbn [app base32.quantum]. rewrite Hp, Hd. cbn [andb].
    rewrite IH by (cbn in Hlen; auto; lia). cbn [map].
    now rewrite <- app_assoc.
Qed.

Lemma length_pack_8 (dbuf : list Z) : length (base32.pack dbuf 8) = 5%nat.
Proof. reflexivity. Qed.

Lemma decodeLoop_digits (k fuel : nat) (src dst : list Z) (olen : Z) :
  length src = (8 * k)%nat -> forallb isDigit32 src = true -> (k <= fuel)%nat ->
  exists out, base32.decodeLoop fuel src olen dst = inr (dst ++ out)
              /\ length out = (5 * k)%nat.
Proof.
  revert fuel src dst. induction k as [|k IH]; intros fuel src dst Hlen Hsrc Hf.
  - destruct src; [|discriminate]. exists []. rewrite app_nil_r.
    destruct fuel; auto.
  - destruct fuel as [|fuel]; [lia|].
    rewrite <- (firstn_skipn 8 src) in Hsrc |- *.
    rewrite forallb_app in Hsrc. apply andb_true_iff in Hsrc as [H1 H2].
    assert (length (firstn 8 src) = 8%nat) as Hl8 by (rewrite length_firstn; lia).
    destruct (firstn 8 src) as [|c l8] eqn:E8; [discriminate|].
    cbn [base32.decodeLoop app].
    change (c :: l8 ++ skipn 8 src) with ((c :: l8) ++ skipn 8 src).
    rewrite (quantum_digits 8 0 [] (c :: l8) _ olen Hl8 H1).
    destruct (IH fuel (skipn 8 src) (dst ++ base32.pack ([] ++ map base32.decodeMap (c :: l8)) 8))
      as (out & -> & Hout); [rewrite length_skipn; lia|exact H2|lia|].
    eexists. rewrite <- app_assoc. split; [reflexivity|].
    rewrite length_app, length_pack_8, Hout. lia.
Qed.

Lemma stripNewlines_digits (l : list Z) :
  forallb isDigit32 l = true -> base32.stripNewlines l = l.
Proof.
  unfold base32.stripNewlines. induction l as [|c l IH]; intros H; [reflexivity|].
  cbn [forallb] in H. apply andb_true_iff in H as [Hc Hl].
  unfold isDigit32 in Hc. apply andb_true_iff in Hc as [_ Hc].
  rewrite filter_cons_True by (rewrite Hc; exact I). now rewrite IH.
Qed.

(** X8. On a 55-byte literal made of base-32 letters (of either case) and
    the digits 2 to 7, [parseADNLAddress] does not panic and does not fail in
    the decoder: it returns a key, or the tag-byte error, or the checksum
    error. *)
Theorem parseADNLAddress_alphabet (U : Z -> Z) (s : string) :
  String.length s = 55%nat -> forallb isAddrChar (bytes s) = true ->
  (exists key, parseADNLAddress U s = Ok key)
  \/ parseADNLAddress U s = Err ErrInvalidFirstByte
  \/ parseADNLAddress U s = Err ErrInvalidAddress.
Proof.
  intros Hlen Hs.
  assert (isASCII s = true) as Hascii.
  { unfold isASCII. apply List.forallb_forall. intros c Hc.
    apply isAddrChar_ascii. exact (proj1 (List.forallb_forall _ _) Hs c Hc). }
  assert (forallb isDigit32 (bytes (String "F" (ToUpper U s))) = true) as Hd.
  { change (bytes (String "F" (ToUpper U s))) with (70 :: bytes (ToUpper U s)).
    cbn [forallb]. apply andb_true_iff. split; [reflexivity|].
    rewrite bytes_ToUpper_ascii by exact Hascii.
    apply List.forallb_forall. intros c Hc. apply in_map_iff in Hc as (c0 & <- & Hc0).
    apply upper_digit32. exact (proj1 (List.forallb_forall _ _) Hs c0 Hc0). }
  assert (length (bytes (String "F" (ToUpper U s))) = (8 * 7)%nat) as Hl.
  { rewrite length_bytes. cbn [String.length]. rewrite length_ToUpper by exact Hascii. lia. }
  unfold parseADNLAddress. rewrite Hlen. cbn [Nat.eqb negb].
  unfold base32.DecodeString, base32.decode.
  rewrite stripNewlines_digits by exact Hd.
  destruct (decodeLoop_digits 7 (length (bytes (String "F" (ToUpper U s)))) _ []
              (len (bytes (String "F" (ToUpper U s)))) Hl Hd)
    as (buf & -> & Hbuf); [lia|].
  cbn [app].
  assert (len buf = 35) as Hb35 by (unfold len; lia).
  assert (exists b0, index buf 0 = Some b0) as [b0 ->].
  { unfold index. rewrite Hb35. destruct buf as [|x buf]; [discriminate Hbuf|].
    exists x. reflexivity. }
  rewrite Hb35.
  rewrite !slice_in_range by lia.
  assert (exists x y, firstn (Z.to_nat (35 - 33)) (skipn (Z.to_nat 33) buf) = [x; y])
    as (x & y & ->).
  { assert (length (firstn (Z.to_nat (35 - 33)) (skipn (Z.to_nat 33) buf)) = 2%nat) as H2
      by (rewrite length_firstn, length_skipn; lia).
    destruct (firstn _ _) as [|x [|y [|? ?]]]; try discriminate H2. eauto. }
  unfold mbind, result_bind. cbn [check BigEndian_Uint16].
  destruct (negb (b0 =? 45)); [auto|].
  destruct (negb (_ =? _)); [auto|]. left. eauto.
Qed.

Lemma parseADNLAddress_alphabet_witness :
  (exists key, parseADNLAddress caseRangesRows addrLower = Ok key)
  \/ parseADNLAddress caseRangesRows addrLower = Err ErrInvalidFirstByte
  \/ parseADNLAddress caseRangesRows addrLower = Err ErrInvalidAddress.
Proof.
  apply (parseADNLAddress_alphabet caseRangesRows addrLower); reflexivity.
Defined.

(** ** The query handler *)

(** X9. The query handler never changes the transport, and it ends in one
    of two ways. Either it sends nothing and ends with the unknown-identifier
    error, the offset error, the query-type error, or a panic on the slice
    bound; or it sends exactly one answer, on the session it was installed
    for and with the identifier and the answer size of the query, and its
    result is that of the send: nil, or the send error wrapped. *)
Theorem getRLDPQueryHandler_frame (env : Env) (r : RLDP) (query : Query.t) (t : Transport) :
  let out := getRLDPQueryHandler env r query t in
  fst (fst out) = t
  /\ ((snd (fst out) = []
       /\ (snd out = Err ErrUnknownRequestId
           \/ (exists offset, snd out = Err (ErrTooBigOffset offset))
           \/ (exists type, snd out = Err (ErrUnexpectedQueryType type))
           \/ snd out = Panic SliceBoundsOutOfRange))
      \/ exists part,
           snd (fst out)
           = [EvSendAnswer r (Query.MaxAnswerSize query) (Query.ID query) part]
           /\ snd out
              = match SendAnswer env r (Query.MaxAnswerSize query) (Query.ID query) part with
                | Some e => Err (ErrFailedToSendAnswer e)
                | None => Ok tt
                end).
Proof.
  unfold getRLDPQueryHandler. destruct (Query.Data query) as [req|type]; run.
  - destruct (activeRequests t !! _) as [stream|]; cbn; [|split; auto].
    destruct (len _ <=? _); cbn; [split; [reflexivity|]; left; split; eauto|].
    destruct (slice _ _ _) as [chunk|]; cbn; [|split; [reflexivity|]; left; split; eauto 6].
    split; [destruct (SendAnswer env r _ _ _); reflexivity|].
    right. eexists. split; [destruct (SendAnswer env r _ _ _); reflexivity|].
    destruct (SendAnswer env r _ _ _); reflexivity.
  - split; [reflexivity|]. left. split; eauto 6.
Qed.

(** X10. A pull request for a registered stream whose int32 product
    seqno * c is negative, be it the product itself or what it wraps to,
    makes the handler panic: the negative offset is below the payload
    length and is used as a slice bound. No answer is sent. *)
Theorem getRLDPQueryHandler_negative_product (env : Env) (t : Transport) (r : RLDP)
    (qid id : list Z) (maxAnswer : Z) (stream : payloadStream.t) (seqno c : Z) :
  activeRequests t !! EncodeToString id = Some stream ->
  wrap32 (seqno * c) < 0 ->
  getRLDPQueryHandler env r
    (Query.mk qid maxAnswer (Query.GetNextPayloadPart (GetNextPayloadPart.mk id seqno c))) t
  = (t, [], Panic SliceBoundsOutOfRange).
Proof.
  intros Hreg Hneg.
  apply (getRLDPQueryHandler_negative_offset env t r qid id maxAnswer stream Hreg).
  exact Hneg.
Qed.

Lemma getRLDPQueryHandler_negative_product_witness :
  getRLDPQueryHandler envDown peer
    (Query.mk [9] _RLDPMaxAnswerSize
       (Query.GetNextPayloadPart (GetNextPayloadPart.mk [1] 16384 131072))) (staging [1] [7])
  = (staging [1] [7], [], Panic SliceBoundsOutOfRange)
  /\ getRLDPQueryHandler envDown peer
       (Query.mk [9] _RLDPMaxAnswerSize
          (Query.GetNextPayloadPart (GetNextPayloadPart.mk [1] (-1) 1))) (staging [1] [7])
     = (staging [1] [7], [], Panic SliceBoundsOutOfRange).
Proof.
  split.
  - apply (getRLDPQueryHandler_negative_product envDown (staging [1] [7]) peer [9] [1]
             _RLDPMaxAnswerSize (payloadStream.mk [7] 0) 16384 131072).
    + reflexivity.
    + reflexivity.
  - apply (getRLDPQueryHandler_negative_product envDown (staging [1] [7]) peer [9] [1]
             _RLDPMaxAnswerSize (payloadStream.mk [7] 0) (-1) 1).
    + reflexivity.
    + reflexivity.
Defined.

(** X11. An empty staged body cannot be pulled: every pull request for it
    with non-negative fields and a product below 2^31 fails with the offset
    error. *)
Theorem getRLDPQueryHandler_empty_body (env : Env) (t : Transport) (r : RLDP)
    (qid id : list Z) (maxAnswer : Z) (stream : payloadStream.t) (seqno c : Z) :
  activeRequests t !! EncodeToString id = Some stream ->
  payloadStream.Data stream = [] ->
  0 <= seqno -> 0 <= c < 2 ^ 31 -> seqno * c < 2 ^ 31 ->
  getRLDPQueryHandler env r
    (Query.mk qid maxAnswer (Query.GetNextPayloadPart (GetNextPayloadPart.mk id seqno c))) t
  = (t, [], Err (ErrTooBigOffset (seqno * c))).
Proof.
  intros Hreg Hempty Hs Hc Hp.
  destruct (getRLDPQueryHandler_no_wrap env t r qid id maxAnswer stream Hreg seqno c Hs Hc Hp)
    as [Hfail _].
  apply Hfail. rewrite Hempty. unfold len. cbn. nia.
Qed.

Lemma getRLDPQueryHandler_empty_body_witness :
  getRLDPQueryHandler envDown peer
    (Query.mk [9] _RLDPMaxAnswerSize
       (Query.GetNextPayloadPart (GetNextPayloadPart.mk [1] 0 131072))) (staging [1] [])
  = (staging [1] [], [], Err (ErrTooBigOffset (0 * 131072))).
Proof.
  apply (getRLDPQueryHandler_empty_body envDown (staging [1] []) peer [9] [1]
           _RLDPMaxAnswerSize (payloadStream.mk [] 0) 0 131072); try reflexivity; lia.
Defined.

(** *** The keys of the table of active requests *)

Lemma hexDigit_checked :
  forallb (fun v => 16 * fromHexChar (hexDigit (Z.shiftr v 4))
                    + fromHexChar (hexDigit (Z.land v 0x0f)) =? v)
          (seqZ 0 256) = true.
Proof. vm_compute. reflexivity. Qed.

Lemma hexDigit_value (v : Z) :
  isByte v = true ->
  16 * fromHexChar (hexDigit (Z.shiftr v 4)) + fromHexChar (hexDigit (Z.land v 0x0f)) = v.
Proof.
  intros Hv. unfold isByte in Hv. apply andb_true_iff in Hv as [H0 H1].
  apply Z.leb_le in H0. apply Z.ltb_lt in H1.
  assert (In v (seqZ 0 256)) as Hin by (apply list_elem_of_In, elem_of_seqZ; lia).
  apply (proj1 (List.forallb_forall _ _) hexDigit_checked) in Hin.
  apply Z.eqb_eq in Hin. exact Hin.
Qed.

Lemma EncodeToString_inj (a b : list Z) :
  forallb isByte a = true -> forallb isByte b = true ->
  EncodeToString a = EncodeToString b -> a = b.
Proof.
  revert b. induction a as [|x a IH]; intros [|y b] Ha Hb Heq; cbn in Heq; try discriminate.
  - reflexivity.
  - cbn [forallb] in Ha, Hb.
    apply andb_true_iff in Ha as [Hx Ha]. apply andb_true_iff in Hb as [Hy Hb].
    injection Heq as H1 H2 Hrest. f_equal; [|apply IH; assumption].
    rewrite <- (hexDigit_value x Hx), <- (hexDigit_value y Hy), H1, H2. reflexivity.
Qed.

(** X12. Bodies are staged under the hex form of the identifier, which is
    injective: staging a body for one identifier changes neither the answer
    nor the result of a pull for a different identifier. *)
Theorem getRLDPQueryHandler_other_identifier (env : Env) (r : RLDP)
    (clients : gmap string RLDP) (table : gmap string payloadStream.t)
    (id id' qid : list Z) (stream : payloadStream.t) (maxAnswer seqno c : Z) :
  forallb isByte id = true -> forallb isByte id' = true -> id <> id' ->
  let query :=
    Query.mk qid maxAnswer (Query.GetNextPayloadPart (GetNextPayloadPart.mk id' seqno c)) in
  let before := getRLDPQueryHandler env r query (mkTransport clients table) in
  let after :=
    getRLDPQueryHandler env r query
      (mkTransport clients (<[EncodeToString id := stream]> table)) in
  snd (fst after) = snd (fst before) /\ snd after = snd before.
Proof.
  intros Hid Hid' Hne query before after.
  assert (EncodeToString id <> EncodeToString id') as Hkey
    by (intros E; apply Hne; apply EncodeToString_inj; assumption).
  unfold after, before, query, getRLDPQueryHandler. run.
  rewrite lookup_insert_ne by exact Hkey.
  destruct (table !! EncodeToString id') as [s|]; cbn; [|auto].
  destruct (len _ <=? _); cbn; [auto|].
  destruct (slice _ _ _); cbn; [|auto].
  destruct (SendAnswer env r _ _ _); cbn; auto.
Qed.

Lemma getRLDPQueryHandler_other_identifier_witness :
  snd (fst (getRLDPQueryHandler envDown peer (pullRequest [2] 0 4)
              (mkTransport ∅ (<[EncodeToString [1] := payloadStream.mk [7] 0]> ∅))))
  = snd (fst (getRLDPQueryHandler envDown peer (pullRequest [2] 0 4) (mkTransport ∅ ∅)))
  /\ snd (getRLDPQueryHandler envDown peer (pullRequest [2] 0 4)
            (mkTransport ∅ (<[EncodeToString [1] := payloadStream.mk [7] 0]> ∅)))
     = snd (getRLDPQueryHandler envDown peer (pullRequest [2] 0 4) (mkTransport ∅ ∅)).
Proof.
  apply (getRLDPQueryHandler_other_identifier envDown peer ∅ ∅ [1] [2] [9]
           (payloadStream.mk [7] 0) _RLDPMaxAnswerSize 0 4); try reflexivity.
  discriminate.
Defined.

(** ** Session set-up: the directory and the endpoints *)

Section SetupMore.

Variable U : Z -> Z.
Variable env : Env.

Lemma connectRLDP_unreachable (key : list Z) (v : UDP.t) (id : string) (t : Transport) :
  unreachable env key v ->
  exists tr e,
    connectRLDP env key (addrString v) id t = (t, tr, Ok (inl e))
    /\ (NewADNL env key = None -> connects tr = [addrString v]).
Proof.
  intros Hv. unfold connectRLDP. run.
  destruct (NewADNL env key) as [e|] eqn:En; cbn.
  - eexists _, _. split; [reflexivity|]. discriminate.
  - destruct Hv as [Hv|Hv]; [congruence|].
    destruct (Connect env key (addrString v)) as [e|]; [|congruence].
    cbn. eexists _, _. split; reflexivity.
Qed.


Lemma connectLoop_cons (v : UDP.t) (rest : list UDP.t) (pubKey : list Z) (host : string)
    (rl : option RLDP) (err : option error) (tried : list string) (t : Transport) :
  connectLoop env (v :: rest) pubKey host rl err tried t
  = match connectRLDP env pubKey (addrString v) host t with
    | (t1, tr1, Ok (inr r)) => (t1, tr1 ++ [], Ok (Some r, None, tried))
    | (t1, tr1, Ok (inl e)) =>
        let '(t2, tr2, out) :=
          connectLoop env rest pubKey host None (Some e) (tried ++ [addrString v]) t1 in
        (t2, tr1 ++ tr2, out)
    | (t1, tr1, Err e) => (t1, tr1, Err e)
    | (t1, tr1, Panic p) => (t1, tr1, Panic p)
    | (t1, tr1, Diverge) => (t1, tr1, Diverge)
    end.
Proof.
  cbn [connectLoop]. unfold mbind at 1, M_bind at 1. fold (addrString v).
  destruct (connectRLDP env pubKey (addrString v) host t) as [[t1 tr1] [[e|r]| | |]];
    reflexivity.
Qed.

Lemma connects_app (a b : list event) : connects (a ++ b) = connects a ++ connects b.
Proof.
  induction a as [|ev a IH]; [reflexivity|]. destruct ev; cbn; rewrite ?IH; reflexivity.
Qed.

Lemma connectLoop_unreachable (addresses : list UDP.t) (pubKey : list Z) (host : string)
    (rl : option RLDP) (err : option error) (tried : list string) (t : Transport) :
  Forall (unreachable env pubKey) addresses ->
  exists tr rl' err',
    connectLoop env addresses pubKey host rl err tried t
    = (t, tr, Ok (rl', err', tried ++ map addrString addresses))
    /\ (addresses = [] -> rl' = rl /\ err' = err)
    /\ (addresses <> [] -> rl' = None /\ exists e, err' = Some e)
    /\ (NewADNL env pubKey = None -> connects tr = map addrString addresses).
Proof.
  intros Hall. revert rl err tried.
  induction Hall as [|v rest Hv _ IH]; intros rl err tried.
  - exists [], rl, err. cbn. rewrite app_nil_r. repeat split; auto; congruence.
  - rewrite connectLoop_cons.
    destruct (connectRLDP_unreachable pubKey v host t Hv) as (tr1 & e & -> & Hc1).
    destruct (IH None (Some e) (tried ++ [addrString v])) as (tr2 & rl' & err' & -> & H0 & H1 & Hc2).
    exists (tr1 ++ tr2), rl', err'. cbn [map]. rewrite <- app_assoc. cbn [app].
    split; [reflexivity|]. split; [discriminate|]. split.
    + intros _. destruct rest as [|w rest].
      * destruct (H0 eq_refl) as [-> ->]. eauto.
      * apply H1. discriminate.
    + intros Hn. rewrite connects_app, (Hc1 Hn), (Hc2 Hn). reflexivity.
Qed.


Lemma connectLoop_Ok (addresses : list UDP.t) (pubKey : list Z) (host : string)
    (rl : option RLDP) (err : option error) (tried : list string) (t : Transport) :
  exists t' tr out, connectLoop env addresses pubKey host rl err tried t = (t', tr, Ok out).
Proof.
  revert rl err tried t. induction addresses as [|v rest IH]; intros rl err tried t.
  - eexists _, _, _. reflexivity.
  - rewrite connectLoop_cons.
    destruct (connectRLDP env pubKey (addrString v) host t) as [[t1 tr1] r1] eqn:E.
    destruct (connectRLDP_inv env _ _ _ _ _ _ _ E) as (_ & _ & [x|x] & ->).
    + destruct (IH None (Some x) (tried ++ [addrString v]) t1) as (t2 & tr2 & out & ->).
      eexists _, _, _. reflexivity.
    + eexists _, _, _. reflexivity.
Qed.

Lemma connectLoop_cached (addresses : list UDP.t) (pubKey : list Z) (host : string)
    (err : option error) (tried : list string) (t t' : Transport) (tr : list event)
    (r : RLDP) (err' : option error) (tried' : list string) :
  connectLoop env addresses pubKey host None err tried t = (t', tr, Ok (Some r, err', tried')) ->
  rldpClients t' !! host = Some r.
Proof.
  revert err tried t tr. induction addresses as [|v rest IH]; intros err tried t tr.
  - cbn. run. intros [=].
  - rewrite connectLoop_cons.
    destruct (connectRLDP env pubKey (addrString v) host t) as [[t1 tr1] r1] eqn:E.
    pose proof E as E'. apply connectRLDP_inv in E' as (_ & _ & x & ->).
    destruct x as [e|r0].
    + destruct (connectLoop env rest pubKey host None (Some e) _ t1) as [[t2 tr2] out] eqn:E2.
      intros [= -> <- ->]. apply IH in E2. exact E2.
    + intros [= <- <- <- <- <-].
      unfold connectRLDP in E. run in E.
      destruct (NewADNL env pubKey); cbn in E; [discriminate E|].
      destruct (Connect env pubKey (addrString v)); cbn in E; [discriminate E|].
      injection E as <- _ <-. cbn. apply lookup_insert_eq.
Qed.

Lemma resolveLoop_resolve (n i : nat) (host : string) (err : option error) (t t' : Transport)
    (tr : list event) (r : result (list Z)) :
  resolveLoop env n i host err t = (t', tr, r) -> t' = t /\ Forall isResolve tr.
Proof.
  revert i err t' tr r. induction n as [|n IH]; intros i err t' tr r; cbn.
  - destruct err; run; intros H; invert_run H; auto.
  - run. destruct (Resolve env i host) as [e|site]; cbn.
    + destruct (resolveLoop env n (S i) host (Some e) t) as [[t1 tr1] r1] eqn:E.
      apply IH in E as [-> Htr].
      destruct r1; intros H; invert_run H; split; auto; repeat constructor; auto.
    + intros H. invert_run H. repeat constructor.
Qed.

(** A run of the set-up on a cache miss: name resolution (or the literal
    address), then the directory, then the endpoints. *)
Lemma acquire_miss_inv (request : http.Request) (t t1 : Transport) (tr1 : list event)
    (acq : result (option RLDP)) :
  rldpClients t !! http.Host request = None ->
  acquire U env request t = (t1, tr1, acq) ->
  (t1 = t /\ Forall isResolve tr1 /\ forall s, acq <> Ok s)
  \/ exists key pre trc,
       tr1 = pre ++ EvFindAddresses key :: trc
       /\ Forall isResolve pre
       /\ match FindAddresses env key with
          | inl e =>
              t1 = t /\ trc = []
              /\ acq = Err (ErrFindAddress (http.Host request) (EncodeToString key) e)
          | inr (addresses, pubKey) =>
              exists rl err tried,
                connectLoop env addresses pubKey (http.Host request) None None [] t
                = (t1, trc, Ok (rl, err, tried))
                /\ acq = match err with
                         | Some e => Err (ErrConnectServers tried (http.Host request) e)
                         | None => Ok rl
                         end
          end.
Proof.
  intros Hmiss. unfold acquire. unfold mbind at 1, M_bind at 1, get at 1.
  rewrite Hmiss. cbv iota beta. unfold mbind at 1, M_bind at 1.
  match goal with |- context [(if ?c then ?a else ?b) t] =>
    destruct ((if c then a else b) t) as [[t0 tr0] r0] eqn:E end.
  assert (t0 = t /\ Forall isResolve tr0) as [-> Htr0].
  { destruct (HasSuffix _ _).
    - destruct (parseADNLAddress U _); run in E; invert_run E; auto.
    - apply (resolveLoop_resolve 3 0 (http.Host request) None t) in E. exact E. }
  destruct r0 as [key| | |];
    try (intros H; invert_run H; left; repeat split; auto; discriminate).
  intros H. right. exists key, tr0.
  run in H. destruct (FindAddresses env key) as [e|[addresses pubKey]]; cbn in H.
  - invert_run H. exists []. auto.
  - destruct (connectLoop_Ok addresses pubKey (http.Host request) None None [] t)
      as (t2 & tr2 & [[rl err] tried] & E2).
    rewrite E2 in H. cbn in H. exists tr2.
    destruct err as [e|]; cbn in H; invert_run H; rewrite ?app_nil_r;
      (split; [reflexivity|]); (split; [exact Htr0|]); eexists _, _, _;
      (split; [exact E2|reflexivity]).
Qed.

Lemma acquire_cached (request : http.Request) (t t1 : Transport) (tr1 : list event)
    (rl : RLDP) :
  acquire U env request t = (t1, tr1, Ok (Some rl)) ->
  rldpClients t1 !! http.Host request = Some rl.
Proof.
  intros H. destruct (rldpClients t !! http.Host request) as [rl0|] eqn:Ehit.
  - rewrite (acquire_hit U env request t rl0 Ehit) in H. injection H as <- _ <-. exact Ehit.
  - apply (acquire_miss_inv request t t1 tr1 _ Ehit) in H
      as [(_ & _ & Hno)|(key & pre & trc & _ & _ & Hrest)]; [destruct (Hno (Some rl)); reflexivity|].
    destruct (FindAddresses env key) as [e|[addresses pubKey]];
      [destruct Hrest as (_ & _ & [=])|].
    destruct Hrest as (rl' & err & tried & Hloop & Hacq).
    destruct err; [discriminate Hacq|]. injection Hacq as <-.
    apply connectLoop_cached in Hloop. exact Hloop.
Qed.

End SetupMore.

(** ** Claims on the set-up of [RoundTrip] *)

Section SetupClaims.

Variable U : Z -> Z.
Variable env : Env.

Lemma connectLoop_attempts (addresses : list UDP.t) (pubKey : list Z) (host : string)
    (rl : option RLDP) (err : option error) (tried : list string) (t t' : Transport)
    (tr : list event) (r : result (option RLDP * option error * list string)) :
  connectLoop env addresses pubKey host rl err tried t = (t', tr, r) ->
  Forall isAttempt tr.
Proof.
  revert rl err tried t t' tr r.
  induction addresses as [|v rest IH]; intros rl err tried t t' tr r.
  - cbn. run. intros H. invert_run H. constructor.
  - rewrite connectLoop_cons.
    destruct (connectRLDP env pubKey (addrString v) host t) as [[t1 tr1] r1] eqn:E.
    assert (Forall isAttempt tr1) as Htr1.
    { unfold connectRLDP in E. run in E.
      destruct (NewADNL env pubKey); cbn in E; [invert_run E; repeat constructor|].
      destruct (Connect env pubKey (addrString v)); cbn in E; invert_run E;
        repeat constructor. }
    apply connectRLDP_inv in E as (_ & _ & x & ->). destruct x as [e|r0].
    + destruct (connectLoop env rest pubKey host None (Some e) _ t1) as [[t2 tr2] out] eqn:E2.
      apply IH in E2. intros H. invert_run H. apply Forall_app. auto.
    + intros H. invert_run H. rewrite app_nil_r. exact Htr1.
Qed.

(** The trace of a run is the trace of the set-up followed by the exchange. *)
Lemma RoundTrip_setup_inv (fuel : nat) (request : http.Request) (t t' : Transport)
    (tr : list event) (r : result http.Response) :
  RoundTrip U env fuel request t = (t', tr, r) ->
  exists t1 tr1 acq,
    acquire U env request t = (t1, tr1, acq)
    /\ rldpClients t' = rldpClients t1
    /\ ((tr = tr1 /\ forall resp, r <> Ok resp)
        \/ exists rl req staged tr2,
             acq = Ok (Some rl) /\ tr = tr1 ++ EvQuery rl req staged :: tr2
             /\ Forall (isPullOn rl) tr2)
    /\ ((forall s, acq <> Ok s) ->
        t' = t1 /\ tr = tr1
        /\ match acq with
           | Err e => r = Err e
           | Panic p => r = Panic p
           | _ => r = Diverge
           end).
Proof.
  intros H. apply RoundTrip_inv in H as (t1 & tr1 & acq & Hacq & Hrest).
  exists t1, tr1, acq. split; [exact Hacq|].
  destruct acq as [session|e|p|].
  - destruct (randRead env) as [e|src].
    { destruct Hrest as (-> & -> & ->). split; [reflexivity|].
      split; [left; split; [reflexivity|discriminate]|]. intros Hno. destruct (Hno session); reflexivity. }
    cbv zeta in Hrest.
    assert (rldpClients t' = rldpClients t1
            /\ ((tr = tr1 /\ forall resp, r <> Ok resp)
                \/ exists rl req staged tr2,
                     Ok session = Ok (Some rl) /\ tr = tr1 ++ EvQuery rl req staged :: tr2
                     /\ Forall (isPullOn rl) tr2)) as [Hc Htr].
    { destruct (http.Body request) as [[e|data]|].
      - destruct Hrest as (-> & -> & ->). split; [reflexivity|]. left.
        split; [reflexivity|discriminate].
      - destruct Hrest as [Hc Hrest]. split; [exact Hc|].
        destruct session as [rl|].
        + destruct Hrest as (tr2 & -> & Hpull & _). right. eauto 10.
        + destruct Hrest as (_ & -> & ->). left. split; [reflexivity|discriminate].
      - destruct Hrest as [Hc Hrest]. split; [exact Hc|].
        destruct session as [rl|].
        + destruct Hrest as (tr2 & -> & Hpull & _). right. eauto 10.
        + destruct Hrest as (_ & -> & ->). left. split; [reflexivity|discriminate]. }
    split; [exact Hc|]. split; [exact Htr|].
    intros Hno. destruct (Hno session); reflexivity.
  - destruct Hrest as (-> & -> & ->). split; [reflexivity|].
    split; [left; split; [reflexivity|discriminate]|]. auto.
  - destruct Hrest as (-> & -> & ->). split; [reflexivity|].
    split; [left; split; [reflexivity|discriminate]|]. auto.
  - destruct Hrest as (-> & -> & ->). split; [reflexivity|].
    split; [left; split; [reflexivity|discriminate]|]. auto.
Qed.

Lemma RoundTrip_directory_inv (fuel : nat) (request : http.Request) (t t' : Transport)
    (tr : list event) (r : result http.Response) (key : list Z) :
  rldpClients t !! http.Host request = None ->
  RoundTrip U env fuel request t = (t', tr, r) ->
  In (EvFindAddresses key) tr ->
  exists t1 acq pre trc,
    acquire U env request t = (t1, pre ++ EvFindAddresses key :: trc, acq)
    /\ Forall isResolve pre /\ Forall isAttempt trc
    /\ rldpClients t' = rldpClients t1
    /\ ((forall s, acq <> Ok s) ->
        t' = t1 /\ tr = pre ++ EvFindAddresses key :: trc
        /\ match acq with
           | Err e => r = Err e
           | Panic p => r = Panic p
           | _ => r = Diverge
           end)
    /\ (forall rl req staged, In (EvQuery rl req staged) tr -> acq = Ok (Some rl))
    /\ connects tr = connects trc
    /\ match FindAddresses env key with
       | inl e =>
           t1 = t /\ trc = []
           /\ acq = Err (ErrFindAddress (http.Host request) (EncodeToString key) e)
       | inr (addresses, pubKey) =>
           exists rl err tried,
             connectLoop env addresses pubKey (http.Host request) None None [] t
             = (t1, trc, Ok (rl, err, tried))
             /\ acq = match err with
                      | Some e => Err (ErrConnectServers tried (http.Host request) e)
                      | None => Ok rl
                      end
       end.
Proof.
  intros Hmiss Hrun Hin.
  apply RoundTrip_setup_inv in Hrun as (t1 & tr1 & acq & Hacq & Hc & Htr & Hfail).
  assert (forall l, Forall isResolve l -> ~ In (EvFindAddresses key) l) as Hres.
  { intros l Hl Hk. apply (proj1 (List.Forall_forall _ _) Hl) in Hk. exact Hk. }
  assert (forall l, Forall isResolve l -> connects l = []) as Hcres.
  { intros l Hl. induction Hl as [|ev l Hev _ IH]; [reflexivity|].
    destruct ev; cbn in *; try contradiction; exact IH. }
  assert (forall rl l, Forall (isPullOn rl) l ->
            connects l = [] /\ ~ In (EvFindAddresses key) l
            /\ forall rl' req staged, ~ In (EvQuery rl' req staged) l) as Hpull.
  { intros rl l Hl. induction Hl as [|ev l Hev _ (IH1 & IH2 & IH3)].
    - repeat split; auto.
    - destruct ev; cbn in *; try contradiction. repeat split; auto.
      + intros [[=]|Hk]. contradiction.
      + intros rl' q st [[=]|Hk]. exact (IH3 _ _ _ Hk). }
  assert (forall l, Forall isAttempt l ->
            ~ In (EvFindAddresses key) l
            /\ forall rl' req staged, ~ In (EvQuery rl' req staged) l) as Hatt.
  { intros l Hl. split; [|intros rl' req staged]; intros Hk;
      apply (proj1 (List.Forall_forall _ _) Hl) in Hk; exact Hk. }
  assert (forall l rl' req staged, Forall isResolve l -> ~ In (EvQuery rl' req staged) l)
    as Hresq.
  { intros l rl' req staged Hl Hk. apply (proj1 (List.Forall_forall _ _) Hl) in Hk. exact Hk. }
  pose proof Hacq as Hacq'.
  apply (acquire_miss_inv U env request t t1 tr1 acq Hmiss) in Hacq'
    as [(_ & Hr & Hno)|(key0 & pre & trc & -> & Hpre & Hrest)].
  { destruct (Hfail Hno) as (_ & -> & _). destruct (Hres _ Hr Hin). }
  assert (Forall isAttempt trc) as Htrc.
  { destruct (FindAddresses env key0) as [e|[addresses pubKey]].
    - destruct Hrest as (_ & -> & _). constructor.
    - destruct Hrest as (rl & err & tried & Hloop & _).
      apply connectLoop_attempts in Hloop. exact Hloop. }
  destruct (Hatt trc Htrc) as [Hatt1 Hatt2].
  assert (key0 = key) as ->.
  { destruct Htr as [[-> _]|(rl & req & staged & tr2 & _ & -> & Hp)].
    - apply in_app_or in Hin as [Hk|[[= ->]|Hk]]; [destruct (Hres _ Hpre Hk)|reflexivity|].
      contradiction.
    - destruct (Hpull rl tr2 Hp) as (_ & Hp2 & _).
      apply in_app_or in Hin as [Hk|[[=]|Hk]]; [|contradiction].
      apply in_app_or in Hk as [Hk|[[= ->]|Hk]]; [destruct (Hres _ Hpre Hk)|reflexivity|].
      contradiction. }
  exists t1, acq, pre, trc.
  split; [exact Hacq|]. split; [exact Hpre|]. split; [exact Htrc|]. split; [exact Hc|].
  split; [exact Hfail|]. split; [|split; [|exact Hrest]].
  - intros rl req staged Hq.
    destruct Htr as [[-> _]|(rl0 & req0 & staged0 & tr2 & -> & -> & Hp)].
    + apply in_app_or in Hq as [Hk|[[=]|Hk]]; [destruct (Hresq _ _ _ _ Hpre Hk)|].
      destruct (Hatt2 _ _ _ Hk).
    + destruct (Hpull rl0 tr2 Hp) as (_ & _ & Hp3).
      apply in_app_or in Hq as [Hk|[[= -> _ _]|Hk]]; [|reflexivity|destruct (Hp3 _ _ _ Hk)].
      apply in_app_or in Hk as [Hk|[[=]|Hk]]; [destruct (Hresq _ _ _ _ Hpre Hk)|].
      destruct (Hatt2 _ _ _ Hk).
  - destruct Htr as [[-> _]|(rl0 & req0 & staged0 & tr2 & _ & -> & Hp)].
    + rewrite connects_app, (Hcres _ Hpre). reflexivity.
    + destruct (Hpull rl0 tr2 Hp) as (Hp1 & _ & _).
      rewrite !connects_app, (Hcres _ Hpre). cbn. rewrite Hp1, app_nil_r. reflexivity.
Qed.

End SetupClaims.

Section SetupTheorems.

Variable U : Z -> Z.
Variable env : Env.

Lemma RoundTrip_setup_error (fuel : nat) (request : http.Request) (t t1 : Transport)
    (tr1 : list event) (e : error) :
  acquire U env request t = (t1, tr1, Err e) ->
  RoundTrip U env fuel request t = (t1, tr1, Err e).
Proof.
  intros H. unfold RoundTrip. unfold mbind at 1, M_bind at 1. rewrite H. reflexivity.
Qed.

(** X13. A host that is neither cached nor a literal address is resolved at
    most three times, 50 ms apart; when all three attempts fail, [RoundTrip]
    returns the resolution error with the last cause, has contacted neither
    the directory nor any endpoint, and leaves the transport as it was. *)
Theorem RoundTrip_resolve_exhausted (fuel : nat) (request : http.Request) (t : Transport)
    (e0 e1 e2 : error) :
  rldpClients t !! http.Host request = None ->
  HasSuffix (http.Host request) ".adnl" = false ->
  Resolve env 0 (http.Host request) = inl e0 ->
  Resolve env 1 (http.Host request) = inl e1 ->
  Resolve env 2 (http.Host request) = inl e2 ->
  RoundTrip U env fuel request t
  = (t, [EvResolve (http.Host request); EvSleep 50;
         EvResolve (http.Host request); EvSleep 50;
         EvResolve (http.Host request); EvSleep 50],
     Err (ErrResolveHost (http.Host request) e2)).
Proof.
  intros Hmiss Hsuf H0 H1 H2. apply RoundTrip_setup_error.
  unfold acquire. unfold mbind at 1, M_bind at 1, get at 1.
  rewrite Hmiss, Hsuf. cbn [resolveLoop]. run. rewrite H0. cbn. rewrite H1. cbn.
  rewrite H2. reflexivity.
Qed.

(** X14. Resolution stops at the first attempt that succeeds, and the site
    record of the resolved domain is the key looked up in the directory. *)
Theorem RoundTrip_resolve_stops (fuel : nat) (request : http.Request) (t t' : Transport)
    (tr : list event) (r : result http.Response) (i : nat) (site : list Z) :
  rldpClients t !! http.Host request = None ->
  HasSuffix (http.Host request) ".adnl" = false ->
  (i < 3)%nat ->
  (forall j, (j < i)%nat -> exists e, Resolve env j (http.Host request) = inl e) ->
  Resolve env i (http.Host request) = inr site ->
  RoundTrip U env fuel request t = (t', tr, r) ->
  exists rest,
    tr = concat (repeat [EvResolve (http.Host request); EvSleep 50] i)
         ++ EvResolve (http.Host request) :: EvFindAddresses site :: rest.
Proof.
  intros Hmiss Hsuf Hi Hfail Hok Hrun.
  apply RoundTrip_setup_inv in Hrun as (t1 & tr1 & acq & Hacq & _ & Htr & _).
  assert (exists rest1,
            tr1 = concat (repeat [EvResolve (http.Host request); EvSleep 50] i)
                  ++ EvResolve (http.Host request) :: EvFindAddresses site :: rest1)
    as [rest1 ->].
  { revert Hacq. unfold acquire. unfold mbind at 1, M_bind at 1, get at 1.
    rewrite Hmiss, Hsuf. cbn [resolveLoop]. run.
    assert (forall (k : M (option RLDP)) x,
              (let '(t2, tr2, r0) := k t in (t2, EvFindAddresses site :: tr2, r0))
              = x -> exists rest1, snd (fst x) = EvFindAddresses site :: rest1) as Hk.
    { intros k x <-. destruct (k t) as [[t2 tr2] r0]. eauto. }
    destruct i as [|[|[|i]]]; [| | |lia].
    - rewrite Hok. cbn.
      destruct (FindAddresses env site) as [e|[addresses pubKey]]; cbn.
      + intros [= <- <- <-]. eauto.
      + destruct (connectLoop env addresses pubKey _ None None [] t) as [[t2 tr2] [[[? [?|]] ?]| | |]];
          cbn; intros [= <- <- <-]; eauto.
    - destruct (Hfail 0%nat ltac:(lia)) as [e ->]. cbn. rewrite Hok. cbn.
      destruct (FindAddresses env site) as [e'|[addresses pubKey]]; cbn.
      + intros [= <- <- <-]. eauto.
      + destruct (connectLoop env addresses pubKey _ None None [] t) as [[t2 tr2] [[[? [?|]] ?]| | |]];
          cbn; intros [= <- <- <-]; eauto.
    - destruct (Hfail 0%nat ltac:(lia)) as [e ->]. cbn.
      destruct (Hfail 1%nat ltac:(lia)) as [e' ->]. cbn. rewrite Hok. cbn.
      destruct (FindAddresses env site) as [e''|[addresses pubKey]]; cbn.
      + intros [= <- <- <-]. eauto.
      + destruct (connectLoop env addresses pubKey _ None None [] t) as [[t2 tr2] [[[? [?|]] ?]| | |]];
          cbn; intros [= <- <- <-]; eauto. }
  destruct Htr as [[-> _]|(rl & req & staged & tr2 & _ & -> & _)].
  - eauto.
  - rewrite <- app_assoc. cbn [app]. eauto.
Qed.

(** X15. A host with the literal-address suffix whose literal is rejected
    by the codec is answered with the parse error: nothing is sent to the
    network and the transport is left as it was. *)
Theorem RoundTrip_literal_rejected (fuel : nat) (request : http.Request) (t : Transport)
    (e : error) :
  rldpClients t !! http.Host request = None ->
  HasSuffix (http.Host request) ".adnl" = true ->
  parseADNLAddress U (substring 0 (String.length (http.Host request) - 5) (http.Host request))
  = Err e ->
  RoundTrip U env fuel request t = (t, [], Err (ErrParseAdnlAddress (http.Host request) e)).
Proof.
  intros Hmiss Hsuf Hparse. apply RoundTrip_setup_error.
  unfold acquire. unfold mbind at 1, M_bind at 1, get at 1.
  rewrite Hmiss, Hsuf, Hparse. reflexivity.
Qed.

(** X16. When the directory lookup fails, [RoundTrip] returns the lookup
    error with the host and the hex form of the key; no connection is
    attempted, no query is sent and the transport is left as it was. *)
Theorem RoundTrip_directory_error (fuel : nat) (request : http.Request) (t t' : Transport)
    (tr : list event) (r : result http.Response) (key : list Z) (e : error) :
  rldpClients t !! http.Host request = None ->
  RoundTrip U env fuel request t = (t', tr, r) ->
  In (EvFindAddresses key) tr ->
  FindAddresses env key = inl e ->
  t' = t
  /\ r = Err (ErrFindAddress (http.Host request) (EncodeToString key) e)
  /\ connects tr = []
  /\ forall rl req staged, ~ In (EvQuery rl req staged) tr.
Proof.
  intros Hmiss Hrun Hin Hfind.
  destruct (RoundTrip_directory_inv U env fuel request t t' tr r key Hmiss Hrun Hin)
    as (t1 & acq & pre & trc & _ & _ & _ & _ & Hfail & Hq & Hc & Hrest).
  rewrite Hfind in Hrest. destruct Hrest as (-> & -> & ->).
  destruct (Hfail ltac:(discriminate)) as (-> & _ & ->).
  repeat split; auto. intros rl req staged Hk. apply Hq in Hk. discriminate Hk.
Qed.

(** X17. When the directory names endpoints and none can be connected to,
    every endpoint is tried once, in the order of the directory, and
    [RoundTrip] returns the connection error with all of them; no query is
    sent and the session cache is left as it was. *)
Theorem RoundTrip_all_unreachable (fuel : nat) (request : http.Request) (t t' : Transport)
    (tr : list event) (r : result http.Response) (key pubKey : list Z)
    (addresses : list UDP.t) :
  rldpClients t !! http.Host request = None ->
  RoundTrip U env fuel request t = (t', tr, r) ->
  In (EvFindAddresses key) tr ->
  FindAddresses env key = inr (addresses, pubKey) ->
  addresses <> [] ->
  Forall (unreachable env pubKey) addresses ->
  t' = t
  /\ (exists e,
        r = Err (ErrConnectServers (map addrString addresses) (http.Host request) e))
  /\ (NewADNL env pubKey = None -> connects tr = map addrString addresses)
  /\ forall rl req staged, ~ In (EvQuery rl req staged) tr.
Proof.
  intros Hmiss Hrun Hin Hfind Hne Hall.
  destruct (RoundTrip_directory_inv U env fuel request t t' tr r key Hmiss Hrun Hin)
    as (t1 & acq & pre & trc & _ & _ & _ & _ & Hfail & Hq & Hc & Hrest).
  rewrite Hfind in Hrest. destruct Hrest as (rl & err & tried & Hloop & ->).
  destruct (connectLoop_unreachable env addresses pubKey (http.Host request) None None [] t Hall)
    as (tr0 & rl' & err' & Hloop' & _ & Hsome & Hconn).
  rewrite Hloop' in Hloop. injection Hloop as <- <- <- <- <-.
  destruct (Hsome Hne) as (-> & e & ->).
  destruct (Hfail ltac:(discriminate)) as (-> & _ & ->).
  split; [reflexivity|]. split; [eauto|]. split.
  - intros Hn. rewrite Hc. auto.
  - intros rl req staged Hk. apply Hq in Hk. discriminate Hk.
Qed.


End SetupTheorems.

Lemma RoundTrip_resolve_exhausted_witness :
  RoundTrip caseRangesRows envDown 0 getNamed NewTransport
  = (NewTransport,
     [EvResolve (http.Host getNamed); EvSleep 50;
      EvResolve (http.Host getNamed); EvSleep 50;
      EvResolve (http.Host getNamed); EvSleep 50],
     Err (ErrResolveHost (http.Host getNamed) (ErrExternal "resolve"))).
Proof.
  apply (RoundTrip_resolve_exhausted caseRangesRows envDown 0 getNamed NewTransport
           (ErrExternal "resolve") (ErrExternal "resolve") (ErrExternal "resolve"));
    reflexivity.
Defined.

Lemma RoundTrip_resolve_stops_witness :
  exists rest,
    snd (fst (RoundTrip caseRangesRows envUp 1 getNamed NewTransport))
    = concat (repeat [EvResolve (http.Host getNamed); EvSleep 50] 0)
      ++ EvResolve (http.Host getNamed) :: EvFindAddresses key0 :: rest.
Proof.
  destruct (RoundTrip caseRangesRows envUp 1 getNamed NewTransport) as [[t' tr] r] eqn:E.
  apply (RoundTrip_resolve_stops caseRangesRows envUp 1 getNamed NewTransport t' tr r 0 key0).
  - reflexivity.
  - reflexivity.
  - lia.
  - intros j Hj. lia.
  - reflexivity.
  - exact E.
Defined.

Lemma RoundTrip_literal_rejected_witness :
  RoundTrip caseRangesRows envDown 0 getShortLiteral NewTransport
  = (NewTransport, [], Err (ErrParseAdnlAddress (http.Host getShortLiteral) ErrWrongIdLength)).
Proof.
  apply (RoundTrip_literal_rejected caseRangesRows envDown 0 getShortLiteral NewTransport
           ErrWrongIdLength); reflexivity.
Defined.

Lemma RoundTrip_directory_error_witness :
  exists t' tr r,
    RoundTrip caseRangesRows envDown 0 getLiteral NewTransport = (t', tr, r)
    /\ t' = NewTransport
    /\ r = Err (ErrFindAddress (http.Host getLiteral)
                  (EncodeToString (0x2d :: firstn 31 key0)) (ErrExternal "dht"))
    /\ connects tr = []
    /\ forall rl req staged, ~ In (EvQuery rl req staged) tr.
Proof.
  do 3 eexists. split; [vm_compute; reflexivity|].
  refine (RoundTrip_directory_error caseRangesRows envDown 0 getLiteral NewTransport
            _ _ _ (0x2d :: firstn 31 key0) (ErrExternal "dht") _ _ _ _).
  - reflexivity.
  - vm_compute. reflexivity.
  - left. reflexivity.
  - reflexivity.
Defined.

Lemma RoundTrip_all_unreachable_witness :
  exists t' tr r,
    RoundTrip caseRangesRows envUnreachable 0 getLiteral NewTransport = (t', tr, r)
    /\ t' = NewTransport
    /\ (exists e,
          r = Err (ErrConnectServers (map addrString [endpointA; endpointB])
                     (http.Host getLiteral) e))
    /\ (NewADNL envUnreachable [1; 2; 3] = None
        -> connects tr = map addrString [endpointA; endpointB])
    /\ forall rl req staged, ~ In (EvQuery rl req staged) tr.
Proof.
  do 3 eexists. split; [vm_compute; reflexivity|].
  refine (RoundTrip_all_unreachable caseRangesRows envUnreachable 0 getLiteral NewTransport
            _ _ _ (0x2d :: firstn 31 key0) [1; 2; 3] [endpointA; endpointB] _ _ _ _ _ _).
  - reflexivity.
  - vm_compute. reflexivity.
  - left. reflexivity.
  - reflexivity.
  - discriminate.
  - apply List.Forall_cons; [right; discriminate|].
    apply List.Forall_cons; [right; discriminate|]. apply List.Forall_nil.
Defined.


(** ** The exchange *)

Lemma setHeaders_app (a b : list Header.t) (m : gmap string (list string)) :
  setHeaders (a ++ b) m = setHeaders b (setHeaders a m).
Proof. unfold setHeaders. apply fold_left_app. Qed.

Lemma setHeaders_lookup (hs : list Header.t) (m : gmap string (list string)) (name : string) :
  setHeaders hs m !! name
  = match lastValue name hs with
    | Some v => Some [v]
    | None => m !! name
    end.
Proof.
  revert m. induction hs as [|h hs IH]; intros m; [reflexivity|].
  change (setHeaders (h :: hs) m) with (setHeaders hs (<[Header.Name h := [Header.Value h]]> m)).
  rewrite IH. cbn [lastValue]. destruct (lastValue name hs) as [v|]; [reflexivity|].
  destruct (String.eqb_spec (Header.Name h) name) as [->|Hne].
  - apply lookup_insert_eq.
  - apply lookup_insert_ne. exact Hne.
Qed.

Lemma pulls_S (rl : RLDP) (qid : list Z) (k : nat) :
  pulls rl qid (S k) = pulls rl qid k ++ [EvQueryPart rl (nextPart qid k)].
Proof. unfold pulls. rewrite seq_S, map_app. reflexivity. Qed.

Lemma length_pulls (rl : RLDP) (qid : list Z) (k : nat) : length (pulls rl qid k) = k.
Proof. unfold pulls. rewrite length_map, length_seq. reflexivity. Qed.

Section ExchangeEquations.

Variable U : Z -> Z.
Variable env : Env.

(** The loop after [k] parts that were not the last. *)
Lemma pullLoop_parts (rl : RLDP) (qid : list Z) (t : Transport) (more : list PayloadPart.t) :
  forall (fuel : nat) (k : nat) (buf : list Z) (trailer : gmap string (list string)),
    Z.of_nat (k + length more) < 2 ^ 31 ->
    (forall i part, more !! i = Some part ->
       DoQueryPart env rl (nextPart qid (k + i)) = inr part
       /\ PayloadPart.IsLast part = false) ->
    pullLoop env (length more + fuel) rl qid false (Z.of_nat k) buf trailer t
    = let '(t', tr', r') :=
        pullLoop env fuel rl qid false (Z.of_nat (k + length more))
                 (buf ++ concat (map PayloadPart.Data more))
                 (setHeaders (concat (map PayloadPart.Trailer more)) trailer) t in
      (t', map (fun i => EvQueryPart rl (nextPart qid (k + i))) (seq 0 (length more)) ++ tr',
       r').
Proof.
  induction more as [|part more IH]; intros fuel k buf trailer Hk Hparts.
  - cbn [length concat map seq app]. rewrite Nat.add_0_r, app_nil_r. cbn [Nat.add].
    destruct (pullLoop env fuel rl qid false (Z.of_nat k) buf (setHeaders [] trailer) t)
      as [[t' tr'] r'] eqn:E. exact E.
  - destruct (Hparts 0%nat part eq_refl) as [Hq Hl]. rewrite Nat.add_0_r in Hq.
    cbn [length Nat.add pullLoop]. run. unfold nextPart in Hq. rewrite Hq. cbn. rewrite Hl.
    cbn [length] in Hk.
    rewrite wrap32_small by lia.
    replace (Z.of_nat k + 1) with (Z.of_nat (S k)) by lia.
    rewrite IH.
    + replace (S k + length more)%nat with (k + S (length more))%nat by lia.
      rewrite <- app_assoc, setHeaders_app.
      destruct (pullLoop env fuel rl qid false _ _ _ t) as [[t' tr'] r'].
      rewrite Nat.add_0_r. cbn [map]. rewrite <- seq_shift, map_map.
      rewrite (map_ext (fun i => EvQueryPart rl (nextPart qid (S k + i)))
                       (fun i => EvQueryPart rl (nextPart qid (k + S i))))
        by (intros i; replace (S k + i)%nat with (k + S i)%nat by lia; reflexivity).
      reflexivity.
    + lia.
    + intros i p Hi. replace (S k + i)%nat with (k + S i)%nat by lia. apply (Hparts (S i)).
      exact Hi.
Qed.

Lemma RoundTrip_answered (fuel : nat) (request : http.Request) (t t1 : Transport)
    (tr1 : list event) (rl : RLDP) (src : list Z) (res : Response.t) :
  acquire U env request t = (t1, tr1, Ok (Some rl)) ->
  randRead env = inr src ->
  (forall e, http.Body request <> Some (inl e)) ->
  DoQuery env rl (requestOf request src) = inr res ->
  let qid := Read src (repeat 0 32) in
  let staged := stagedWith env qid (http.Body request) (activeRequests t1) in
  let t2 := mkTransport (rldpClients t1) (delete (EncodeToString qid) staged) in
  RoundTrip U env fuel request t
  = match declaredLength request with
    | inl e => (t2, tr1 ++ [EvQuery rl (requestOf request src) staged], Err e)
    | inr n =>
        if 0 <? n then
          if maxAlloc env <? n
          then (t2, tr1 ++ [EvQuery rl (requestOf request src) staged],
                Panic MakesliceCapOutOfRange)
          else
            let '(t3, tr3, r3) := pullLoop env fuel rl qid (Response.NoPayload res) 0 [] ∅ t2 in
            (t3, tr1 ++ EvQuery rl (requestOf request src) staged :: tr3,
             match r3 with
             | Ok (buf, trailer) => Ok (responseOf request res n buf trailer)
             | Err e => Err e
             | Panic p => Panic p
             | Diverge => Diverge
             end)
        else (t2, tr1 ++ [EvQuery rl (requestOf request src) staged],
              Ok (responseOf request res n [] ∅))
    end.
Proof.
  intros Hacq Hrand Hbody Hq qid staged t2. subst t2 staged qid.
  unfold RoundTrip. unfold mbind at 1, M_bind at 1. rewrite Hacq, Hrand.
  unfold requestOf in *. unfold declaredLength, stagedWith, responseOf.
  remember (Read src (repeat 0 32)) as qid eqn:Eqid.
  remember (Request.mk qid _ _ _ _) as req eqn:Ereq.
  destruct (http.Body request) as [[e|data]|]; [destruct (Hbody e); reflexivity| |].
  - run. rewrite Hq. cbn.
    destruct (http.lookupHeader _ _) as [[|ln0 lns]|]; cbn.
    all: try destruct (strconv.ParseInt ln0) as [e|n]; cbn; try reflexivity.
    destruct (0 <? n); cbn; [|reflexivity].
    destruct (maxAlloc env <? n); cbn; [reflexivity|].
    destruct (pullLoop env fuel rl qid _ 0 [] ∅ _) as [[t3 tr3] [[buf trailer]| | |]];
      cbn; rewrite ?app_nil_r; reflexivity.
  - run. rewrite Hq. cbn.
    destruct (http.lookupHeader _ _) as [[|ln0 lns]|]; cbn.
    all: try destruct (strconv.ParseInt ln0) as [e|n]; cbn; try reflexivity.
    destruct (0 <? n); cbn; [|reflexivity].
    destruct (maxAlloc env <? n); cbn; [reflexivity|].
    destruct (pullLoop env fuel rl qid _ 0 [] ∅ _) as [[t3 tr3] [[buf trailer]| | |]];
      cbn; rewrite ?app_nil_r; reflexivity.
Qed.

End ExchangeEquations.

Section ExchangeInversion.

Variable U : Z -> Z.
Variable env : Env.

Lemma pullLoop_never_last (rl : RLDP) (qid : list Z) (t : Transport) :
  (forall q, exists part, DoQueryPart env rl q = inr part /\ PayloadPart.IsLast part = false) ->
  forall (fuel : nat) (seqno : Z) (buf : list Z) (trailer : gmap string (list string)),
  exists tr,
    pullLoop env fuel rl qid false seqno buf trailer t = (t, tr, Diverge)
    /\ length tr = fuel.
Proof.
  intros Hpeer. induction fuel as [|fuel IH]; intros seqno buf trailer.
  - exists []. split; reflexivity.
  - cbn [pullLoop]. run.
    destruct (Hpeer (GetNextPayloadPart.mk qid seqno _ChunkSize)) as (part & -> & ->). cbn.
    destruct (IH (wrap32 (seqno + 1)) (buf ++ PayloadPart.Data part)
                 (setHeaders (PayloadPart.Trailer part) trailer)) as (tr & -> & Hlen).
    eexists. split; [reflexivity|]. cbn. rewrite Hlen. reflexivity.
Qed.

Lemma pullLoop_last (fuel : nat) (rl : RLDP) (qid : list Z) (i : nat) (part : PayloadPart.t)
    (buf : list Z) (trailer : gmap string (list string)) (t : Transport) :
  DoQueryPart env rl (nextPart qid i) = inr part ->
  PayloadPart.IsLast part = true ->
  pullLoop env (S fuel) rl qid false (Z.of_nat i) buf trailer t
  = (t, [EvQueryPart rl (nextPart qid i)],
     Ok (buf ++ PayloadPart.Data part, setHeaders (PayloadPart.Trailer part) trailer)).
Proof.
  intros Hq Hl. cbn [pullLoop]. run. unfold nextPart in *. rewrite Hq. cbn. rewrite Hl.
  destruct fuel; reflexivity.
Qed.

Lemma pullLoop_error (fuel : nat) (rl : RLDP) (qid : list Z) (i : nat) (e : error)
    (buf : list Z) (trailer : gmap string (list string)) (t : Transport) :
  DoQueryPart env rl (nextPart qid i) = inl e ->
  pullLoop env (S fuel) rl qid false (Z.of_nat i) buf trailer t
  = (t, [EvQueryPart rl (nextPart qid i)], Err (ErrQueryPart (Z.of_nat i) e)).
Proof.
  intros Hq. cbn [pullLoop]. run. unfold nextPart in *. rewrite Hq. reflexivity.
Qed.

Lemma connectRLDP_clients (key : list Z) (addr id : string) (t t' : Transport)
    (tr : list event) (r : result (error + RLDP)) :
  connectRLDP env key addr id t = (t', tr, r) ->
  forall h, h <> id -> rldpClients t' !! h = rldpClients t !! h.
Proof.
  unfold connectRLDP. run. intros H h Hh.
  destruct (NewADNL env key); [invert_run H; reflexivity|].
  cbn in H. destruct (Connect env key addr); invert_run H; [reflexivity|].
  cbn. apply lookup_insert_ne. congruence.
Qed.

Lemma connectLoop_clients (addresses : list UDP.t) (pubKey : list Z) (host : string)
    (rl : option RLDP) (err : option error) (tried : list string) (t t' : Transport)
    (tr : list event) (r : result (option RLDP * option error * list string)) :
  connectLoop env addresses pubKey host rl err tried t = (t', tr, r) ->
  forall h, h <> host -> rldpClients t' !! h = rldpClients t !! h.
Proof.
  revert rl err tried t t' tr r.
  induction addresses as [|v rest IH]; intros rl err tried t t' tr r.
  - cbn. run. intros H. invert_run H. reflexivity.
  - rewrite connectLoop_cons.
    destruct (connectRLDP env pubKey (addrString v) host t) as [[t1 tr1] r1] eqn:E.
    pose proof (connectRLDP_clients _ _ _ _ _ _ _ E) as Hc.
    apply connectRLDP_inv in E as (_ & _ & x & ->).
    destruct x as [e|r0].
    + destruct (connectLoop env rest pubKey host None (Some e) _ t1) as [[t2 tr2] r2] eqn:E2.
      cbv zeta. intros H h Hh. invert_run H. rewrite (IH _ _ _ _ _ _ _ E2 h Hh). auto.
    + intros H h Hh. invert_run H. auto.
Qed.

Lemma acquire_clients (request : http.Request) (t t1 : Transport) (tr1 : list event)
    (acq : result (option RLDP)) :
  acquire U env request t = (t1, tr1, acq) ->
  forall h, h <> http.Host request -> rldpClients t1 !! h = rldpClients t !! h.
Proof.
  intros H h Hh. destruct (rldpClients t !! http.Host request) as [rl|] eqn:Ehit.
  - rewrite (acquire_hit U env request t rl Ehit) in H. injection H as <- _ _. reflexivity.
  - apply (acquire_miss_inv U env request t t1 tr1 _ Ehit) in H
      as [(-> & _)|(key & pre & trc & _ & _ & Hrest)]; [reflexivity|].
    destruct (FindAddresses env key) as [e|[addresses pubKey]].
    + destruct Hrest as (-> & _). reflexivity.
    + destruct Hrest as (rl' & err & tried & Hloop & _).
      apply (connectLoop_clients _ _ _ _ _ _ _ _ _ _ Hloop h Hh).
Qed.

Lemma resolveLoop_first (n i : nat) (host : string) (err : option error) (t t' : Transport)
    (tr : list event) (r : result (list Z)) :
  resolveLoop env (S n) i host err t = (t', tr, r) ->
  exists rest, tr = EvResolve host :: rest.
Proof.
  cbn [resolveLoop]. run. destruct (Resolve env i host) as [e|site]; cbn.
  - destruct (resolveLoop env n (S i) host (Some e) t) as [[t1 tr1] r1].
    destruct r1; intros H; invert_run H; eauto.
  - intros H. invert_run H. eauto.
Qed.

Lemma acquire_resolves_first (request : http.Request) (t t1 : Transport) (tr1 : list event)
    (acq : result (option RLDP)) :
  rldpClients t !! http.Host request = None ->
  HasSuffix (http.Host request) ".adnl" = false ->
  acquire U env request t = (t1, tr1, acq) ->
  exists rest, tr1 = EvResolve (http.Host request) :: rest.
Proof.
  intros Hmiss Hsuf. unfold acquire. unfold mbind at 1, M_bind at 1, get at 1.
  rewrite Hmiss, Hsuf. cbv iota beta. unfold mbind at 1, M_bind at 1.
  destruct (resolveLoop env 3 0 (http.Host request) None t) as [[t0 tr0] r0] eqn:E.
  apply resolveLoop_first in E as [rest ->].
  destruct r0 as [key| | |]; try (intros H; invert_run H; eauto; fail).
  intros H. run in H. destruct (FindAddresses env key) as [e|[addresses pubKey]]; cbn in H.
  - invert_run H. eauto.
  - destruct (connectLoop env addresses pubKey _ None None [] t0)
      as [[t2 tr2] [[[rl err] tried]| | |]]; cbn in H; [destruct err; cbn in H|..];
      invert_run H; eauto.
Qed.

(** What a run that sent the query had before it. *)
Lemma RoundTrip_query_acquired (fuel : nat) (request : http.Request) (t t' : Transport)
    (tr : list event) (r : result http.Response) (rl : RLDP) (req : Request.t)
    (staged : gmap string payloadStream.t) :
  RoundTrip U env fuel request t = (t', tr, r) ->
  In (EvQuery rl req staged) tr ->
  exists t1 tr1 src,
    acquire U env request t = (t1, tr1, Ok (Some rl))
    /\ randRead env = inr src
    /\ req = requestOf request src
    /\ staged = stagedWith env (Read src (repeat 0 32)) (http.Body request) (activeRequests t1)
    /\ (forall e, http.Body request <> Some (inl e)).
Proof.
  intros Hrun Hin.
  destruct (RoundTrip_query U env fuel request t t' tr r rl req staged Hrun Hin)
    as (src & Hrand & -> & -> & Hbody).
  destruct (RoundTrip_setup_inv U env fuel request t t' tr r Hrun)
    as (t1 & tr1 & acq & Hacq & _ & Htr & _).
  pose proof (acquire_inv U env request t t1 tr1 acq Hacq) as [Ha Hsetup].
  destruct Htr as [[-> _]|(rl0 & req0 & staged0 & tr2 & -> & -> & Hpull)].
  - exfalso. rewrite List.Forall_forall in Hsetup. apply (Hsetup _ Hin).
  - destruct (query_in_trace _ _ _ _ _ _ _ _ Hsetup Hpull Hin) as (<- & _ & _).
    exists t1, tr1, src. rewrite Ha. repeat split; auto.
Qed.

(** What a run that returned a response went through. *)
Lemma RoundTrip_Ok_inv (fuel : nat) (request : http.Request) (t t' : Transport)
    (tr : list event) (resp : http.Response) :
  RoundTrip U env fuel request t = (t', tr, Ok resp) ->
  exists t1 tr1 rl src res n buf trailer tr3,
    acquire U env request t = (t1, tr1, Ok (Some rl))
    /\ randRead env = inr src
    /\ DoQuery env rl (requestOf request src) = inr res
    /\ declaredLength request = inr n
    /\ resp = responseOf request res n buf trailer
    /\ tr = tr1
            ++ EvQuery rl (requestOf request src)
                 (stagedWith env (Read src (repeat 0 32)) (http.Body request)
                    (activeRequests t1))
            :: tr3
    /\ (if 0 <? n
        then exists t2,
               pullLoop env fuel rl (Read src (repeat 0 32)) (Response.NoPayload res) 0 [] ∅ t2
               = (t', tr3, Ok (buf, trailer))
        else buf = [] /\ trailer = ∅ /\ tr3 = []).
Proof.
  intros Hrun.
  destruct (RoundTrip_setup_inv U env fuel request t t' tr (Ok resp) Hrun)
    as (t1 & tr1 & acq & Hacq & _ & Htr & _).
  destruct Htr as [[_ Hno]|(rl & req & staged & tr2 & -> & -> & Hpull)];
    [destruct (Hno resp); reflexivity|].
  assert (In (EvQuery rl req staged) (tr1 ++ EvQuery rl req staged :: tr2)) as Hin
    by (apply in_or_app; right; left; reflexivity).
  destruct (RoundTrip_query_acquired fuel request t t' _ _ rl req staged Hrun Hin)
    as (t1' & tr1' & src & Hacq' & Hrand & -> & -> & Hbody).
  rewrite Hacq in Hacq'. injection Hacq' as <- <-.
  destruct (DoQuery env rl (requestOf request src)) as [e|res] eqn:Hq.
  { apply RoundTrip_inv in Hrun as (t1' & tr1' & acq & Hacq' & Hrest).
    rewrite Hacq in Hacq'. injection Hacq' as <- <- <-.
    rewrite Hrand in Hrest. cbv zeta in Hrest. fold (requestOf request src) in Hrest.
    rewrite Hq in Hrest.
    destruct (http.Body request) as [[e'|data]|].
    - destruct Hrest as (_ & _ & [=]).
    - destruct Hrest as (_ & tr2' & _ & _ & _ & _ & [=]).
    - destruct Hrest as (_ & tr2' & _ & _ & _ & _ & [=]). }
  rewrite (RoundTrip_answered U env fuel request t t1 tr1 rl src res Hacq Hrand Hbody Hq)
    in Hrun.
  destruct (declaredLength request) as [e|n]; [discriminate Hrun|].
  exists t1, tr1, rl, src, res, n.
  destruct (0 <? n).
  - destruct (maxAlloc env <? n); [discriminate Hrun|].
    destruct (pullLoop env fuel rl _ _ 0 [] ∅ _) as [[t3 tr3] [[buf trailer]| | |]] eqn:Ep;
      try discriminate Hrun.
    injection Hrun as <- Htr <-. apply app_inv_head in Htr. injection Htr as <-.
    exists buf, trailer, tr3. repeat split; auto. eexists. exact Ep.
  - injection Hrun as <- Htr <-. apply app_inv_head in Htr. injection Htr as <-.
    exists [], ∅, []. repeat split; auto.
Qed.

End ExchangeInversion.

Section ExchangeTheorems.

Variable U : Z -> Z.
Variable env : Env.

(** X19. A session is set up once: after a call that sent its query over a
    session, that session is cached under the host, and the next call for
    the same host does no set-up and talks over it. *)
Theorem RoundTrip_session_reused (env2 : Env) (fuel fuel2 : nat)
    (request request2 : http.Request) (t t1 t2 : Transport) (tr1 tr2 : list event)
    (r1 r2 : result http.Response) (rl : RLDP) (req : Request.t)
    (staged : gmap string payloadStream.t) :
  RoundTrip U env fuel request t = (t1, tr1, r1) ->
  In (EvQuery rl req staged) tr1 ->
  http.Host request2 = http.Host request ->
  RoundTrip U env2 fuel2 request2 t1 = (t2, tr2, r2) ->
  rldpClients t1 !! http.Host request = Some rl
  /\ rldpClients t2 = rldpClients t1
  /\ Forall (isExchangeOn rl) tr2.
Proof.
  intros Hrun Hin Hhost Hrun2.
  destruct (RoundTrip_query_acquired U env fuel request t t1 tr1 r1 rl req staged Hrun Hin)
    as (t0 & tr0 & src & Hacq & _).
  pose proof (acquire_cached U env request t t0 tr0 rl Hacq) as Hc.
  destruct (RoundTrip_setup_inv U env fuel request t t1 tr1 r1 Hrun)
    as (t0' & tr0' & acq & Hacq' & Hcl & _).
  rewrite Hacq in Hacq'. injection Hacq' as <- <- <-. rewrite <- Hcl in Hc.
  split; [exact Hc|].
  rewrite <- Hhost in Hc.
  destruct (RoundTrip_setup_inv U env2 fuel2 request2 t1 t2 tr2 r2 Hrun2)
    as (t3 & tr3 & acq & Hacq2 & Hcl2 & Htr & _).
  rewrite (acquire_hit U env2 request2 t1 rl Hc) in Hacq2. injection Hacq2 as <- <- <-.
  split; [exact Hcl2|].
  destruct Htr as [[-> _]|(rl0 & req0 & staged0 & tr4 & [= <-] & -> & Hpull)];
    [constructor|].
  constructor; [reflexivity|].
  eapply List.Forall_impl; [|exact Hpull]. intros [] Hev; cbn in *; auto; contradiction.
Qed.

(** X20. When a session is dropped, the disconnect callback removes it from
    the cache and touches nothing else: the next call for that host starts
    by resolving the host again, and the sessions of other hosts are still
    cached after it. *)
Theorem onDisconnect_forgets (fuel : nat) (request : http.Request) (t t0 t' : Transport)
    (tr0 tr : list event) (r0 : result unit) (r : result http.Response) :
  onDisconnect (http.Host request) t = (t0, tr0, r0) ->
  HasSuffix (http.Host request) ".adnl" = false ->
  RoundTrip U env fuel request t0 = (t', tr, r) ->
  tr0 = [] /\ r0 = Ok tt /\ activeRequests t0 = activeRequests t
  /\ (exists rest, tr = EvResolve (http.Host request) :: rest)
  /\ forall h, h <> http.Host request -> rldpClients t' !! h = rldpClients t !! h.
Proof.
  unfold onDisconnect. run. intros H Hsuf Hrun. invert_run H.
  repeat split; auto.
  - destruct (RoundTrip_setup_inv U env fuel request _ t' tr r Hrun)
      as (t1 & tr1 & acq & Hacq & _ & Htr & _).
    assert (exists rest1, tr1 = EvResolve (http.Host request) :: rest1) as [rest1 ->].
    { refine (acquire_resolves_first U env request _ t1 tr1 acq _ Hsuf Hacq).
      cbn. apply lookup_delete_eq. }
    destruct Htr as [[-> _]|(rl & req & staged & tr2 & _ & -> & _)]; cbn; eauto.
  - intros h Hh.
    destruct (RoundTrip_setup_inv U env fuel request _ t' tr r Hrun)
      as (t1 & tr1 & acq & Hacq & Hcl & _).
    rewrite Hcl, (acquire_clients U env request _ t1 tr1 acq Hacq h Hh). cbn.
    apply lookup_delete_ne. congruence.
Qed.

(** X21. [RoundTrip] changes only what is its own: the sessions cached for
    other hosts are left as they were, and so are the bodies staged under
    other identifiers than the one of this request. *)
Theorem RoundTrip_frame (fuel : nat) (request : http.Request) (t t' : Transport)
    (tr : list event) (r : result http.Response) :
  RoundTrip U env fuel request t = (t', tr, r) ->
  (forall h, h <> http.Host request -> rldpClients t' !! h = rldpClients t !! h)
  /\ (forall k,
        (forall src, randRead env = inr src -> k <> EncodeToString (Read src (repeat 0 32))) ->
        activeRequests t' !! k = activeRequests t !! k).
Proof.
  intros Hrun. split.
  - intros h Hh.
    destruct (RoundTrip_setup_inv U env fuel request t t' tr r Hrun)
      as (t1 & tr1 & acq & Hacq & Hcl & _).
    rewrite Hcl. apply (acquire_clients U env request t t1 tr1 acq Hacq h Hh).
  - intros k Hk.
    apply RoundTrip_inv in Hrun as (t1 & tr1 & acq & Hacq & Hrest).
    pose proof (acquire_inv U env request t t1 tr1 acq Hacq) as [Ha _].
    rewrite <- Ha.
    destruct acq as [session|e|p|]; try (destruct Hrest as (-> & _); reflexivity).
    destruct (randRead env) as [e|src]; [destruct Hrest as (-> & _); reflexivity|].
    specialize (Hk src eq_refl). cbv zeta in Hrest. unfold stagedWith in Hrest.
    destruct (http.Body request) as [[e|data]|];
      [destruct Hrest as (-> & _); reflexivity| |].
    + destruct Hrest as [_ Hrest]. destruct session as [rl|].
      * destruct Hrest as (tr2 & _ & _ & Hrest).
        destruct (DoQuery env rl _) as [e|res].
        -- destruct Hrest as (-> & _). apply lookup_insert_ne. congruence.
        -- destruct Hrest as (-> & _). rewrite lookup_delete_ne by congruence.
           apply lookup_insert_ne. congruence.
      * destruct Hrest as (-> & _). apply lookup_insert_ne. congruence.
    + destruct Hrest as [_ Hrest]. destruct session as [rl|].
      * destruct Hrest as (tr2 & _ & _ & Hrest).
        destruct (DoQuery env rl _) as [e|res].
        -- destruct Hrest as (-> & _). reflexivity.
        -- destruct Hrest as (-> & _). apply lookup_delete_ne. congruence.
      * destruct Hrest as (-> & _). reflexivity.
Qed.

(** X22. Once the query has been answered, the body staged for the request
    is gone, whatever happens afterwards: the table is the staged one
    without the entry of the request, and a pull request of the peer for
    that identifier is refused as unknown, without an answer being sent. *)
Theorem RoundTrip_answered_clears_stream (fuel : nat) (request : http.Request)
    (t t' : Transport) (tr : list event) (r : result http.Response) (rl : RLDP)
    (req : Request.t) (staged : gmap string payloadStream.t) (res : Response.t) :
  RoundTrip U env fuel request t = (t', tr, r) ->
  In (EvQuery rl req staged) tr ->
  DoQuery env rl req = inr res ->
  activeRequests t' = delete (EncodeToString (Request.ID req)) staged
  /\ forall r0 query p,
       Query.Data query = Query.GetNextPayloadPart p ->
       GetNextPayloadPart.ID p = Request.ID req ->
       getRLDPQueryHandler env r0 query t' = (t', [], Err ErrUnknownRequestId).
Proof.
  intros Hrun Hin Hq.
  destruct (RoundTrip_query_acquired U env fuel request t t' tr r rl req staged Hrun Hin)
    as (t1 & tr1 & src & Hacq & Hrand & -> & -> & Hbody).
  assert (activeRequests t'
          = delete (EncodeToString (Read src (repeat 0 32)))
              (stagedWith env (Read src (repeat 0 32)) (http.Body request)
                 (activeRequests t1))) as Ha.
  { rewrite (RoundTrip_answered U env fuel request t t1 tr1 rl src res Hacq Hrand Hbody Hq)
      in Hrun.
    destruct (declaredLength request) as [e|n]; [injection Hrun as <- _ _; reflexivity|].
    destruct (0 <? n); [|injection Hrun as <- _ _; reflexivity].
    destruct (maxAlloc env <? n); [injection Hrun as <- _ _; reflexivity|].
    destruct (pullLoop env fuel rl _ _ 0 [] ∅ _) as [[t3 tr3] r3] eqn:Ep.
    apply pullLoop_inv in Ep as [-> _]. injection Hrun as <- _ _. reflexivity. }
  split; [exact Ha|].
  intros r0 query p Hd Hid. unfold getRLDPQueryHandler. rewrite Hd. run.
  rewrite Hid, Ha. cbn [requestOf Request.ID]. rewrite lookup_delete_eq. reflexivity.
Qed.

(** X23. The response body is the concatenation, in order, of the parts the
    peer serves up to and including the first one marked last; the parts are
    pulled one by one with the sequence numbers 0, 1, 2, ..., each with the
    chunk size of the transport, and the trailers of the parts are folded
    into the trailer of the response. *)
Theorem RoundTrip_body_reassembled (fuel : nat) (request : http.Request) (t : Transport)
    (rl : RLDP) (src : list Z) (res : Response.t) (n : Z)
    (parts : list PayloadPart.t) (final : PayloadPart.t) :
  rldpClients t !! http.Host request = Some rl ->
  randRead env = inr src ->
  http.Body request = None ->
  DoQuery env rl (requestOf request src) = inr res ->
  Response.NoPayload res = false ->
  declaredLength request = inr n ->
  0 < n <= maxAlloc env ->
  serves env rl (Read src (repeat 0 32)) (parts ++ [final]) ->
  Forall (fun part => PayloadPart.IsLast part = false) parts ->
  PayloadPart.IsLast final = true ->
  Z.of_nat (length parts) < 2 ^ 31 ->
  (length parts < fuel)%nat ->
  RoundTrip U env fuel request t
  = (mkTransport (rldpClients t)
       (delete (EncodeToString (Read src (repeat 0 32))) (activeRequests t)),
     EvQuery rl (requestOf request src) (activeRequests t)
     :: pulls rl (Read src (repeat 0 32)) (S (length parts)),
     Ok (responseOf request res n
           (concat (map PayloadPart.Data (parts ++ [final])))
           (setHeaders (concat (map PayloadPart.Trailer (parts ++ [final]))) ∅))).
Proof.
  intros Hhit Hrand Hbody Hq Hnp Hlen [Hpos Hmax] Hserve Hmore Hlast Hk Hfuel.
  rewrite (RoundTrip_answered U env fuel request t t [] rl src res
             (acquire_hit U env request t rl Hhit) Hrand
             ltac:(intros e; rewrite Hbody; discriminate) Hq).
  rewrite Hlen, Hbody, Hnp.
  destruct (Z.ltb_spec 0 n) as [_|]; [|lia].
  destruct (Z.ltb_spec (maxAlloc env) n) as [|_]; [lia|].
  unfold stagedWith.
  set (qid := Read src (repeat 0 32)) in *.
  set (t2 := mkTransport _ _).
  replace fuel with (length parts + S (fuel - S (length parts)))%nat by lia.
  rewrite (pullLoop_parts env rl qid t2 parts (S (fuel - S (length parts))) 0 [] ∅).
  - cbn [Nat.add app].
    rewrite (pullLoop_last env _ rl qid (length parts) final)
      by (auto; apply Hserve; rewrite lookup_app_r by lia; rewrite Nat.sub_diag; reflexivity).
    rewrite pulls_S, !map_app, !concat_app, setHeaders_app. cbn [map concat].
    rewrite !app_nil_r. reflexivity.
  - cbn [Nat.add]. exact Hk.
  - intros i part Hi. split.
    + apply Hserve. rewrite lookup_app_l by (apply lookup_lt_Some in Hi; exact Hi). exact Hi.
    + rewrite List.Forall_forall in Hmore. apply Hmore.
      apply list_elem_of_In. eapply list_elem_of_lookup_2. exact Hi.
Qed.

(** X24. When a pull request fails, [RoundTrip] stops there: it returns the
    error with the sequence number of the failed request, sends no further
    request, and the parts received so far are dropped with the response. *)
Theorem RoundTrip_pull_error (fuel : nat) (request : http.Request) (t : Transport)
    (rl : RLDP) (src : list Z) (res : Response.t) (n : Z)
    (parts : list PayloadPart.t) (e : error) :
  rldpClients t !! http.Host request = Some rl ->
  randRead env = inr src ->
  http.Body request = None ->
  DoQuery env rl (requestOf request src) = inr res ->
  Response.NoPayload res = false ->
  declaredLength request = inr n ->
  0 < n <= maxAlloc env ->
  serves env rl (Read src (repeat 0 32)) parts ->
  Forall (fun part => PayloadPart.IsLast part = false) parts ->
  DoQueryPart env rl (nextPart (Read src (repeat 0 32)) (length parts)) = inl e ->
  Z.of_nat (length parts) < 2 ^ 31 ->
  (length parts < fuel)%nat ->
  RoundTrip U env fuel request t
  = (mkTransport (rldpClients t)
       (delete (EncodeToString (Read src (repeat 0 32))) (activeRequests t)),
     EvQuery rl (requestOf request src) (activeRequests t)
     :: pulls rl (Read src (repeat 0 32)) (S (length parts)),
     Err (ErrQueryPart (Z.of_nat (length parts)) e)).
Proof.
  intros Hhit Hrand Hbody Hq Hnp Hlen [Hpos Hmax] Hserve Hmore Hfail Hk Hfuel.
  rewrite (RoundTrip_answered U env fuel request t t [] rl src res
             (acquire_hit U env request t rl Hhit) Hrand
             ltac:(intros e0; rewrite Hbody; discriminate) Hq).
  rewrite Hlen, Hbody, Hnp.
  destruct (Z.ltb_spec 0 n) as [_|]; [|lia].
  destruct (Z.ltb_spec (maxAlloc env) n) as [|_]; [lia|].
  unfold stagedWith.
  set (qid := Read src (repeat 0 32)) in *.
  set (t2 := mkTransport _ _).
  replace fuel with (length parts + S (fuel - S (length parts)))%nat by lia.
  rewrite (pullLoop_parts env rl qid t2 parts (S (fuel - S (length parts))) 0 [] ∅).
  - cbn [Nat.add app].
    rewrite (pullLoop_error env _ rl qid (length parts) e) by exact Hfail.
    rewrite pulls_S. reflexivity.
  - cbn [Nat.add]. exact Hk.
  - intros i part Hi. split.
    + apply Hserve. exact Hi.
    + rewrite List.Forall_forall in Hmore. apply Hmore.
      apply list_elem_of_In. eapply list_elem_of_lookup_2. exact Hi.
Qed.

(** X25. The pull loop has no bound of its own: against a peer that never
    marks a part as the last one, [RoundTrip] keeps pulling and does not
    return, however many rounds it is given. *)
Theorem RoundTrip_never_last (request : http.Request) (t : Transport)
    (rl : RLDP) (src : list Z) (res : Response.t) (n : Z) :
  rldpClients t !! http.Host request = Some rl ->
  randRead env = inr src ->
  (forall e, http.Body request <> Some (inl e)) ->
  DoQuery env rl (requestOf request src) = inr res ->
  Response.NoPayload res = false ->
  declaredLength request = inr n ->
  0 < n <= maxAlloc env ->
  (forall q, exists part, DoQueryPart env rl q = inr part /\ PayloadPart.IsLast part = false) ->
  forall fuel, exists t' tr,
    RoundTrip U env fuel request t = (t', tr, Diverge)
    /\ length (List.filter isPull tr) = fuel.
Proof.
  intros Hhit Hrand Hbody Hq Hnp Hlen [Hpos Hmax] Hpeer fuel.
  rewrite (RoundTrip_answered U env fuel request t t [] rl src res
             (acquire_hit U env request t rl Hhit) Hrand Hbody Hq).
  rewrite Hlen, Hnp.
  destruct (Z.ltb_spec 0 n) as [_|]; [|lia].
  destruct (Z.ltb_spec (maxAlloc env) n) as [|_]; [lia|].
  match goal with |- context [pullLoop env fuel rl ?q false 0 [] ∅ ?t2] =>
    destruct (pullLoop_never_last env rl q t2 Hpeer fuel 0 [] ∅) as (tr & E & Hl);
    pose proof (pullLoop_inv env fuel rl q false 0 [] ∅ t2 _ _ _ E) as [_ Hall];
    rewrite E
  end.
  eexists _, _. split; [reflexivity|]. cbn [app List.filter isPull].
  rewrite <- Hl. f_equal. clear -Hall.
  induction Hall as [|ev tr Hev _ IH]; [reflexivity|].
  destruct ev; cbn in Hev; try contradiction. cbn. f_equal. exact IH.
Qed.

(** X26. The response carries the answer of the peer: reason, status code
    and protocol 1.1, the request it answers, and one value per header
    name, the last one the peer sent under that name. *)
Theorem RoundTrip_response (fuel : nat) (request : http.Request) (t t' : Transport)
    (tr : list event) (resp : http.Response) :
  RoundTrip U env fuel request t = (t', tr, Ok resp) ->
  exists rl src res staged,
    randRead env = inr src
    /\ In (EvQuery rl (requestOf request src) staged) tr
    /\ DoQuery env rl (requestOf request src) = inr res
    /\ http.Status resp = Response.Reason res
    /\ http.StatusCode resp = Response.StatusCode res
    /\ (http.Proto resp, http.ProtoMajor resp, http.ProtoMinor resp)
       = ("HTTP/1.1"%string, 1, 1)
    /\ http.RespRequest resp = request
    /\ forall name,
         http.RespHeader resp !! name
         = (fun v => [v]) <$> lastValue name (Response.Headers res).
Proof.
  intros Hrun.
  destruct (RoundTrip_Ok_inv U env fuel request t t' tr resp Hrun)
    as (t1 & tr1 & rl & src & res & n & buf & trailer & tr3
        & Hacq & Hrand & Hq & Hlen & -> & -> & _).
  exists rl, src, res. eexists. split; [exact Hrand|].
  split; [apply in_or_app; right; left; reflexivity|].
  split; [exact Hq|]. cbn. repeat split.
  intros name. rewrite setHeaders_lookup.
  destruct (lastValue name (Response.Headers res)); [reflexivity|]. apply lookup_empty.
Qed.

(** X27. The body of the answer is fetched only on the word of the request:
    unless the header map of the request has a [Content-Length] entry whose
    first value is a positive number, no part is pulled, and the response
    has an empty body and an empty trailer whatever the peer has to send. *)
Theorem RoundTrip_body_needs_length (fuel : nat) (request : http.Request)
    (t t' : Transport) (tr : list event) (resp : http.Response) :
  (forall ln0 lns n,
     http.lookupHeader (http.Header request) "Content-Length" = Some (ln0 :: lns) ->
     strconv.ParseInt ln0 = inr n -> n <= 0) ->
  RoundTrip U env fuel request t = (t', tr, Ok resp) ->
  http.RespBody resp = [] /\ http.Trailer resp = ∅ /\ List.filter isPull tr = [].
Proof.
  intros Hno Hrun.
  destruct (RoundTrip_Ok_inv U env fuel request t t' tr resp Hrun)
    as (t1 & tr1 & rl & src & res & n & buf & trailer & tr3
        & Hacq & Hrand & Hq & Hlen & -> & -> & Hrest).
  assert (n <= 0) as Hn.
  { unfold declaredLength in Hlen.
    destruct (http.lookupHeader _ _) as [[|ln0 lns]|] eqn:El; try (injection Hlen as <-; lia).
    destruct (strconv.ParseInt ln0) as [e|m] eqn:Ep; [discriminate Hlen|].
    injection Hlen as <-. apply (Hno ln0 lns m eq_refl Ep). }
  destruct (Z.ltb_spec 0 n) as [|_]; [lia|].
  destruct Hrest as (-> & -> & ->). cbn. repeat split.
  pose proof (acquire_inv U env request t t1 tr1 _ Hacq) as [_ Hsetup].
  rewrite List.filter_app. cbn. rewrite app_nil_r. clear -Hsetup.
  induction Hsetup as [|ev tr Hev _ IH]; [reflexivity|].
  destruct ev; cbn in Hev; try contradiction; cbn; exact IH.
Qed.

(** X28. A content length above what can be allocated makes [RoundTrip]
    panic at the allocation of the body buffer, after the query has been
    sent and answered and before any part is pulled. *)
Theorem RoundTrip_alloc_panics (fuel : nat) (request : http.Request) (t t' : Transport)
    (tr : list event) (r : result http.Response) (rl : RLDP) (req : Request.t)
    (staged : gmap string payloadStream.t) (res : Response.t) (n : Z) :
  RoundTrip U env fuel request t = (t', tr, r) ->
  In (EvQuery rl req staged) tr ->
  DoQuery env rl req = inr res ->
  declaredLength request = inr n ->
  0 < n -> maxAlloc env < n ->
  r = Panic MakesliceCapOutOfRange /\ List.filter isPull tr = [].
Proof.
  intros Hrun Hin Hq Hlen Hpos Hmax.
  destruct (RoundTrip_query_acquired U env fuel request t t' tr r rl req staged Hrun Hin)
    as (t1 & tr1 & src & Hacq & Hrand & -> & -> & Hbody).
  rewrite (RoundTrip_answered U env fuel request t t1 tr1 rl src res Hacq Hrand Hbody Hq)
    in Hrun.
  rewrite Hlen in Hrun.
  destruct (Z.ltb_spec 0 n) as [_|]; [|lia].
  destruct (Z.ltb_spec (maxAlloc env) n) as [_|]; [|lia].
  injection Hrun as <- <- <-. split; [reflexivity|].
  pose proof (acquire_inv U env request t t1 tr1 _ Hacq) as [_ Hsetup].
  rewrite List.filter_app. cbn. rewrite app_nil_r. clear -Hsetup.
  induction Hsetup as [|ev tr Hev _ IH]; [reflexivity|].
  destruct ev; cbn in Hev; try contradiction; cbn; exact IH.
Qed.

End ExchangeTheorems.

Lemma RoundTrip_session_reused_witness :
  exists t1 tr1 r1 t2 tr2 r2 rl req staged,
    RoundTrip caseRangesRows envUp 1 getNamed NewTransport = (t1, tr1, r1)
    /\ In (EvQuery rl req staged) tr1
    /\ RoundTrip caseRangesRows envDown 1 getNamed t1 = (t2, tr2, r2)
    /\ rldpClients t1 !! http.Host getNamed = Some rl
    /\ rldpClients t2 = rldpClients t1
    /\ Forall (isExchangeOn rl) tr2.
Proof.
  do 9 eexists.
  split; [vm_compute; reflexivity|].
  split; [do 4 right; left; reflexivity|].
  split; [vm_compute; reflexivity|].
  refine (RoundTrip_session_reused caseRangesRows envUp envDown 1 1 getNamed getNamed
            NewTransport _ _ _ _ _ _ _ _ _ _ _ _ _).
  - vm_compute. reflexivity.
  - do 4 right. left. reflexivity.
  - reflexivity.
  - vm_compute. reflexivity.
Defined.

Lemma onDisconnect_forgets_witness :
  exists t0 t' tr r,
    onDisconnect "site.ton" connected = (t0, [], Ok tt)
    /\ RoundTrip caseRangesRows envDown 1 getNamed t0 = (t', tr, r)
    /\ activeRequests t0 = activeRequests connected
    /\ (exists rest, tr = EvResolve (http.Host getNamed) :: rest)
    /\ forall h, h <> http.Host getNamed -> rldpClients t' !! h = rldpClients connected !! h.
Proof.
  do 4 eexists.
  split; [reflexivity|].
  split; [vm_compute; reflexivity|].
  refine (match onDisconnect_forgets caseRangesRows envDown 1 getNamed connected _ _ _ _ _ _
                  _ _ _ with
          | conj _ (conj _ H) => H
          end).
  - reflexivity.
  - reflexivity.
  - vm_compute. reflexivity.
Defined.

Lemma RoundTrip_frame_witness :
  exists t' tr r,
    RoundTrip caseRangesRows envUp 1 postBody connected = (t', tr, r)
    /\ (forall h, h <> http.Host postBody -> rldpClients t' !! h = rldpClients connected !! h)
    /\ (forall k,
          (forall src, randRead envUp = inr src ->
                       k <> EncodeToString (Read src (repeat 0 32))) ->
          activeRequests t' !! k = activeRequests connected !! k).
Proof.
  do 3 eexists. split; [vm_compute; reflexivity|].
  refine (RoundTrip_frame caseRangesRows envUp 1 postBody connected _ _ _ _).
  vm_compute. reflexivity.
Defined.

Lemma RoundTrip_answered_clears_stream_witness :
  exists t' tr r req staged,
    RoundTrip caseRangesRows envUp 1 postBody connected = (t', tr, r)
    /\ In (EvQuery peer req staged) tr
    /\ staged !! EncodeToString (Request.ID req) = Some (payloadStream.mk [7; 8; 9] 1000)
    /\ activeRequests t' = delete (EncodeToString (Request.ID req)) staged
    /\ forall r0 query p,
         Query.Data query = Query.GetNextPayloadPart p ->
         GetNextPayloadPart.ID p = Request.ID req ->
         getRLDPQueryHandler envUp r0 query t' = (t', [], Err ErrUnknownRequestId).
Proof.
  do 5 eexists.
  split; [vm_compute; reflexivity|].
  split; [left; reflexivity|].
  split; [vm_compute; reflexivity|].
  refine (RoundTrip_answered_clears_stream caseRangesRows envUp 1 postBody connected
            _ _ _ peer _ _ _ _ _ _).
  - vm_compute. reflexivity.
  - left. reflexivity.
  - reflexivity.
Defined.

Lemma RoundTrip_body_reassembled_witness :
  exists t' tr resp,
    RoundTrip caseRangesRows (envServing twoParts) 5 (getWithLength "3") connected
    = (t', tr, Ok resp)
    /\ http.RespBody resp = [1; 2; 3]
    /\ http.Trailer resp !! "A"%string = Some ["2"%string]
    /\ List.filter isPull tr
       = [EvQueryPart peer (nextPart (seqZ 100 32) 0);
          EvQueryPart peer (nextPart (seqZ 100 32) 1)].
Proof.
  do 3 eexists. split.
  - refine (RoundTrip_body_reassembled caseRangesRows (envServing twoParts) 5
              (getWithLength "3") connected peer (seqZ 100 32)
              (Response.mk 200 "OK" [Header.mk "Content-Length" "999"] false) 3
              [partOne] partTwo _ _ _ _ _ _ _ _ _ _ _ _).
    + reflexivity.
    + reflexivity.
    + reflexivity.
    + reflexivity.
    + reflexivity.
    + reflexivity.
    + split; [reflexivity|]. intros E. vm_compute in E. discriminate E.
    + intros [|[|i]] part Hi; cbn in Hi; try discriminate Hi; injection Hi as <-; reflexivity.
    + apply List.Forall_cons; [reflexivity|]. apply List.Forall_nil.
    + reflexivity.
    + reflexivity.
    + cbn. lia.
  - split; [reflexivity|]. split; vm_compute; reflexivity.
Defined.

Lemma RoundTrip_pull_error_witness :
  RoundTrip caseRangesRows (envServing onePart) 5 (getWithLength "3") connected
  = (mkTransport (rldpClients connected)
       (delete (EncodeToString (Read (seqZ 100 32) (repeat 0 32))) (activeRequests connected)),
     EvQuery peer (requestOf (getWithLength "3") (seqZ 100 32)) (activeRequests connected)
     :: pulls peer (Read (seqZ 100 32) (repeat 0 32)) 2,
     Err (ErrQueryPart 1 (ErrExternal "part"))).
Proof.
  refine (RoundTrip_pull_error caseRangesRows (envServing onePart) 5
            (getWithLength "3") connected peer (seqZ 100 32)
            (Response.mk 200 "OK" [Header.mk "Content-Length" "999"] false) 3
            [partOne] (ErrExternal "part") _ _ _ _ _ _ _ _ _ _ _ _).
  - reflexivity.
  - reflexivity.
  - reflexivity.
  - reflexivity.
  - reflexivity.
  - reflexivity.
  - split; [reflexivity|]. intros E. vm_compute in E. discriminate E.
  - intros [|i] part Hi; cbn in Hi; try discriminate Hi; injection Hi as <-; reflexivity.
  - apply List.Forall_cons; [reflexivity|]. apply List.Forall_nil.
  - reflexivity.
  - reflexivity.
  - cbn. lia.
Defined.

Lemma RoundTrip_never_last_witness :
  exists t' tr,
    RoundTrip caseRangesRows (envServing endless) 7 (getWithLength "3") connected
    = (t', tr, Diverge)
    /\ length (List.filter isPull tr) = 7%nat.
Proof.
  refine (RoundTrip_never_last caseRangesRows (envServing endless)
            (getWithLength "3") connected peer (seqZ 100 32)
            (Response.mk 200 "OK" [Header.mk "Content-Length" "999"] false) 3
            _ _ _ _ _ _ _ _ 7%nat).
  - reflexivity.
  - reflexivity.
  - intros e. discriminate.
  - reflexivity.
  - reflexivity.
  - reflexivity.
  - split; [reflexivity|]. intros E. vm_compute in E. discriminate E.
  - intros q. exists partOne. split; reflexivity.
Defined.

Lemma RoundTrip_response_witness :
  exists t' tr resp,
    RoundTrip caseRangesRows envUp 1 getNamed connected = (t', tr, Ok resp)
    /\ exists rl src res staged,
         randRead envUp = inr src
         /\ In (EvQuery rl (requestOf getNamed src) staged) tr
         /\ DoQuery envUp rl (requestOf getNamed src) = inr res
         /\ http.Status resp = Response.Reason res
         /\ http.StatusCode resp = Response.StatusCode res
         /\ (http.Proto resp, http.ProtoMajor resp, http.ProtoMinor resp)
            = ("HTTP/1.1"%string, 1, 1)
         /\ http.RespRequest resp = getNamed
         /\ forall name,
              http.RespHeader resp !! name
              = (fun v => [v]) <$> lastValue name (Response.Headers res).
Proof.
  do 3 eexists. split; [vm_compute; reflexivity|].
  refine (RoundTrip_response caseRangesRows envUp 1 getNamed connected _ _ _ _).
  vm_compute. reflexivity.
Defined.

Lemma RoundTrip_body_needs_length_witness :
  exists t' tr resp,
    RoundTrip caseRangesRows envUp 1 getNamed connected = (t', tr, Ok resp)
    /\ http.RespBody resp = [] /\ http.Trailer resp = ∅ /\ List.filter isPull tr = [].
Proof.
  do 3 eexists. split; [vm_compute; reflexivity|].
  refine (RoundTrip_body_needs_length caseRangesRows envUp 1 getNamed connected _ _ _ _ _).
  - intros ln0 lns n Hl. discriminate Hl.
  - vm_compute. reflexivity.
Defined.

Lemma RoundTrip_alloc_panics_witness :
  exists t' tr r,
    RoundTrip caseRangesRows envUp 1 (getWithLength "9000000000000000") connected = (t', tr, r)
    /\ r = Panic MakesliceCapOutOfRange /\ List.filter isPull tr = [].
Proof.
  do 3 eexists. split; [vm_compute; reflexivity|].
  refine (RoundTrip_alloc_panics caseRangesRows envUp 1 (getWithLength "9000000000000000")
            connected _ _ _ peer _ _
            (Response.mk 200 "OK" [Header.mk "Content-Length" "999"] false)
            9000000000000000 _ _ _ _ _ _).
  - vm_compute. reflexivity.
  - left. reflexivity.
  - reflexivity.
  - vm_compute. reflexivity.
  - lia.
  - vm_compute. reflexivity.
Defined.
